(** * Copycat: the content-addressed submission and retrieval protocol

    A shallow embedding of the Go sources of the copycat paste service
    (the [/submit] and [/download] handlers, the [Uploads] table access
    functions [SubmitUpload] and [GetUpload], [FileObject] and the S3
    wrappers, and the browser-side [submit] of the upload page), together
    with the library behaviour those sources rely on: SHA-1, [%x]
    formatting, [strings.TrimSpace], [strings.Split] and the wire layout
    of [encoding/gob] for a [FileObject].

    Go strings are byte strings, modelled as [string]; [[]byte] is
    [list byte]; fixed-width integers are [Z] with their wrap-around
    written out; the header map is a [gmap]. *)

From Stdlib Require Import ZArith Lia List String Ascii.
From Stdlib.Strings Require Import Byte.
From stdpp Require Import gmap strings list fin_maps.
Import ListNotations.

Open Scope Z_scope.

(** ** Bytes and byte strings *)

Definition byte_of_Z (z : Z) : byte :=
  match Byte.of_N (Z.to_N (z mod 256)) with
  | Some b => b
  | None => x00
  end.

Definition Z_of_byte (b : byte) : Z := Z.of_N (Byte.to_N b).

(** [[]byte(s)] and [string(b)]. *)
Definition bytes_of_string (s : string) : list byte := list_byte_of_string s.
Definition string_of_bytes (b : list byte) : string := string_of_list_byte b.

(** Big-endian layout of the low [8 * n] bits of [z]. *)
Fixpoint be_bytes (n : nat) (z : Z) : list byte :=
  match n with
  | O => []
  | S n' => byte_of_Z (Z.shiftr z (8 * Z.of_nat n')) :: be_bytes n' z
  end.

(** [x = x<<8 | uint64(b)] over a byte sequence. *)
Definition be_value (bs : list byte) : Z :=
  fold_left (fun x b => Z.lor (Z.shiftl x 8) (Z_of_byte b)) bs 0.

(** ** crypto/sha1 *)

Module SHA1.

Definition mask32 (x : Z) : Z := x mod 2 ^ 32.

Definition add32 (x y : Z) : Z := mask32 (x + y).

(** [bits.RotateLeft32]. *)
Definition rotl (n x : Z) : Z :=
  mask32 (Z.lor (Z.shiftl x n) (Z.shiftr x (32 - n))).

Definition not32 (x : Z) : Z := mask32 (Z.lnot x).

(** The digest state [h0 .. h4]. *)
Record digest := Digest { h0 : Z; h1 : Z; h2 : Z; h3 : Z; h4 : Z }.

Definition init : digest :=
  Digest 0x67452301 0xEFCDAB89 0x98BADCFE 0x10325476 0xC3D2E1F0.

(** Message padding: a [0x80] byte, zeros up to 56 mod 64, and the
    length in bits as a big-endian 64-bit integer. *)
Definition padding (len : Z) : list byte :=
  let r := len mod 64 in
  let zeros := if r <? 56 then 55 - r else 119 - r in
  x80 :: repeat x00 (Z.to_nat zeros) ++ be_bytes 8 ((len * 8) mod 2 ^ 64).

(** Splits a byte sequence into big-endian 32-bit words. *)
Fixpoint words (bs : list byte) : list Z :=
  match bs with
  | a :: b :: c :: d :: rest => be_value [a; b; c; d] :: words rest
  | _ => []
  end.

(** The message schedule: [w] holds the last sixteen words, newest
    first; [n] more words are produced. *)
Fixpoint schedule (n : nat) (w : list Z) : list Z :=
  match n with
  | O => []
  | S n' =>
      let x := rotl 1 (Z.lxor (Z.lxor (nth 2 w 0) (nth 7 w 0))
                              (Z.lxor (nth 13 w 0) (nth 15 w 0))) in
      x :: schedule n' (x :: firstn 15 w)
  end.

Definition expand (blk : list Z) : list Z :=
  blk ++ schedule 64 (rev blk).

Definition f (t : nat) (b c d : Z) : Z :=
  if (t <? 20)%nat then Z.lor (Z.land b c) (Z.land (not32 b) d)
  else if (t <? 40)%nat then Z.lxor (Z.lxor b c) d
  else if (t <? 60)%nat then
    Z.lor (Z.lor (Z.land b c) (Z.land b d)) (Z.land c d)
  else Z.lxor (Z.lxor b c) d.

Definition K (t : nat) : Z :=
  if (t <? 20)%nat then 0x5A827999
  else if (t <? 40)%nat then 0x6ED9EBA1
  else if (t <? 60)%nat then 0x8F1BBCDC
  else 0xCA62C1D6.

Definition round (st : nat * digest) (w : Z) : nat * digest :=
  let '(t, Digest a b c d e) := st in
  let tmp := add32 (add32 (add32 (add32 (rotl 5 a) (f t b c d)) e) w) (K t) in
  (S t, Digest tmp a (rotl 30 b) c d).

Definition block (h : digest) (blk : list Z) : digest :=
  let '(_, Digest a b c d e) := fold_left round (expand blk) (O, h) in
  Digest (add32 (h0 h) a) (add32 (h1 h) b) (add32 (h2 h) c)
         (add32 (h3 h) d) (add32 (h4 h) e).

(** Consumes the word stream sixteen words at a time. *)
Fixpoint blocks (n : nat) (h : digest) (ws : list Z) : digest :=
  match n with
  | O => h
  | S n' =>
      match ws with
      | [] => h
      | _ => blocks n' (block h (firstn 16 ws)) (skipn 16 ws)
      end
  end.

(** [sha1.Sum(data)]: the 20-byte digest. *)
Definition Sum (data : list byte) : list byte :=
  let ws := words (data ++ padding (Z.of_nat (length data))) in
  let h := blocks (length ws) init ws in
  be_bytes 4 (h0 h) ++ be_bytes 4 (h1 h) ++ be_bytes 4 (h2 h)
    ++ be_bytes 4 (h3 h) ++ be_bytes 4 (h4 h).

End SHA1.

(** ** fmt.Sprintf("%x", ...) *)

Definition hexdigit (n : Z) : ascii :=
  if n <? 10 then ascii_of_N (Z.to_N (48 + n))
  else ascii_of_N (Z.to_N (87 + n)).

Fixpoint hex (bs : list byte) : string :=
  match bs with
  | [] => EmptyString
  | b :: rest =>
      String (hexdigit (Z_of_byte b / 16))
        (String (hexdigit (Z_of_byte b mod 16)) (hex rest))
  end.

(** [fmt.Sprintf("%x", sha1.Sum(data))]. *)
Definition sha1hex (data : list byte) : string := hex (SHA1.Sum data).

(** ** Package strings *)

Definition code (c : ascii) : Z := Z.of_N (N_of_ascii c).

(** The [asciiSpace] table: tab, newline, vertical tab, form feed,
    carriage return and space. *)
Definition asciiSpace (c : ascii) : bool :=
  let n := code c in
  (n =? 9) || (n =? 10) || (n =? 11) || (n =? 12) || (n =? 13) || (n =? 32).

(** [unicode.IsSpace] on the runes that take two bytes in UTF-8:
    U+0085 and U+00A0. *)
Definition space2 (a b : ascii) : bool :=
  (code a =? 0xC2) && ((code b =? 0x85) || (code b =? 0xA0)).

(** [unicode.IsSpace] on the runes that take three bytes: U+1680,
    U+2000 to U+200A, U+2028, U+2029, U+202F, U+205F and U+3000. *)
Definition space3 (a b c : ascii) : bool :=
  let x := code a in
  let y := code b in
  let z := code c in
  (x =? 0xE1) && (y =? 0x9A) && (z =? 0x80)
  || (x =? 0xE2) && (y =? 0x80)
     && ((0x80 <=? z) && (z <=? 0x8A) || (z =? 0xA8) || (z =? 0xA9) || (z =? 0xAF))
  || (x =? 0xE2) && (y =? 0x81) && (z =? 0x9F)
  || (x =? 0xE3) && (y =? 0x80) && (z =? 0x80).

(** [strings.TrimLeftFunc(s, unicode.IsSpace)] on the bytes of [s]: a
    rune is decoded at the front and dropped while it is white space.
    Bytes that do not start a well-formed white-space rune stop the scan. *)
Fixpoint trimLeft (s : list ascii) : list ascii :=
  match s with
  | a :: s1 =>
      if asciiSpace a then trimLeft s1
      else
        match s1 with
        | b :: s2 =>
            if space2 a b then trimLeft s2
            else
              match s2 with
              | c :: s3 => if space3 a b c then trimLeft s3 else s
              | [] => s
              end
        | [] => s
        end
  | [] => s
  end.

(** [strings.TrimRightFunc(s, unicode.IsSpace)], scanning the reversed
    byte sequence: the last rune is decoded from the end and dropped
    while it is white space. *)
Fixpoint trimRightRev (s : list ascii) : list ascii :=
  match s with
  | a :: s1 =>
      if asciiSpace a then trimRightRev s1
      else
        match s1 with
        | b :: s2 =>
            if space2 b a then trimRightRev s2
            else
              match s2 with
              | c :: s3 => if space3 c b a then trimRightRev s3 else s
              | [] => s
              end
        | [] => s
        end
  | [] => s
  end.

(** [strings.TrimSpace]. *)
Definition TrimSpace (s : string) : string :=
  string_of_list_ascii
    (rev (trimRightRev (rev (trimLeft (list_ascii_of_string s))))).

(** [strings.Split(s, sep)] for a one-byte separator: the substrings
    between the separators, at least one. *)
Fixpoint Split (s : string) (sep : ascii) : list string :=
  match s with
  | EmptyString => [EmptyString]
  | String c s' =>
      if Ascii.eqb c sep then EmptyString :: Split s' sep
      else
        match Split s' sep with
        | p :: ps => String c p :: ps
        | [] => [String c EmptyString]
        end
  end.

(** [strings.Join(elems, "")]. *)
Definition Join (elems : list string) : string :=
  fold_right String.append EmptyString elems.

(** [fmt.Sprintf("%s/%s", a, b)]. *)
Definition Sprintf_pair (a b : string) : string :=
  (a +:+ "/" +:+ b)%string.

(** [s[:n]]: a slice expression past the end of the string panics. *)
Definition slice_to (s : string) (n : nat) : option string :=
  if (n <=? String.length s)%nat then Some (String.substring 0 n s) else None.

(** The boolean prefix test behind [hash LIKE $1 || '%'] when [$1]
    holds neither [%] nor [_]. *)
Fixpoint has_prefix (p s : string) : bool :=
  match p, s with
  | EmptyString, _ => true
  | String a p', String b s' => Ascii.eqb a b && has_prefix p' s'
  | String _ _, EmptyString => false
  end.

(** ** Errors *)

(** Errors raised by the database driver: a PostgreSQL error response
    with its SQLSTATE code ([*pq.Error]), or any other failure of the
    connection. *)
Inductive dberror :=
| PqError (Code : string)
| ConnError (msg : string).

Inductive error :=
| ErrConstraintUnique
| ErrHashInvalid
| ErrNoRows                 (* sql.ErrNoRows *)
| ErrDB (e : dberror)
| ErrGob (msg : string)     (* errors of encoding/gob and time *)
| ErrNoSuchBucket           (* *types.NoSuchBucket *)
| ErrAWS (wrapsNoSuchBucket : bool) (msg : string)
| ErrIO (msg : string)      (* errors of multipart and io *)
| ErrorsNew (msg : string)
| Errorf (format : string) (args : list string) (cause : error).

(** ** The stored attachment *)

(** [time.Time] as the instant and zone offset it denotes: seconds since
    January 1 of year 1 ([int64]), nanoseconds ([int32]) and the zone
    offset in minutes east of UTC, [None] for UTC.  The reading of the
    monotonic clock and the name of the zone, which the binary form
    drops, are no part of it. *)
Record Time := mkTime { sec : Z; nsec : Z; zone : option Z }.

(** [time.Time{}]. *)
Definition zeroTime : Time := mkTime 0 0 None.

Definition Time_IsZero (t : Time) : bool :=
  (sec t =? 0) && (nsec t =? 0) && match zone t with None => true | Some _ => false end.

(** [textproto.MIMEHeader], a [map[string][]string]. *)
Abbreviation MIMEHeader := (gmap string (list string)).

(** A FileObject is the structure we store in the S3 bucket. *)
Record FileObject := mkFileObject {
  Filename : string;
  Header : MIMEHeader;
  Size : Z;
  Modtime : Time;
  Contents : list byte
}.

(** [new(FileObject)]. *)
Definition zeroFileObject : FileObject :=
  mkFileObject EmptyString ∅ 0 zeroTime [].

(** ** The iteration order of a Go map

    Ranging over a map visits its entries in an order the runtime picks
    anew each time.  The pick is an explicit argument: a list of
    positions, the [i]-th entry being inserted at the chosen position
    among those after it. *)
Definition MapOrder := list nat.

Fixpoint insert_at {A} (i : nat) (x : A) (l : list A) : list A :=
  match i, l with
  | S i', y :: l' => y :: insert_at i' x l'
  | _, _ => x :: l
  end.

Fixpoint shuffle {A} (o : MapOrder) (l : list A) : list A :=
  match l with
  | [] => []
  | x :: l' => insert_at (hd O o) x (shuffle (tl o) l')
  end.

(** [for k, v := range m] under the order [o]. *)
Definition MapRange (o : MapOrder) (m : MIMEHeader) : list (string * list string) :=
  shuffle o (map_to_list m).

(** ** time.Time.MarshalBinary and UnmarshalBinary *)

(** Two's complement reading of a [w]-bit pattern. *)
Definition signed (w : Z) (x : Z) : Z :=
  if x <? 2 ^ (w - 1) then x else x - 2 ^ w.

(** Version 1 of the layout: a version byte, the seconds, the
    nanoseconds and the zone offset in minutes ([-1] for UTC). *)
Definition MarshalBinary (t : Time) : list byte + error :=
  let offsetMin :=
    match zone t with
    | None => Some (-1)
    | Some offset =>
        if (offset <? -32768) || (offset =? -1) || (32767 <? offset)
        then None else Some offset
    end in
  match offsetMin with
  | None => inr (ErrGob "Time.MarshalBinary: unexpected zone offset")
  | Some off =>
      inl (x01 :: be_bytes 8 (sec t) ++ be_bytes 4 (nsec t) ++ be_bytes 2 off)
  end.

(** Version 2 of the layout, which carries a zone offset with seconds,
    has no counterpart in [Time] and is reported as unsupported. *)
Definition UnmarshalBinary (data : list byte) : Time + error :=
  match data with
  | [] => inr (ErrGob "Time.UnmarshalBinary: no data")
  | version :: buf =>
      if negb (Z_of_byte version =? 1) then
        inr (ErrGob "Time.UnmarshalBinary: unsupported version")
      else if negb (length data =? 15)%nat then
        inr (ErrGob "Time.UnmarshalBinary: invalid length")
      else
        let s := signed 64 (be_value (take 8 buf)) in
        let n := signed 32 (be_value (take 4 (drop 8 buf))) in
        let offset := signed 16 (be_value (take 2 (drop 12 buf))) in
        inl (mkTime s n (if offset =? -1 then None else Some offset))
  end.

(** ** encoding/gob, for a FileObject

    The encoder and the decoder of package gob on the one type the
    service encodes, after the wire format the package documents and the
    functions of the package that write and read it ([encodeUint],
    [encodeInt], [encodeStruct], [encodeMap], [decodeStruct], ...).
    A slice or a map is the sequence or the mapping it holds: nil and
    empty are not told apart. *)

Module Gob.

(** [tooBig]: the bound on the size of a message, 8 GiB on a 64-bit
    platform. *)
Definition tooBig : Z := 2 ^ 33.

Definition uint64 (x : Z) : Z := x mod 2 ^ 64.

(** [encodeUint]: a value up to [0x7F] is one byte; a larger one is its
    big-endian bytes without leading zeros, after the negated count of
    those bytes. *)
Definition encodeUint (x : Z) : list byte :=
  let x := uint64 x in
  if x <=? 0x7F then [byte_of_Z x]
  else
    let bc := Z.shiftr (64 - (Z.log2 x + 1)) 3 in
    byte_of_Z (bc - 8) :: be_bytes (Z.to_nat (8 - bc)) x.

(** [encodeInt]: the sign goes to bit 0, the magnitude is complemented
    when negative. *)
Definition encodeInt (i : Z) : list byte :=
  let x := if i <? 0 then Z.lor (uint64 (Z.shiftl (Z.lnot i) 1)) 1
           else uint64 (Z.shiftl i 1) in
  encodeUint x.

(** [decodeUint], returning the value and the rest of the buffer. *)
Definition decodeUint (buf : list byte) : option (Z * list byte) :=
  match buf with
  | [] => None
  | b :: rest =>
      let v := Z_of_byte b in
      if v <=? 0x7F then Some (v, rest)
      else
        let n := 256 - v in
        if 8 <? n then None
        else if Z.of_nat (length rest) <? n then None
        else Some (be_value (take (Z.to_nat n) rest), drop (Z.to_nat n) rest)
  end.

Definition decodeInt (buf : list byte) : option (Z * list byte) :=
  '(x, rest) ← decodeUint buf;
  Some (if Z.odd x then Z.lnot (Z.shiftr x 1) else Z.shiftr x 1, rest).

(** [getLength]: a byte count that fits the rest of the buffer. *)
Definition getLength (buf : list byte) : option (nat * list byte) :=
  '(u, rest) ← decodeUint buf;
  let n := signed 64 u in
  if (n <? 0) || (Z.of_nat (length rest) <? n) || (tooBig <=? n) then None
  else Some (Z.to_nat n, rest).

(** *** Values *)

Definition encBytes (b : list byte) : list byte :=
  encodeUint (Z.of_nat (length b)) ++ b.

Definition encString (s : string) : list byte :=
  encBytes (bytes_of_string s).

(** [encodeArray] on a [[]string]. *)
Definition encStrings (l : list string) : list byte :=
  encodeUint (Z.of_nat (length l)) ++ concat (map encString l).

(** [encodeMap]: the count, then each key and value in the order of
    the range. *)
Definition encodeMap (o : MapOrder) (m : MIMEHeader) : list byte :=
  encodeUint (Z.of_nat (size m))
    ++ concat (map (fun kv => encString kv.1 ++ encStrings kv.2) (MapRange o m)).

Definition decBytes (buf : list byte) : option (list byte * list byte) :=
  '(n, rest) ← getLength buf;
  Some (take n rest, drop n rest).

Definition decString (buf : list byte) : option (string * list byte) :=
  '(b, rest) ← decBytes buf;
  Some (string_of_bytes b, rest).

(** [n] more strings; the buffer bounds the number of rounds. *)
Fixpoint decStringSlice (fuel : nat) (n : Z) (buf : list byte)
  : option (list string * list byte) :=
  if n <=? 0 then Some ([], buf)
  else
    match fuel with
    | O => None
    | S fuel' =>
        '(s, rest) ← decString buf;
        '(l, rest') ← decStringSlice fuel' (n - 1) rest;
        Some (s :: l, rest')
    end.

(** [decodeSlice] on a [[]string], whose elements take 16 bytes of
    memory each. *)
Definition decodeSlice (buf : list byte) : option (list string * list byte) :=
  '(u, rest) ← decodeUint buf;
  let nBytes := uint64 (u * 16) in
  if (signed 64 u <? 0) || (tooBig <? nBytes) || negb (nBytes / 16 =? u) then None
  else decStringSlice (length rest) u rest.

(** [decodeMap]: [n] more entries are stored into [m]; on an error the
    entries stored so far stay. *)
Fixpoint decodeEntries (fuel : nat) (n : Z) (buf : list byte) (m : MIMEHeader)
  : MIMEHeader * option (list byte) :=
  if n <=? 0 then (m, Some buf)
  else
    match fuel with
    | O => (m, None)
    | S fuel' =>
        match decString buf with
        | None => (m, None)
        | Some (k, rest) =>
            match decodeSlice rest with
            | None => (m, None)
            | Some (v, rest') => decodeEntries fuel' (n - 1) rest' (<[k := v]> m)
            end
        end
    end.

Definition decodeMap (buf : list byte) (m : MIMEHeader)
  : MIMEHeader * option (list byte) :=
  match decodeUint buf with
  | None => (m, None)
  | Some (u, rest) =>
      if signed 64 u <? 0 then (m, None)
      else decodeEntries (length rest) u rest m
  end.

(** *** The struct *)

(** What each field op writes after the field delta; [None] when the
    field holds its zero value and is left out.  The header map is
    never nil in a FileObject built from an upload, so it is always
    sent. *)
Definition encFilename (v : FileObject) : option (list byte) :=
  if (0 <? String.length (Filename v))%nat then Some (encString (Filename v)) else None.

Definition encHeader (o : MapOrder) (v : FileObject) : option (list byte) :=
  Some (encodeMap o (Header v)).

Definition encSize (v : FileObject) : option (list byte) :=
  if Size v =? 0 then None else Some (encodeInt (Size v)).

(** [encodeGobEncoder]: the bytes of [GobEncode], which for a
    [time.Time] is [MarshalBinary]. *)
Definition encModtime (v : FileObject) : option (list byte) + error :=
  if Time_IsZero (Modtime v) then inl None
  else
    match MarshalBinary (Modtime v) with
    | inl data => inl (Some (encBytes data))
    | inr e => inr e
    end.

Definition encContents (v : FileObject) : option (list byte) :=
  if (0 <? length (Contents v))%nat then Some (encBytes (Contents v)) else None.

(** [encodeStruct]: each field that is sent is preceded by the distance
    from the field sent before it ([state.update]); a zero ends the
    struct. *)
Fixpoint encFields (prev i : Z) (fs : list (option (list byte))) : list byte :=
  match fs with
  | [] => encodeUint 0
  | None :: r => encFields prev (i + 1) r
  | Some b :: r => encodeUint (i - prev) ++ b ++ encFields i (i + 1) r
  end.

Definition encodeStruct (o : MapOrder) (v : FileObject) : list byte + error :=
  match encModtime v with
  | inr e => inr e
  | inl modtime =>
      inl (encFields (-1) 0
             [encFilename v; encHeader o v; encSize v; modtime; encContents v])
  end.

Definition setFilename (v : FileObject) (x : string) : FileObject :=
  mkFileObject x (Header v) (Size v) (Modtime v) (Contents v).
Definition setHeader (v : FileObject) (x : MIMEHeader) : FileObject :=
  mkFileObject (Filename v) x (Size v) (Modtime v) (Contents v).
Definition setSize (v : FileObject) (x : Z) : FileObject :=
  mkFileObject (Filename v) (Header v) x (Modtime v) (Contents v).
Definition setModtime (v : FileObject) (x : Time) : FileObject :=
  mkFileObject (Filename v) (Header v) (Size v) x (Contents v).
Definition setContents (v : FileObject) (x : list byte) : FileObject :=
  mkFileObject (Filename v) (Header v) (Size v) (Modtime v) x.

(** The decoding op of field [fieldnum]: the value with the field
    stored and the rest of the buffer, or an error with what was
    stored before it. *)
Definition decField (fieldnum : Z) (buf : list byte) (v : FileObject)
  : FileObject * option (list byte) :=
  if fieldnum =? 0 then
    match decString buf with
    | Some (s, rest) => (setFilename v s, Some rest)
    | None => (v, None)
    end
  else if fieldnum =? 1 then
    let '(m, r) := decodeMap buf (Header v) in (setHeader v m, r)
  else if fieldnum =? 2 then
    match decodeInt buf with
    | Some (i, rest) => (setSize v i, Some rest)
    | None => (v, None)
    end
  else if fieldnum =? 3 then
    match decBytes buf with
    | Some (data, rest) =>
        match UnmarshalBinary data with
        | inl t => (setModtime v t, Some rest)
        | inr _ => (v, None)
        end
    | None => (v, None)
    end
  else
    match decBytes buf with
    | Some (b, rest) => (setContents v b, Some rest)
    | None => (v, None)
    end.

(** [decodeStruct]: [for state.b.Len() > 0], read a delta; zero ends
    the struct, a field past the last one is out of range. *)
Fixpoint decodeStruct (fuel : nat) (fieldnum : Z) (buf : list byte) (v : FileObject)
  : FileObject * option error :=
  match fuel, buf with
  | O, _ | _, [] => (v, None)
  | S fuel', _ =>
      match decodeUint buf with
      | None => (v, Some (ErrGob "unexpected EOF"))
      | Some (u, rest) =>
          let delta := signed 64 u in
          if delta <? 0 then (v, Some (ErrGob "decode: corrupted data: negative delta"))
          else if delta =? 0 then (v, None)
          else if 5 - delta <=? fieldnum then (v, Some (ErrGob "field numbers out of bounds"))
          else
            match decField (fieldnum + delta) rest v with
            | (v', Some rest') => decodeStruct fuel' (fieldnum + delta) rest' v'
            | (v', None) => (v', Some (ErrGob "decode: corrupted data"))
            end
      end
  end.

(** *** The stream *)

Section Stream.

(** The messages that define the wire types of a FileObject (the
    struct, its header map, the slices in it and the time), which an
    Encoder sends once before the first value, and the type id the
    struct goes by.  Both are fixed by the program; neither depends
    on the value sent. *)
Variable wireTypes : list byte.
Variable tFileObject : Z.

(** [encoder.Encode(fileObject)] on a fresh Encoder over an empty
    buffer: the bytes left in the buffer and the error returned.
    The type definitions are written before the value is encoded;
    the value message is its length, the type id and the struct. *)
Definition Encode (o : MapOrder) (v : FileObject) : list byte * option error :=
  match encodeStruct o v with
  | inr e => (wireTypes, Some e)
  | inl body =>
      let message := encodeInt tFileObject ++ body in
      let messageLen := Z.of_nat (length message) in
      if tooBig <=? messageLen then
        (wireTypes, Some (ErrGob "gob: encoder: message too big"))
      else (wireTypes ++ encodeUint messageLen ++ message, None)
  end.

Fixpoint trimPrefix (p l : list byte) : option (list byte) :=
  match p, l with
  | [], _ => Some l
  | a :: p', b :: l' => if Byte.eqb a b then trimPrefix p' l' else None
  | _ :: _, [] => None
  end.

(** [decoder.Decode(file)] on a fresh Decoder over [data]: the value
    left in [file] and the error returned.  The decoder is followed
    on a stream made of the type definitions of a FileObject and one
    value message; a stream that starts otherwise is reported as a
    type mismatch. *)
Definition Decode (data : list byte) (file : FileObject) : FileObject * option error :=
  match trimPrefix wireTypes data with
  | None => (file, Some (ErrGob "gob: type mismatch"))
  | Some rest =>
      match decodeUint rest with
      | None => (file, Some (ErrGob "unexpected EOF"))
      | Some (nbytes, rest') =>
          if tooBig <=? nbytes then (file, Some (ErrGob "gob: bad data: field numbers out of bounds"))
          else if Z.of_nat (length rest') <? nbytes then (file, Some (ErrGob "unexpected EOF"))
          else
            let message := take (Z.to_nat nbytes) rest' in
            match decodeInt message with
            | None => (file, Some (ErrGob "unexpected EOF"))
            | Some (id, body) =>
                if signed 32 (id mod 2 ^ 32) =? tFileObject
                then decodeStruct (length body) (-1) body file
                else (file, Some (ErrGob "gob: type mismatch"))
            end
      end
  end.

End Stream.

End Gob.

(** ** The Uploads table *)

(** A row of the table created by [initDB]:
    [id BIGSERIAL PRIMARY KEY, hash CHAR(40) NOT NULL UNIQUE, body TEXT,
    files TEXT ARRAY, timestamp BIGINT NOT NULL]. *)
Record Row := mkRow {
  row_id : Z;
  row_hash : string;
  row_body : string;
  row_files : list string;
  row_timestamp : Z
}.

(** The table in insertion order and the last value of its id sequence. *)
Record DB := mkDB { Uploads : list Row; Uploads_id_seq : Z }.

(** The UploadModel represents a row in the database. *)
Record UploadModel := mkUploadModel {
  Id : Z;
  Hash : string;
  Body : string;
  FileNames : list string;
  FileHashes : list string;
  Timestamp : Z
}.

(** A Go call either returns or panics. *)
Inductive outcome (A : Type) :=
| Return (a : A)
| Panics (msg : string).
Arguments Return {A} a.
Arguments Panics {A} msg.

Definition hash_taken (d : DB) (hash : string) : bool :=
  existsb (fun r => String.eqb (row_hash r) hash) (Uploads d).

(** [db.Exec("INSERT INTO Uploads(hash, body, files, timestamp) VALUES
    ($1, $2, $3, $4)", ...)].  [fault] is an error the server or the
    connection raises on its own account; without one the statement
    draws the next id and fails with SQLSTATE 23505 (unique_violation)
    when the hash is taken. *)
Definition execInsert (fault : option dberror) (d : DB)
    (hash body : string) (files : list string) (timestamp : Z)
  : DB * option dberror :=
  match fault with
  | Some e => (d, Some e)
  | None =>
      let id := Uploads_id_seq d + 1 in
      if hash_taken d hash then (mkDB (Uploads d) id, Some (PqError "23505"))
      else (mkDB (Uploads d ++ [mkRow id hash body files timestamp]) id, None)
  end.

(** The order in which the server returns the rows of a SELECT that
    has no ORDER BY: a rearrangement of the table which the server
    picks anew for each query.  The pick is an explicit argument, as
    for the range over a map. *)
Definition RowOrder := list nat.

(** [db.QueryRow("SELECT * FROM Uploads WHERE hash LIKE $1 || '%'",
    hash)] followed by [row.Scan]: the first row of the result, which
    comes in the order [scan], or [sql.ErrNoRows]. *)
Definition queryRow (fault : option dberror) (scan : RowOrder) (d : DB) (hash : string)
  : Row + error :=
  match fault with
  | Some e => inr (ErrDB e)
  | None =>
      match find (fun r => has_prefix hash (row_hash r)) (shuffle scan (Uploads d)) with
      | Some r => inl r
      | None => inr ErrNoRows
      end
  end.

(** The runes ranged over are compared with the hex digits; a byte
    above [0x7F] belongs to a rune above [0x7F] (or to U+FFFD), which is
    none of them. *)
Definition isHexRune (r : Z) : bool :=
  (48 <=? r) && (r <=? 57) || (97 <=? r) && (r <=? 102) || (65 <=? r) && (r <=? 70).

Fixpoint isValidHex (s : string) : bool :=
  match s with
  | EmptyString => true
  | String r s' => if negb (isHexRune (code r)) then false else isValidHex s'
  end.

(** The loop of [GetUpload] over [files], from index [i] on: the parts
    of each entry are written at its index into [FileNames] and
    [FileHashes], which have the length of [files]; indexing [parts]
    past its end panics. *)
Fixpoint separate (i : nat) (files : list string) (FileNames FileHashes : list string)
  : option (list string * list string) :=
  match files with
  | [] => Some (FileNames, FileHashes)
  | file :: rest =>
      let parts := Split file "/" in
      match parts !! 0%nat with
      | None => None
      | Some name =>
          let FileNames := <[i := name]> FileNames in
          match parts !! 1%nat with
          | None => None
          | Some key => separate (S i) rest FileNames (<[i := key]> FileHashes)
          end
      end
  end.

(** GetUpload fetches a row from the database matching the hash, by
    checking if the row's hash string begins with the hash parameter
    string. *)
Definition GetUpload (fault : option dberror) (scan : RowOrder) (d : DB) (hash : string)
  : outcome (option UploadModel * option error) :=
  if (String.length hash <? 10)%nat || (40 <? String.length hash)%nat
     || negb (isValidHex hash)
  then Return (None, Some ErrHashInvalid)
  else
    match queryRow fault scan d hash with
    | inr err => Return (None, Some err)
    | inl row =>
        let files := row_files row in
        match separate 0 files (replicate (length files) EmptyString)
                (replicate (length files) EmptyString) with
        | None => Panics "index out of range"
        | Some (names, keys) =>
            Return (Some (mkUploadModel (row_id row) (row_hash row) (row_body row)
                            names keys (row_timestamp row)), None)
        end
    end.

(** SubmitUpload creates a row in the database containing the plaintext
    body parameter and a sequence of filename/hash pairs.  [now] is
    [time.Now().UTC().Unix()]. *)
Definition SubmitUpload (now : Z) (fault : option dberror) (d : DB)
    (body : string) (fileNameHashPairs : list string)
  : (string * option error) * DB :=
  let buffer := bytes_of_string body ++ bytes_of_string (Join fileNameHashPairs) in
  let hash := sha1hex buffer in
  match execInsert fault d hash body fileNameHashPairs now with
  | (d', Some err) =>
      match err with
      | PqError Code =>
          if String.eqb Code "23505" then ((hash, None), d')
          else ((EmptyString, Some (ErrDB err)), d')
      | _ => ((EmptyString, Some (ErrDB err)), d')
      end
  | (d', None) => ((hash, None), d')
  end.

(** ** The S3 bucket *)

(** The objects of the bucket [s3Bucket], by key. *)
Abbreviation Bucket := (gmap string (list byte)).

(** UploadObject uses an upload manager to upload data to an object in
    a bucket.  [put] is the error of [S3Manager.Upload], [wait] that of
    the wait for the object to exist; the latter is logged and dropped. *)
Definition UploadObject (put wait : option error) (b : Bucket)
    (key : string) (contents : list byte)
  : (string * option error) * Bucket :=
  match put with
  | Some err =>
      let err' :=
        match err with
        | ErrNoSuchBucket | ErrAWS true _ => ErrNoSuchBucket
        | _ => err
        end in
      ((EmptyString, Some err'), b)
  | None =>
      let outKey := match wait with Some _ => EmptyString | None => key end in
      ((outKey, None), <[key := contents]> b)
  end.

(** DownloadLargeObject uses a download manager to download an object
    from a bucket.  [get] is an error of the download other than a
    missing key. *)
Definition DownloadLargeObject (get : option error) (b : Bucket) (objectKey : string)
  : list byte * option error :=
  let failed err :=
    ([], Some (Errorf "failed to download large object %v: %v" [objectKey] err)) in
  match get with
  | Some err => failed err
  | None =>
      match b !! objectKey with
      | None => failed (ErrAWS false "NoSuchKey")
      | Some data => (data, None)
      end
  end.

(** ** Uploaded files *)

Module multipart.

(** [multipart.FileHeader]: the part's headers and its content. *)
Record FileHeader := mkFileHeader {
  Filename : string;
  Header : MIMEHeader;
  Size : Z;
  content : list byte
}.

(** [multipart.Form]. *)
Record Form := mkForm {
  Value : gmap string (list string);
  File : gmap string (list FileHeader)
}.

End multipart.

(** What the world answers while one file of a submission is handled:
    the clock, the order of the range over the header map, and the
    errors of opening and reading the part and of the upload. *)
Record FileEnv := mkFileEnv {
  now : Time;
  order : MapOrder;
  open_err : option error;
  read_err : option error;
  put_err : option error;
  wait_err : option error
}.

(** NewFileObject creates a FileObject by opening and reading the fields
    from a multipart FileHeader uploaded by a user. *)
Definition NewFileObject (e : FileEnv) (fileHeader : multipart.FileHeader)
    (modtime : Time) : FileObject + error :=
  match open_err e with
  | Some err => inr (Errorf "failed to open multipart FileHeader: %v" [] err)
  | None =>
      match read_err e with
      | Some err => inr (Errorf "failed to read multipart File contents: %v" [] err)
      | None =>
          inl (mkFileObject (multipart.Filename fileHeader)
                 (multipart.Header fileHeader) (multipart.Size fileHeader)
                 modtime (multipart.content fileHeader))
      end
  end.

(** ** The handlers *)

(** What a handler writes to its [gin.Context]. *)
Inductive response :=
| JSON_message (code : Z) (err : error)
    (* c.JSON(code, gin.H{"message": err.Error()}) *)
| JSON_uploaded (code : Z) (id redirect message : string)
| HTML (code : Z) (name : string)
| SetHeader (key value : string)
| ServeContent (name : string) (modtime : Time) (content : list byte).

Definition respondError (code : Z) (err : error) : list response :=
  [JSON_message code err].

(** [route404] answers with the 404 page, under [http.StatusOK]. *)
Definition route404 : list response := [HTML 200 "404.html"].

(** The state the handlers share: the bucket and the database. *)
Record World := mkWorld { s3 : Bucket; db : DB }.

(** What the world answers during one [POST /submit]. *)
Record SubmitEnv := mkSubmitEnv {
  file_env : nat -> FileEnv;
  insert_now : Z;
  insert_fault : option dberror
}.

Section Handlers.

Variable wireTypes : list byte.
Variable tFileObject : Z.
Variable baseurl : string.

(** The loop of the submit handler over [fileHeaders], from index [i]
    on: each pair "filename/hash" is written at its index into
    [fileNameHashPairs], which has the length of [fileHeaders]; the
    result is the slice after the loop, or the response of the
    iteration that returned early. *)
Fixpoint uploadFiles (env : SubmitEnv) (i : nat)
    (fileHeaders : list multipart.FileHeader) (fileNameHashPairs : list string)
    (b : Bucket)
  : (list string + list response) * Bucket :=
  match fileHeaders with
  | [] => (inl fileNameHashPairs, b)
  | fileHeader :: rest =>
      let e := file_env env i in
      match NewFileObject e fileHeader (now e) with
      | inr err =>
          (inr (respondError 500
                  (Errorf "failed to open file %q: %v"
                     [multipart.Filename fileHeader] err)), b)
      | inl fileObject =>
          (* Encode the FileObject into a gob; the error is dropped. *)
          let buffer := (Gob.Encode wireTypes tFileObject (order e) fileObject).1 in
          (* Hash the gob to use as the object key on S3. *)
          let hash := sha1hex buffer in
          match UploadObject (put_err e) (wait_err e) b hash buffer with
          | ((_, Some err), b') =>
              (inr (respondError 500 (Errorf "S3 object upload failed: %v" [] err)), b')
          | ((_, None), b') =>
              let pair := Sprintf_pair (TrimSpace (multipart.Filename fileHeader)) hash in
              uploadFiles env (S i) rest (<[i := pair]> fileNameHashPairs) b'
          end
      end
  end.

(** [r.POST("/submit", ...)].  [form] is the result of
    [c.MultipartForm()], nil when the request has no multipart body. *)
Definition handleSubmit (env : SubmitEnv) (w : World) (form : option multipart.Form)
  : outcome (list response * World) :=
  match form with
  | None => Panics "nil pointer dereference"
  | Some form =>
      match default [] (multipart.Value form !! "body"%string) !! 0%nat with
      | None => Panics "index out of range"
      | Some body =>
          let fileHeaders := default [] (multipart.File form !! "files"%string) in
          let fileNameHashPairs := replicate (length fileHeaders) EmptyString in
          match uploadFiles env 0 fileHeaders fileNameHashPairs (s3 w) with
          | (inr resp, b) => Return (resp, mkWorld b (db w))
          | (inl fileNameHashPairs, b) =>
              (* Store the upload in the database. *)
              match SubmitUpload (insert_now env) (insert_fault env) (db w)
                      body fileNameHashPairs with
              | ((_, Some err), d) => Return (respondError 409 err, mkWorld b d)
              | ((hash, None), d) =>
                  match slice_to hash 10 with
                  | None => Panics "slice bounds out of range"
                  | Some hash =>
                      Return ([JSON_uploaded 200 hash (baseurl +:+ "/" +:+ hash)
                                 "Successfully uploaded"], mkWorld b d)
                  end
              end
          end
      end
  end.

(** [r.GET("/download", ...)].  [get] is an error of the download
    other than a missing key. *)
Definition handleDownload (get : option error) (w : World) (hash : string)
  : list response :=
  let first :=
    if String.eqb hash "" then
      respondError 400
        (ErrorsNew (String (ascii_of_nat 34) "hash"
                      +:+ String (ascii_of_nat 34) " argument required"))
    else [] in
  match DownloadLargeObject get (s3 w) hash with
  | (_, Some _) => first ++ route404
  | (data, None) =>
      if (length data =? 0)%nat then first ++ route404
      else
        (* The error of Decode is dropped. *)
        let file := (Gob.Decode wireTypes tFileObject data zeroFileObject).1 in
        first ++
        [SetHeader "Content-Disposition" ("attachment; filename=" +:+ Filename file);
         ServeContent (Filename file) (Modtime file) (Contents file)]
  end.

End Handlers.

(** ** The upload page *)

Module Client.

(** A JavaScript string is a sequence of UTF-16 code units. *)
Definition jsstring := list Z.

(** The code units [String.prototype.trim] strips: WhiteSpace and
    LineTerminator. *)
Definition isWhiteSpace (u : Z) : bool :=
  (9 <=? u) && (u <=? 13) || (u =? 0x20) || (u =? 0xA0) || (u =? 0x1680)
  || (0x2000 <=? u) && (u <=? 0x200A) || (u =? 0x2028) || (u =? 0x2029)
  || (u =? 0x202F) || (u =? 0x205F) || (u =? 0x3000) || (u =? 0xFEFF).

Fixpoint trimStart (s : jsstring) : jsstring :=
  match s with
  | u :: s' => if isWhiteSpace u then trimStart s' else s
  | [] => []
  end.

Definition trim (s : jsstring) : jsstring :=
  rev (trimStart (rev (trimStart s))).

(** The conversion of a string to a USVString, which [FormData.append]
    applies to a string value: a surrogate that is not part of a pair
    is replaced by U+FFFD. *)
Definition isLeadSurrogate (u : Z) : bool := (0xD800 <=? u) && (u <=? 0xDBFF).
Definition isTrailSurrogate (u : Z) : bool := (0xDC00 <=? u) && (u <=? 0xDFFF).

Fixpoint toUSVString (s : jsstring) : jsstring :=
  match s with
  | [] => []
  | c :: s' =>
      if isLeadSurrogate c then
        match s' with
        | d :: s'' =>
            if isTrailSurrogate d then c :: d :: toUSVString s''
            else 0xFFFD :: toUSVString s'
        | [] => [0xFFFD]
        end
      else if isTrailSurrogate c then 0xFFFD :: toUSVString s'
      else c :: toUSVString s'
  end.

Section Submit.

(** The File blobs of the file pickers. *)
Variable File : Type.

Record FormData := mkFormData { files : list File; body : jsstring }.

(** The loop over the pickers: a picker without a file is skipped,
    otherwise its first file is appended under "files". *)
Fixpoint collect (pickers : list (list File)) : list File :=
  match pickers with
  | [] => []
  | fileInput_files :: rest =>
      match fileInput_files with
      | [] => collect rest
      | file :: _ => file :: collect rest
      end
  end.

(** [submit()]: the form data handed to [fetch("/submit", ...)], or
    [None] when the function returns before making the request.  The
    entry under "body" is the USVString of the trimmed text; the check
    is made on the trimmed text itself. *)
Definition submit (textArea_value : jsstring) (pickers : list (list File))
  : option FormData :=
  let files := collect pickers in
  let body := trim textArea_value in
  if (length body =? 0)%nat && (length files =? 0)%nat then None
  else Some (mkFormData files (toUSVString body)).

End Submit.

End Client.


(** ** The page of a submission *)

(** [strings.ToLower]: the scan of the bytes for one at or above
    [utf8.RuneSelf] and for an upper-case letter. *)
Fixpoint isASCII (s : string) : bool :=
  match s with
  | EmptyString => true
  | String c s' => if 0x80 <=? code c then false else isASCII s'
  end.

Definition isUpper (c : ascii) : bool := (65 <=? code c) && (code c <=? 90).

Fixpoint hasUpper (s : string) : bool :=
  match s with
  | EmptyString => false
  | String c s' => isUpper c || hasUpper s'
  end.

(** The loop of the ASCII path: [c += 'a' - 'A'] on the upper-case
    letters. *)
Fixpoint lowerASCII (s : string) : string :=
  match s with
  | EmptyString => EmptyString
  | String c s' =>
      String (if isUpper c then ascii_of_N (Z.to_N (code c + (97 - 65))) else c)
             (lowerASCII s')
  end.

Section Page.

(** [strings.Map(unicode.ToLower, s)], which [strings.ToLower] falls
    back to on a string with a byte at or above [utf8.RuneSelf]. *)
Variable unicodeToLower : string -> string.

Definition ToLower (s : string) : string :=
  if isASCII s then
    if negb (hasUpper s) then s else lowerASCII s
  else unicodeToLower s.

(** [r.GET("/:hash", ...)] on the path parameter [param]: what is
    written to the context and, when submission.html is rendered, what
    the template is handed: the title of its "Page" entry and its
    "Upload" entry. *)
Definition handleHash (fault : option dberror) (scan : RowOrder) (w : World)
    (param : string)
  : outcome (list response * option (string * option UploadModel)) :=
  let hash := ToLower param in
  if negb (isValidHex hash) then Return (route404, None)
  else
    match GetUpload fault scan (db w) hash with
    | Panics msg => Panics msg
    | Return (upload, Some err) =>
        match err with
        | ErrHashInvalid => Return (respondError 400 err, None)
        | _ => Return (route404, None)
        end
    | Return (upload, None) =>
        Return ([HTML 200 "submission.html"], Some (hash, upload))
    end.

End Page.
(** * Vocabulary of the statements *)

(** The lower-case hex digits. *)
Definition isLowerHex (c : ascii) : bool :=
  (48 <=? code c) && (code c <=? 57) || (97 <=? code c) && (code c <=? 102).

Fixpoint all_chars (p : ascii -> bool) (s : string) : bool :=
  match s with
  | EmptyString => true
  | String c s' => p c && all_chars p s'
  end.

(** [c] occurs in [s]. *)
Fixpoint has_char (c : ascii) (s : string) : bool :=
  match s with
  | EmptyString => false
  | String x s' => Ascii.eqb x c || has_char c s'
  end.

(** The pair strings as the submit handler builds them, for a list of
    file names and the blobs whose digests are the keys. *)
Definition storedPairs (fs : list (string * list byte)) : list string :=
  map (fun f => Sprintf_pair (TrimSpace f.1) (sha1hex f.2)) fs.

(** The hash argument passes the validation of [GetUpload]. *)
Definition validPrefix (hash : string) : Prop :=
  (10 <= String.length hash <= 40)%nat /\ isValidHex hash = true.

(** Every stored pair holds a slash, as the pairs built by the submit
    handler do. *)
Definition files_wf (d : DB) : Prop :=
  Forall (fun r => Forall (fun f => has_char "/" f = true) (row_files r)) (Uploads d).

(** The form of a submission with a text body and attachments. *)
Definition submission (body : string) (attachments : list multipart.FileHeader)
  : option multipart.Form :=
  Some (multipart.mkForm {[ "body"%string := [body] ]}
                         {[ "files"%string := attachments ]}).

(** [Submit(body, attachments)]: the submit handler on that form. *)
Definition Submit (wireTypes : list byte) (tFileObject : Z) (baseurl : string)
    (env : SubmitEnv) (w : World) (body : string)
    (attachments : list multipart.FileHeader)
  : outcome (list response * World) :=
  handleSubmit wireTypes tFileObject baseurl env w (submission body attachments).

(** Nothing fails while one file is handled. *)
Definition no_file_errors (e : FileEnv) : Prop :=
  open_err e = None /\ read_err e = None /\ put_err e = None.

(** The Attachment built from an upload when the clock of [e] is read. *)
Definition attachment (e : FileEnv) (fh : multipart.FileHeader) : FileObject :=
  mkFileObject (multipart.Filename fh) (multipart.Header fh) (multipart.Size fh)
    (now e) (multipart.content fh).

(** The EncodedAttachmentBlob and its AttachmentKey, the lowercase hex
    digest of the blob. *)
Definition EncodedAttachmentBlob (wireTypes : list byte) (tFileObject : Z)
    (e : FileEnv) (fh : multipart.FileHeader) : list byte :=
  (Gob.Encode wireTypes tFileObject (order e) (attachment e fh)).1.

Definition AttachmentKey (wireTypes : list byte) (tFileObject : Z)
    (e : FileEnv) (fh : multipart.FileHeader) : string :=
  sha1hex (EncodedAttachmentBlob wireTypes tFileObject e fh).

(** The pair strings "filename/AttachmentKey" of a submission, in
    submission order, the filename trimmed of surrounding white space. *)
Definition pairStrings (wireTypes : list byte) (tFileObject : Z)
    (env : SubmitEnv) (attachments : list multipart.FileHeader) : list string :=
  imap (fun i fh =>
          TrimSpace (multipart.Filename fh) +:+ "/"
            +:+ AttachmentKey wireTypes tFileObject (file_env env i) fh)%string
       attachments.

(** The submission hash: the digest of the body followed by all pair
    strings, with nothing between them. *)
Definition submissionHash (wireTypes : list byte) (tFileObject : Z)
    (env : SubmitEnv) (body : string) (attachments : list multipart.FileHeader)
  : string :=
  sha1hex (bytes_of_string
             (body +:+ String.concat "" (pairStrings wireTypes tFileObject env attachments))).

(** The short hash: the first ten characters. *)
Definition shortHash (hash : string) : string := String.substring 0 10 hash.

(** The answer of a successful submission. *)
Definition uploaded (baseurl id : string) : list response :=
  [JSON_uploaded 200 id (baseurl +:+ "/" +:+ id) "Successfully uploaded"].

(** The ranges of the fixed-width integers. *)
Definition int64 (z : Z) : Prop := - 2 ^ 63 <= z < 2 ^ 63.
Definition int32 (z : Z) : Prop := - 2 ^ 31 <= z < 2 ^ 31.

(** The bound of [decodeSlice] on the number of elements: 16 bytes each,
    [tooBig] in all. *)
Definition sliceBound : Z := 2 ^ 29.

(** A valid Attachment: its integers fit their Go types and no header
    value has more entries than a decoder allocates for. *)
Definition FileObject_valid (v : FileObject) : Prop :=
  int64 (Size v) /\ int64 (sec (Modtime v)) /\ int32 (nsec (Modtime v))
  /\ map_Forall (fun _ vs => Z.of_nat (length vs) <= sliceBound) (Header v).

(** The entries of a range, stored one after the other. *)
Definition store_all (m : MIMEHeader) (kvs : list (string * list string)) : MIMEHeader :=
  fold_left (fun m kv => <[kv.1 := kv.2]> m) kvs m.

Definition encEntry (kv : string * list string) : list byte :=
  Gob.encString kv.1 ++ Gob.encStrings kv.2.

(** Field [i] and those after it decode, one after the other, taking
    [v] to [v']. *)
Fixpoint fields_ok (i : Z) (fs : list (option (list byte))) (v v' : FileObject) : Prop :=
  match fs with
  | [] => v' = v
  | None :: r => fields_ok (i + 1) r v v'
  | Some b :: r =>
      exists v1,
        (forall rest, Gob.decField i (b ++ rest) v = (v1, Some rest))
        /\ fields_ok (i + 1) r v1 v'
  end.

(** The entries the loop of [GetUpload] writes, as lists: the first and
    second parts of each file entry. *)
Fixpoint separate_list (files : list string) : option (list string * list string) :=
  match files with
  | [] => Some ([], [])
  | file :: rest =>
      let parts := Split file "/" in
      name ← parts !! 0%nat;
      key ← parts !! 1%nat;
      '(names, keys) ← separate_list rest;
      Some (name :: names, key :: keys)
  end.

(** The pairs the loop of the submit handler writes, as a list, from
    index [i] on. *)
Fixpoint uploadFiles_list (wireTypes : list byte) (tFileObject : Z)
    (env : SubmitEnv) (i : nat) (fileHeaders : list multipart.FileHeader) (b : Bucket)
  : (list string + list response) * Bucket :=
  match fileHeaders with
  | [] => (inl [], b)
  | fileHeader :: rest =>
      let e := file_env env i in
      match NewFileObject e fileHeader (now e) with
      | inr err =>
          (inr (respondError 500
                  (Errorf "failed to open file %q: %v"
                     [multipart.Filename fileHeader] err)), b)
      | inl fileObject =>
          let buffer := (Gob.Encode wireTypes tFileObject (order e) fileObject).1 in
          let hash := sha1hex buffer in
          match UploadObject (put_err e) (wait_err e) b hash buffer with
          | ((_, Some err), b') =>
              (inr (respondError 500 (Errorf "S3 object upload failed: %v" [] err)), b')
          | ((_, None), b') =>
              let pair := Sprintf_pair (TrimSpace (multipart.Filename fileHeader)) hash in
              match uploadFiles_list wireTypes tFileObject env (S i) rest b' with
              | (inl pairs, b'') => (inl (pair :: pairs), b'')
              | (inr resp, b'') => (inr resp, b'')
              end
          end
      end
  end.

(** ** Invariants of the table *)

(** The digest [SubmitUpload] takes of a body and its pair strings. *)
Definition digest (body : string) (files : list string) : string :=
  sha1hex (bytes_of_string body ++ bytes_of_string (Join files)).

(** No hash is stored twice; every stored hash is the digest of the
    body and files stored with it; the ids are distinct and none is
    above the last value of the sequence; every files entry holds a
    slash. *)
Definition hashes_unique (d : DB) : Prop := NoDup (map row_hash (Uploads d)).

Definition hashes_digest (d : DB) : Prop :=
  Forall (fun r => row_hash r = digest (row_body r) (row_files r)) (Uploads d).

Definition ids_fresh (d : DB) : Prop :=
  NoDup (map row_id (Uploads d))
  /\ Forall (fun r => row_id r <= Uploads_id_seq d) (Uploads d).

Definition table_ok (d : DB) : Prop :=
  hashes_unique d /\ hashes_digest d /\ ids_fresh d /\ files_wf d.

(** The UploadModel [GetUpload] builds from a row whose files split
    into [names] and [keys]. *)
Definition modelOf (r : Row) (names keys : list string) : UploadModel :=
  mkUploadModel (row_id r) (row_hash r) (row_body r) names keys (row_timestamp r).

(** The bucket after the uploads of a submission in which nothing
    fails, from index [i] on. *)
Fixpoint bucketAfter (wireTypes : list byte) (tFileObject : Z)
    (env : SubmitEnv) (i : nat) (fileHeaders : list multipart.FileHeader) (b : Bucket)
  : Bucket :=
  match fileHeaders with
  | [] => b
  | fh :: rest =>
      bucketAfter wireTypes tFileObject env (S i) rest
        (<[AttachmentKey wireTypes tFileObject (file_env env i) fh
           := EncodedAttachmentBlob wireTypes tFileObject (file_env env i) fh]> b)
  end.

(** Two worlds that differ at most in the errors of the waits for the
    uploaded objects. *)
Definition same_but_wait (e1 e2 : FileEnv) : Prop :=
  now e1 = now e2 /\ order e1 = order e2 /\ open_err e1 = open_err e2
  /\ read_err e1 = read_err e2 /\ put_err e1 = put_err e2.

(** The error of a download request without a hash. *)
Definition hashRequired : error :=
  ErrorsNew (String (ascii_of_nat 34) "hash"
               +:+ String (ascii_of_nat 34) " argument required").

(** Something fails while one file is handled. *)
Definition file_fails (e : FileEnv) : Prop :=
  open_err e <> None \/ read_err e <> None \/ put_err e <> None.

(** A string of UTF-16 code units in which every surrogate is part of a
    pair. *)
Fixpoint wellFormed (s : Client.jsstring) : bool :=
  match s with
  | [] => true
  | c :: s' =>
      if Client.isLeadSurrogate c then
        match s' with
        | d :: s'' => Client.isTrailSurrogate d && wellFormed s''
        | [] => false
        end
      else negb (Client.isTrailSurrogate c) && wellFormed s'
  end.

(** ** Sample values for the concrete evaluations *)

(** A sample for [wireTypes]: the message that defines a struct type
    named FileObject with its five fields, laid out as the gob
    documentation lays out a type definition.  The theorems hold for
    every value of [wireTypes]; the evaluations below need one. *)
Definition sampleWireTypes : list byte :=
  let field name id :=
    Gob.encodeUint 1 ++ Gob.encString name ++ Gob.encodeUint 1
      ++ Gob.encodeInt id ++ Gob.encodeUint 0 in
  let message :=
    Gob.encodeInt (-65) ++ Gob.encodeUint 3
      ++ Gob.encodeUint 1 ++ field "FileObject"%string 65
      ++ Gob.encodeUint 1 ++ Gob.encodeUint 5
      ++ field "Filename"%string 6 ++ field "Header"%string 67
      ++ field "Size"%string 2 ++ field "Modtime"%string 68
      ++ field "Contents"%string 5
      ++ Gob.encodeUint 0 ++ Gob.encodeUint 0 in
  Gob.encodeUint (Z.of_nat (length message)) ++ message.

Definition sampleBaseurl : string := "copycat.example".

(** An upload of a file a.txt holding "abc", with the two headers a
    browser sends for a file part. *)
Definition sampleFile : multipart.FileHeader :=
  multipart.mkFileHeader "a.txt"
    {[ "Content-Disposition"%string := ["form-data; name=files; filename=a.txt"%string];
       "Content-Type"%string := ["text/plain"%string] ]}
    3 (bytes_of_string "abc").

(** Two readings of the clock, one second apart, in the zone UTC+1. *)
Definition sampleTime1 : Time := mkTime 63900000000 123456789 (Some 60).
Definition sampleTime2 : Time := mkTime 63900000001 123456789 (Some 60).

(** A world where nothing fails: the clock reads [t], the header map is
    ranged over in the order [o]. *)
Definition calmEnv (t : Time) (o : MapOrder) : SubmitEnv :=
  mkSubmitEnv (fun _ => mkFileEnv t o None None None None) 1700000000 None.

Definition emptyWorld : World := mkWorld ∅ (mkDB [] 0).

(** What a handler returned, if it did. *)
Definition returned {A} (o : outcome A) : option A :=
  match o with
  | Return a => Some a
  | Panics _ => None
  end.

(** The same upload with one header only, and two more files. *)
Definition sampleFileOneHeader : multipart.FileHeader :=
  multipart.mkFileHeader "a.txt" {[ "Content-Type"%string := ["text/plain"%string] ]}
    3 (bytes_of_string "abc").

Definition sampleFileB : multipart.FileHeader :=
  multipart.mkFileHeader "b.txt" {[ "Content-Type"%string := ["text/plain"%string] ]}
    2 (bytes_of_string "de").

Definition sampleFileC : multipart.FileHeader :=
  multipart.mkFileHeader "dir/c.txt" {[ "Content-Type"%string := ["text/plain"%string] ]}
    1 (bytes_of_string "f").

(** A world where the upload of the second file (index 1) fails and
    nothing else does. *)
Definition secondUploadFails : SubmitEnv :=
  mkSubmitEnv
    (fun i => mkFileEnv sampleTime1 [] None None
                (if (i =? 1)%nat then Some (ErrAWS false "RequestTimeout") else None)
                None)
    1700000000 None.

(** A table with one record, for the body "hello world" and no file. *)
Definition sampleDB : DB :=
  mkDB [mkRow 1 "2aae6c35c94fcfb415dbe95f408b9ce91ee846ed" "hello world" [] 1600000000] 1.

(** A table with one record that has two files, one of them with a slash
    in its name. *)
Definition sampleFiles : list (string * list byte) :=
  [("  a.txt "%string, bytes_of_string "abc"); ("dir/c.txt"%string, bytes_of_string "f")].

Definition sampleDB2 : DB :=
  mkDB [mkRow 1 "60daa98eb08f5c97f7f0da9253dd1347992ae287" "hello world"
          (storedPairs sampleFiles) 1600000000] 1.

(** A world where every wait for an uploaded object fails and nothing
    else does. *)
Definition waitsFail : SubmitEnv :=
  mkSubmitEnv
    (fun _ => mkFileEnv sampleTime1 [] None None None
                (Some (ErrAWS false "ResourceNotReady")))
    1700000000 None.

(** A table with two records whose hashes begin with the same ten
    characters. *)
Definition sampleDBtie : DB :=
  mkDB [mkRow 1 "2aae6c35c94fcfb415dbe95f408b9ce91ee846ed" "hello world" [] 1600000000;
        mkRow 2 "2aae6c35c9000000000000000000000000000000" "other" [] 1600000001] 2.
(** * Properties *)

(** ** Digests and their hex form *)

Lemma be_bytes_length n z : length (be_bytes n z) = n.
Proof. induction n as [|n IH]; simpl; [reflexivity | now rewrite IH]. Qed.

Lemma Sum_length data : length (SHA1.Sum data) = 20%nat.
Proof.
  unfold SHA1.Sum. cbv zeta.
  repeat rewrite length_app. repeat rewrite be_bytes_length. reflexivity.
Qed.

Lemma hex_length bs : String.length (hex bs) = (2 * length bs)%nat.
Proof. induction bs as [|b bs IH]; simpl; [reflexivity | rewrite IH; lia]. Qed.

Lemma sha1hex_length data : String.length (sha1hex data) = 40%nat.
Proof. unfold sha1hex. now rewrite hex_length, Sum_length. Qed.

Lemma Z_of_byte_range b : 0 <= Z_of_byte b < 256.
Proof.
  unfold Z_of_byte. pose proof (Byte.to_N_bounded b). lia.
Qed.

Lemma hexdigit_lower n : 0 <= n < 16 -> isLowerHex (hexdigit n) = true.
Proof.
  intros Hn. unfold isLowerHex, hexdigit, code.
  destruct (n <? 10) eqn:E.
  - apply Z.ltb_lt in E. rewrite N_ascii_embedding by lia. 
    rewrite Z2N.id by lia. apply orb_true_iff. left. apply andb_true_iff. split; lia.
  - apply Z.ltb_ge in E. rewrite N_ascii_embedding by lia.
    rewrite Z2N.id by lia. apply orb_true_iff. right. apply andb_true_iff. split; lia.
Qed.

Lemma hex_lower bs : all_chars isLowerHex (hex bs) = true.
Proof.
  induction bs as [|b bs IH]; simpl; [reflexivity|].
  pose proof (Z_of_byte_range b) as Hb.
  rewrite !hexdigit_lower, IH; [reflexivity | |].
  - apply Z.mod_pos_bound. lia.
  - split; [apply Z.div_pos; lia | apply Z.div_lt_upper_bound; lia].
Qed.

Lemma all_chars_impl (p q : ascii -> bool) s :
  (forall c, p c = true -> q c = true) ->
  all_chars p s = true -> all_chars q s = true.
Proof.
  intros Hpq. induction s as [|c s IH]; simpl; [reflexivity|].
  intros H. apply andb_true_iff in H as [Hc Hs].
  now rewrite (Hpq _ Hc), IH.
Qed.

Lemma isValidHex_all s : isValidHex s = all_chars (fun c => isHexRune (code c)) s.
Proof.
  induction s as [|c s IH]; simpl; [reflexivity|].
  destruct (isHexRune (code c)); simpl; [exact IH | reflexivity].
Qed.

Lemma sha1hex_lower data : all_chars isLowerHex (sha1hex data) = true.
Proof. apply hex_lower. Qed.

Lemma sha1hex_valid data : isValidHex (sha1hex data) = true.
Proof.
  rewrite isValidHex_all. apply all_chars_impl with (p := isLowerHex).
  - intros c Hc. unfold isLowerHex in Hc. unfold isHexRune.
    apply orb_true_iff in Hc as [Hc|Hc]; rewrite Hc; [reflexivity|].
    now rewrite orb_true_r.
  - apply sha1hex_lower.
Qed.

(** ** Splitting the stored pairs *)

Lemma Split_nonempty s sep : exists p ps, Split s sep = p :: ps.
Proof.
  induction s as [|c s (p & ps & IH)]; simpl; [eauto|].
  destruct (Ascii.eqb c sep); [eauto|]. rewrite IH. eauto.
Qed.

Lemma Split_absent s sep : has_char sep s = false -> Split s sep = [s].
Proof.
  induction s as [|c s IH]; simpl; [reflexivity|].
  intros H. apply orb_false_iff in H as [Hc Hs].
  rewrite Hc, (IH Hs). reflexivity.
Qed.

Lemma Split_app a b sep :
  has_char sep a = false ->
  Split (a +:+ String sep b) sep = a :: Split b sep.
Proof.
  induction a as [|c a IH]; simpl.
  - intros _. now rewrite Ascii.eqb_refl.
  - intros H. apply orb_false_iff in H as [Hc Ha].
    rewrite Hc, (IH Ha). reflexivity.
Qed.

(** The first part never holds the separator. *)
Lemma Split_head_absent s sep p ps :
  Split s sep = p :: ps -> has_char sep p = false.
Proof.
  revert p ps. induction s as [|c s IH]; simpl; intros p ps H.
  - now inversion H.
  - destruct (Ascii.eqb c sep) eqn:Hc.
    + now inversion H.
    + destruct (Split s sep) as [|q qs] eqn:Hs.
      * inversion H; subst. simpl. now rewrite Hc.
      * inversion H; subst. simpl. rewrite Hc. simpl. eapply IH. reflexivity.
Qed.

(** A string that holds the separator splits into two parts or more. *)
Lemma Split_present s sep :
  has_char sep s = true -> exists a b rest, Split s sep = a :: b :: rest.
Proof.
  induction s as [|c s IH]; simpl; [discriminate|].
  intros H. destruct (Ascii.eqb c sep) eqn:Hc.
  - destruct (Split_nonempty s sep) as (p & ps & ->). eauto.
  - simpl in H. destruct (IH H) as (a & b & rest & ->). eauto.
Qed.

Lemma has_char_app c a b :
  has_char c (a +:+ b) = has_char c a || has_char c b.
Proof.
  induction a as [|x a IH]; simpl; [reflexivity|].
  now rewrite IH, orb_assoc.
Qed.

Lemma lower_hex_no_slash s :
  all_chars isLowerHex s = true -> has_char "/" s = false.
Proof.
  induction s as [|c s IH]; simpl; [reflexivity|].
  intros H. apply andb_true_iff in H as [Hc Hs]. rewrite (IH Hs), orb_false_r.
  destruct (Ascii.eqb c "/") eqn:E; [|reflexivity].
  apply Ascii.eqb_eq in E. subst c. discriminate Hc.
Qed.

Lemma sha1hex_no_slash data : has_char "/" (sha1hex data) = false.
Proof. apply lower_hex_no_slash, sha1hex_lower. Qed.

(** The pair string of the submit handler splits back into its two
    halves when the name holds no slash, and into a shorter first part
    otherwise. *)
Lemma Split_pair name key :
  has_char "/" name = false -> has_char "/" key = false ->
  Split (Sprintf_pair name key) "/" = [name; key].
Proof.
  intros Hn Hk. unfold Sprintf_pair.
  change ("/" +:+ key)%string with (String "/" key).
  now rewrite (Split_app _ _ _ Hn), (Split_absent _ _ Hk).
Qed.

Lemma Sprintf_pair_has_slash name key :
  has_char "/" (Sprintf_pair name key) = true.
Proof.
  unfold Sprintf_pair. rewrite has_char_app. simpl. apply orb_true_r.
Qed.

Lemma Split_pair_head name key p ps :
  has_char "/" name = true ->
  Split (Sprintf_pair name key) "/" = p :: ps -> p <> name.
Proof.
  intros Hn Hs ->. apply Split_head_absent in Hs. congruence.
Qed.

(** Writing at the next index extends what was written so far. *)
Lemma take_S_insert {A} (l : list A) (i : nat) (x : A) :
  (i < length l)%nat -> take (S i) (<[i := x]> l) = take i l ++ [x].
Proof.
  intros Hi. rewrite (take_S_r _ _ x) by (apply list_lookup_insert_eq; exact Hi).
  now rewrite take_insert_ge by lia.
Qed.

(** The loop of [GetUpload] fills its two slices with the parts of the
    entries, in order. *)
Lemma separate_spec files :
  forall i names hashes,
    length names = (i + length files)%nat ->
    length hashes = (i + length files)%nat ->
    separate i files names hashes
    = match separate_list files with
      | Some (ns, ks) => Some (take i names ++ ns, take i hashes ++ ks)
      | None => None
      end.
Proof.
  induction files as [|file files IH]; intros i names hashes Hn Hh.
  - simpl in *. now rewrite !take_ge, !app_nil_r by lia.
  - cbn [separate separate_list]. simpl in Hn, Hh.
    destruct (Split file "/" !! 0%nat) as [name|]; [|reflexivity].
    destruct (Split file "/" !! 1%nat) as [key|]; [|reflexivity].
    cbn [mbind option_bind].
    rewrite IH by (rewrite length_insert; lia).
    destruct (separate_list files) as [[ns ks]|]; [|reflexivity].
    cbn [mbind option_bind mret option_ret].
    rewrite !take_S_insert by lia. now rewrite <- !app_assoc.
Qed.

Lemma separate_replicate files :
  separate 0 files (replicate (length files) EmptyString)
    (replicate (length files) EmptyString)
  = separate_list files.
Proof.
  rewrite separate_spec by (rewrite length_replicate; reflexivity).
  destruct (separate_list files) as [[ns ks]|]; reflexivity.
Qed.

Lemma separate_storedPairs fs :
  exists names keys,
    separate_list (storedPairs fs) = Some (names, keys) /\
    length names = length fs /\ length keys = length fs /\
    forall (i : nat) fn blob, fs !! i = Some (fn, blob) ->
      (names !! i = Some (TrimSpace fn) /\ keys !! i = Some (sha1hex blob))
      <-> has_char "/" (TrimSpace fn) = false.
Proof.
  induction fs as [|[fn0 blob0] fs (names & keys & Hsep & Hln & Hlk & IH)].
  - exists [], []. repeat split; try reflexivity; intros; discriminate.
  - simpl. rewrite Hsep.
    destruct (has_char "/" (TrimSpace fn0)) eqn:Hslash.
    + destruct (Split_present _ "/" (Sprintf_pair_has_slash (TrimSpace fn0) (sha1hex blob0)))
        as (a & b & rest & Hs).
      rewrite Hs. simpl. exists (a :: names), (b :: keys).
      split; [reflexivity|]. split; [simpl; congruence|]. split; [simpl; congruence|].
      intros [|i] fn blob Hi; simpl in *.
      * inversion Hi; subst. split; [|congruence].
        intros [Ha _]. inversion Ha; subst.
        now apply (Split_pair_head _ _ _ _ Hslash) in Hs.
      * apply IH, Hi.
    + rewrite (Split_pair _ _ Hslash (sha1hex_no_slash blob0)). simpl.
      exists (TrimSpace fn0 :: names), (sha1hex blob0 :: keys).
      split; [reflexivity|]. split; [simpl; congruence|]. split; [simpl; congruence|].
      intros [|i] fn blob Hi; simpl in *.
      * inversion Hi; subst. split; [intros _; exact Hslash | intros _; split; reflexivity].
      * apply IH, Hi.
Qed.

Lemma GetUpload_valid fault scan d hash :
  validPrefix hash ->
  GetUpload fault scan d hash =
    match queryRow fault scan d hash with
    | inr err => Return (None, Some err)
    | inl row =>
        match separate_list (row_files row) with
        | None => Panics "index out of range"
        | Some (names, keys) =>
            Return (Some (mkUploadModel (row_id row) (row_hash row) (row_body row)
                            names keys (row_timestamp row)), None)
        end
    end.
Proof.
  intros [[Hlo Hhi] Hhex]. unfold GetUpload.
  apply Nat.ltb_ge in Hlo. apply Nat.ltb_ge in Hhi.
  rewrite Hlo, Hhi, Hhex. cbn [orb negb].
  destruct (queryRow fault scan d hash) as [row|err]; [|reflexivity].
  cbv zeta. now rewrite separate_replicate.
Qed.

(** C10: GetUpload splits each stored pair on the slash and takes the
    first two segments.  For a row whose pairs were built as
    "trimmed filename/key" with keys that are SHA-1 hex digests, the call
    returns, and at every index the returned FileNames and FileHashes
    entries are the trimmed filename and the key exactly when the
    trimmed filename holds no slash. *)
Theorem C10_GetUpload_splits_pairs (scan : RowOrder) (d : DB) (hash : string)
    (row : Row) (fs : list (string * list byte)) :
  validPrefix hash ->
  queryRow None scan d hash = inl row ->
  row_files row = storedPairs fs ->
  exists upload,
    GetUpload None scan d hash = Return (Some upload, None) /\
    forall (i : nat) fn blob, fs !! i = Some (fn, blob) ->
      (FileNames upload !! i = Some (TrimSpace fn)
       /\ FileHashes upload !! i = Some (sha1hex blob))
      <-> has_char "/" (TrimSpace fn) = false.
Proof.
  intros Hvalid Hrow Hfiles.
  destruct (separate_storedPairs fs) as (names & keys & Hsep & _ & _ & Hiff).
  rewrite (GetUpload_valid _ _ _ _ Hvalid), Hrow, Hfiles, Hsep.
  eexists. split; [reflexivity|]. exact Hiff.
Qed.

(** ** The Uploads table *)

Lemma separate_wf files :
  Forall (fun f => has_char "/" f = true) files ->
  exists names keys, separate_list files = Some (names, keys).
Proof.
  induction 1 as [|f files Hf _ (names & keys & IH)]; simpl; [eauto|].
  destruct (Split_present _ _ Hf) as (a & b & rest & ->). simpl.
  rewrite IH. simpl. eauto.
Qed.

Lemma find_none_Forall {A} (p : A -> bool) l :
  Forall (fun x => p x = false) l -> find p l = None.
Proof.
  induction 1 as [|x l Hx _ IH]; simpl; [reflexivity | now rewrite Hx].
Qed.

Lemma find_some_Exists {A} (p : A -> bool) l :
  Exists (fun x => p x = true) l ->
  exists x, find p l = Some x /\ In x l /\ p x = true.
Proof.
  induction 1 as [x l Hx | x l _ (y & Hy & Hin & Hp)]; simpl.
  - rewrite Hx. exists x. auto.
  - destruct (p x) eqn:E; [exists x; auto | exists y; auto].
Qed.

(** The rows of a query come in some order, but they are the rows of
    the table. *)
Lemma insert_at_In {A} i (x y : A) l : In y (insert_at i x l) <-> y = x \/ In y l.
Proof.
  revert i. induction l as [|z l IH]; intros [|i]; simpl; try (split; intuition congruence).
  rewrite IH. split; intuition congruence.
Qed.

Lemma shuffle_In {A} o (y : A) l : In y (shuffle o l) <-> In y l.
Proof.
  revert o. induction l as [|x l IH]; intros o; simpl; [reflexivity|].
  rewrite insert_at_In, IH. split; intuition congruence.
Qed.

Lemma shuffle_Forall {A} (P : A -> Prop) o l : Forall P l -> Forall P (shuffle o l).
Proof.
  rewrite !List.Forall_forall. intros H x Hx. apply H. now apply shuffle_In in Hx.
Qed.

Lemma shuffle_Exists {A} (P : A -> Prop) o l : Exists P l -> Exists P (shuffle o l).
Proof.
  rewrite !List.Exists_exists. intros (x & Hx & HP). exists x.
  split; [now apply shuffle_In|exact HP].
Qed.

(** [find] returns the first element that passes the test. *)
Lemma find_first {A} (p : A -> bool) l x :
  find p l = Some x ->
  exists before after,
    l = before ++ x :: after /\ Forall (fun y => p y = false) before /\ p x = true.
Proof.
  induction l as [|a l IH]; simpl; [discriminate|].
  destruct (p a) eqn:Ha.
  - intros [= ->]. exists [], l. auto.
  - intros H. destruct (IH H) as (before & after & -> & Hb & Hx).
    exists (a :: before), after. split; [reflexivity|]. split; [|exact Hx].
    now constructor.
Qed.

(** C6: GetUpload answers ErrHashInvalid exactly when the argument is
    shorter than 10, longer than 40 or holds a character that is no hex
    digit.  For an argument that passes, with the database answering,
    it answers sql.ErrNoRows when no stored hash starts with it, and
    otherwise returns the record of a stored row whose hash starts with
    it: the first such row in the order the query returns the rows, with
    the row's id, hash, body and timestamp and its files split into
    names and keys. *)
Theorem C6_GetUpload_prefix_lookup (fault : option dberror) (scan : RowOrder)
    (d : DB) (hash : string) :
  (GetUpload fault scan d hash = Return (None, Some ErrHashInvalid)
   <-> ((String.length hash < 10)%nat \/ (40 < String.length hash)%nat
        \/ isValidHex hash = false))
  /\ (validPrefix hash ->
      Forall (fun r => has_prefix hash (row_hash r) = false) (Uploads d) ->
      GetUpload None scan d hash = Return (None, Some ErrNoRows))
  /\ (validPrefix hash -> files_wf d ->
      Exists (fun r => has_prefix hash (row_hash r) = true) (Uploads d) ->
      exists upload row,
        GetUpload None scan d hash = Return (Some upload, None)
        /\ has_prefix hash (Hash upload) = true
        /\ In row (Uploads d)
        /\ (exists before after,
              shuffle scan (Uploads d) = before ++ row :: after
              /\ Forall (fun r => has_prefix hash (row_hash r) = false) before)
        /\ Id upload = row_id row /\ Hash upload = row_hash row
        /\ Body upload = row_body row /\ Timestamp upload = row_timestamp row
        /\ separate_list (row_files row) = Some (FileNames upload, FileHashes upload)).
Proof.
  split; [|split].
  - unfold GetUpload.
    destruct (String.length hash <? 10)%nat eqn:Hlo; simpl.
    { apply Nat.ltb_lt in Hlo. split; auto. }
    destruct (40 <? String.length hash)%nat eqn:Hhi; simpl.
    { apply Nat.ltb_lt in Hhi. split; auto. }
    destruct (isValidHex hash) eqn:Hhex; simpl.
    2:{ split; auto. }
    apply Nat.ltb_ge in Hlo. apply Nat.ltb_ge in Hhi.
    split.
    + destruct (queryRow fault scan d hash) as [row|err] eqn:Hq.
      * cbv zeta. destruct (separate _ _ _ _) as [[names keys]|]; discriminate.
      * intros H. exfalso. inversion H as [Herr]. subst err.
        unfold queryRow in Hq. destruct fault; [discriminate|].
        destruct (find _ _); discriminate.
    + intros [H|[H|H]]; [lia | lia | discriminate].
  - intros Hvalid Hnone. rewrite (GetUpload_valid _ _ _ _ Hvalid).
    unfold queryRow.
    now rewrite (find_none_Forall _ _ (shuffle_Forall _ scan _ Hnone)).
  - intros Hvalid Hwf Hsome. rewrite (GetUpload_valid _ _ _ _ Hvalid).
    destruct (find_some_Exists _ _ (shuffle_Exists _ scan _ Hsome))
      as (row & Hfind & Hin & Hpre).
    apply shuffle_In in Hin.
    unfold queryRow. rewrite Hfind.
    unfold files_wf in Hwf. rewrite List.Forall_forall in Hwf.
    destruct (separate_wf _ (Hwf row Hin)) as (names & keys & Hsep). rewrite Hsep.
    destruct (find_first _ _ _ Hfind) as (before & after & Hsplit & Hbefore & _).
    eexists _, row. split; [reflexivity|]. cbn [Id Hash Body Timestamp FileNames FileHashes].
    split; [exact Hpre|]. split; [exact Hin|].
    split; [exists before, after; split; assumption|].
    repeat split. exact Hsep.
Qed.

Lemma hash_taken_In d hash :
  hash_taken d hash = true <-> exists r, In r (Uploads d) /\ row_hash r = hash.
Proof.
  unfold hash_taken. rewrite existsb_exists.
  split; intros (r & Hin & Hr); exists r; split; auto.
  - now apply String.eqb_eq in Hr.
  - now apply String.eqb_eq.
Qed.

(** C5: when the hash of an insert is already stored, SubmitUpload does
    not return the unique violation: it returns the hash, which is that
    of the stored row, with a nil error, and the table keeps its rows.
    Every other error of the insert is returned as an error, with an
    empty hash and the table untouched. *)
Theorem C5_unique_violation_absorbed (now : Z) (d : DB) (body : string)
    (fileNameHashPairs : list string) :
  let hash := sha1hex (bytes_of_string body
                         ++ bytes_of_string (Join fileNameHashPairs)) in
  (hash_taken d hash = true ->
     (SubmitUpload now None d body fileNameHashPairs).1 = (hash, None)
     /\ Uploads (SubmitUpload now None d body fileNameHashPairs).2 = Uploads d
     /\ exists r, In r (Uploads d) /\ row_hash r = hash)
  /\ (forall e, e <> PqError "23505" ->
        SubmitUpload now (Some e) d body fileNameHashPairs
        = ((EmptyString, Some (ErrDB e)), d)).
Proof.
  intros hash. split.
  - intros Htaken. unfold SubmitUpload, execInsert. fold hash.
    rewrite Htaken. simpl. repeat split; try reflexivity.
    now apply hash_taken_In.
  - intros e He. unfold SubmitUpload, execInsert.
    destruct e as [Code|msg]; [|reflexivity].
    destruct (String.eqb Code "23505") eqn:E; [|reflexivity].
    apply String.eqb_eq in E. congruence.
Qed.

(** ** The submit handler *)

Section SubmitFacts.

Variable wireTypes : list byte.
Variable tFileObject : Z.
Variable baseurl : string.

(** The loop of the submit handler fills its slice with the pairs, in
    order, unless an iteration returns early. *)
Lemma uploadFiles_spec env files :
  forall i pairs b,
    length pairs = (i + length files)%nat ->
    uploadFiles wireTypes tFileObject env i files pairs b
    = match uploadFiles_list wireTypes tFileObject env i files b with
      | (inl ps, b') => (inl (take i pairs ++ ps), b')
      | (inr resp, b') => (inr resp, b')
      end.
Proof.
  induction files as [|fh files IH]; intros i pairs b Hlen.
  - simpl in *. now rewrite take_ge, app_nil_r by lia.
  - cbn [uploadFiles uploadFiles_list]. simpl in Hlen. cbv zeta.
    destruct (NewFileObject _ fh _) as [fo|err]; [|reflexivity].
    destruct (UploadObject _ _ _ _ _) as [[k [e|]] b1]; [reflexivity|].
    rewrite IH by (rewrite length_insert; lia).
    destruct (uploadFiles_list _ _ _ _ _ _) as [[ps|resp] b2]; [|reflexivity].
    rewrite take_S_insert by lia. now rewrite <- app_assoc.
Qed.

Lemma uploadFiles_replicate env files b :
  uploadFiles wireTypes tFileObject env 0 files
    (replicate (length files) EmptyString) b
  = uploadFiles_list wireTypes tFileObject env 0 files b.
Proof.
  rewrite uploadFiles_spec by (rewrite length_replicate; reflexivity).
  destruct (uploadFiles_list _ _ _ _ _ _) as [[ps|resp] b']; reflexivity.
Qed.

Lemma uploadFiles_put_failure env i0 files b k e :
  (k < length files)%nat ->
  put_err (file_env env (i0 + k)) = Some e ->
  exists err b',
    uploadFiles_list wireTypes tFileObject env i0 files b
    = (inr [JSON_message 500 err], b').
Proof.
  revert i0 b k. induction files as [|fh files IH]; intros i0 b k Hk Hput.
  - simpl in Hk. lia.
  - simpl. destruct (NewFileObject _ fh _) as [fo|err]; [|eauto].
    destruct k as [|k].
    + rewrite Nat.add_0_r in Hput. unfold UploadObject. rewrite Hput. eauto.
    + unfold UploadObject at 1.
      destruct (put_err (file_env env i0)); [eauto|].
      simpl in Hk.
      match goal with
      | |- context [uploadFiles_list _ _ _ _ _ ?b1] =>
          destruct (IH (S i0) b1 k) as (err & b' & ->); [lia | |eauto]
      end.
      now replace (S i0 + k)%nat with (i0 + S k)%nat by lia.
Qed.

(** C8: when the upload of any attachment of a submission fails, the
    submit handler answers with an error (status 500) and returns before
    SubmitUpload is called: the database is as it was. *)
Theorem C8_failed_upload_no_record (env : SubmitEnv) (w : World) (body : string)
    (attachments : list multipart.FileHeader) (k : nat) (e : error) :
  (k < length attachments)%nat ->
  put_err (file_env env k) = Some e ->
  exists err w',
    Submit wireTypes tFileObject baseurl env w body attachments
    = Return ([JSON_message 500 err], w')
    /\ db w' = db w.
Proof.
  intros Hk Hput. unfold Submit, submission, handleSubmit. simpl.
  rewrite !lookup_singleton_eq. simpl.
  rewrite uploadFiles_replicate.
  destruct (uploadFiles_put_failure env 0 attachments (s3 w) k e Hk Hput)
    as (err & b' & ->).
  eauto.
Qed.

End SubmitFacts.

(** ** The download handler *)

Section DownloadFacts.

Variable wireTypes : list byte.
Variable tFileObject : Z.

(** After a fetch that returned data, the handler serves whatever Decode
    left in the FileObject; the 404 page is never the answer, whether
    Decode failed or not. *)
Lemma handleDownload_fetched (w : World) (hash : string) (data : list byte) :
  hash <> EmptyString ->
  s3 w !! hash = Some data ->
  data <> [] ->
  let file := (Gob.Decode wireTypes tFileObject data zeroFileObject).1 in
  handleDownload wireTypes tFileObject None w hash
  = [SetHeader "Content-Disposition" ("attachment; filename=" +:+ Filename file);
     ServeContent (Filename file) (Modtime file) (Contents file)].
Proof.
  intros Hhash Hget Hdata file. unfold handleDownload, DownloadLargeObject.
  rewrite Hget.
  destruct (String.eqb hash "") eqn:E; [apply String.eqb_eq in E; congruence|].
  destruct data; [congruence|]. reflexivity.
Qed.

(** A blob of one zero byte is no gob of a FileObject. *)
Lemma Decode_zero_byte :
  exists e, Gob.Decode wireTypes tFileObject [x00] zeroFileObject
            = (zeroFileObject, Some e).
Proof.
  unfold Gob.Decode. destruct wireTypes as [|a [|a' wt]]; simpl.
  - eauto.
  - destruct (Byte.eqb a x00); simpl; eauto.
  - destruct (Byte.eqb a x00); simpl; eauto.
Qed.

(** C9, on the code: for an object of the bucket that does not decode
    (here a single zero byte, stored under its own digest), Decode
    returns an error and the download handler still answers with a
    Content-Disposition header and ServeContent on the empty FileObject,
    not with the 404 page. *)
Theorem C9_download_ignores_decode_error :
  let data := [x00] in
  let hash := sha1hex data in
  let w := mkWorld {[ hash := data ]} (mkDB [] 0) in
  (exists e, (Gob.Decode wireTypes tFileObject data zeroFileObject).2 = Some e)
  /\ handleDownload wireTypes tFileObject None w hash
     = [SetHeader "Content-Disposition" "attachment; filename=";
        ServeContent EmptyString zeroTime []]
  /\ handleDownload wireTypes tFileObject None w hash <> route404.
Proof.
  cbv zeta. destruct Decode_zero_byte as (e & He).
  set (hash := sha1hex [x00]). set (w := mkWorld {[ hash := [x00] ]} (mkDB [] 0)).
  split; [exists e; now rewrite He|].
  assert (Hresp : handleDownload wireTypes tFileObject None w hash
     = [SetHeader "Content-Disposition" "attachment; filename=";
        ServeContent EmptyString zeroTime []]).
  { assert (Hf := handleDownload_fetched w hash [x00]).
    cbv zeta in Hf. rewrite He in Hf. apply Hf.
    - intros H. pose proof (sha1hex_length [x00]) as Hl. fold hash in Hl.
      rewrite H in Hl. discriminate Hl.
    - unfold w. simpl. apply lookup_singleton_eq.
    - discriminate. }
  split; [exact Hresp | rewrite Hresp; discriminate].
Qed.

(** A failed fetch, a missing key and an empty object do lead to the
    404 page. *)
Lemma handleDownload_fetch_failed (get : option error) (w : World) (hash : string) :
  hash <> EmptyString ->
  (get <> None \/ s3 w !! hash = None \/ s3 w !! hash = Some []) ->
  handleDownload wireTypes tFileObject get w hash = route404.
Proof.
  intros Hhash H. unfold handleDownload, DownloadLargeObject.
  destruct (String.eqb hash "") eqn:E; [apply String.eqb_eq in E; congruence|].
  destruct get as [err|]; [reflexivity|].
  destruct H as [H|[H|H]]; [congruence | now rewrite H | now rewrite H].
Qed.

End DownloadFacts.

(** ** The upload page *)

Section ClientFacts.

Variable File : Type.

Lemma trimStart_nil_iff s :
  Client.trimStart s = [] <-> forallb Client.isWhiteSpace s = true.
Proof.
  induction s as [|u s IH]; simpl; [tauto|].
  destruct (Client.isWhiteSpace u); simpl; [exact IH|].
  split; discriminate.
Qed.

Lemma forallb_rev {A} (p : A -> bool) l : forallb p (rev l) = forallb p l.
Proof.
  induction l as [|x l IH]; simpl; [reflexivity|].
  rewrite forallb_app, IH. simpl. rewrite andb_true_r. apply andb_comm.
Qed.

Lemma trimStart_head s u s' :
  Client.trimStart s = u :: s' -> Client.isWhiteSpace u = false.
Proof.
  induction s as [|v s IH]; simpl; [discriminate|].
  destruct (Client.isWhiteSpace v) eqn:E; [exact IH|].
  intros H. inversion H; subst. exact E.
Qed.

Lemma trim_nil_iff s :
  Client.trim s = [] <-> forallb Client.isWhiteSpace s = true.
Proof.
  unfold Client.trim. rewrite <- trimStart_nil_iff. split.
  - intros H. apply (f_equal (@rev Z)) in H. rewrite rev_involutive in H.
    simpl in H. apply trimStart_nil_iff in H. rewrite forallb_rev in H.
    destruct (Client.trimStart s) as [|u s'] eqn:E; [reflexivity|].
    apply trimStart_head in E. simpl in H. rewrite E in H. discriminate.
  - intros ->. reflexivity.
Qed.

(** C2, as the code has it: the check for an empty submission is the
    one of the browser-side submit.  It returns without making the
    request exactly when the text is empty or all white space and no
    picker holds a file. *)
Theorem C2_client_rejects_empty (textArea_value : Client.jsstring)
    (pickers : list (list File)) :
  Client.submit File textArea_value pickers = None
  <-> (forallb Client.isWhiteSpace textArea_value = true
       /\ Client.collect File pickers = []).
Proof.
  unfold Client.submit. rewrite <- trim_nil_iff.
  destruct (Client.trim textArea_value) as [|u s]; simpl.
  - destruct (Client.collect File pickers) as [|f fs]; simpl.
    + tauto.
    + split; [discriminate | intros [_ H]; discriminate].
  - split; [discriminate | intros [H _]; discriminate].
Qed.

End ClientFacts.

(** ** Successful submissions *)

Lemma append_cons c x y : (String c x +:+ y)%string = String c (x +:+ y).
Proof. reflexivity. Qed.

Lemma bytes_of_string_app a b :
  bytes_of_string (a +:+ b) = bytes_of_string a ++ bytes_of_string b.
Proof.
  unfold bytes_of_string, list_byte_of_string.
  induction a as [|c a IH]; [reflexivity|].
  rewrite append_cons. simpl. now rewrite IH.
Qed.

Lemma append_empty_r x : (x +:+ "")%string = x.
Proof.
  induction x as [|c x IH]; [reflexivity | now rewrite append_cons, IH].
Qed.

Lemma Join_concat l : Join l = String.concat "" l.
Proof.
  induction l as [|x l IH]; [reflexivity|].
  change (Join (x :: l)) with (x +:+ Join l)%string. rewrite IH.
  destruct l as [|y l]; [apply append_empty_r | reflexivity].
Qed.

Lemma substring_length n s :
  (n <= String.length s)%nat -> String.length (String.substring 0 n s) = n.
Proof.
  revert s. induction n as [|n IH]; intros [|c s]; simpl; intros H;
    try reflexivity; try lia.
  rewrite IH; [reflexivity | lia].
Qed.

Lemma slice_to_sha1hex data :
  slice_to (sha1hex data) 10 = Some (shortHash (sha1hex data)).
Proof. unfold slice_to. now rewrite sha1hex_length. Qed.

Section SubmitSuccess.

Variable wireTypes : list byte.
Variable tFileObject : Z.
Variable baseurl : string.

Lemma uploadFiles_ok env i0 files b :
  (forall k, (k < length files)%nat -> no_file_errors (file_env env (i0 + k))) ->
  exists b',
    uploadFiles_list wireTypes tFileObject env i0 files b
    = (inl (imap (fun k fh =>
                    TrimSpace (multipart.Filename fh) +:+ "/"
                      +:+ AttachmentKey wireTypes tFileObject (file_env env (i0 + k)) fh)%string
                 files), b').
Proof.
  revert i0 b. induction files as [|fh files IH]; intros i0 b Hok.
  - simpl. eauto.
  - destruct (Hok O) as (Ho & Hr & Hp); [simpl; lia|].
    rewrite Nat.add_0_r in Ho, Hr, Hp.
    simpl. unfold NewFileObject, UploadObject. rewrite Ho, Hr, Hp.
    match goal with
    | |- context [uploadFiles_list _ _ _ _ _ ?b1] =>
        destruct (IH (S i0) b1) as (b' & ->)
    end.
    + intros k Hk. replace (S i0 + k)%nat with (i0 + S k)%nat by lia.
      apply Hok. simpl. lia.
    + exists b'. rewrite Nat.add_0_r.
      assert (Himap :
        imap (fun k fh0 =>
                TrimSpace (multipart.Filename fh0) +:+ "/"
                  +:+ AttachmentKey wireTypes tFileObject (file_env env (S i0 + k)) fh0)%string
             files
        = imap ((fun k fh0 =>
                TrimSpace (multipart.Filename fh0) +:+ "/"
                  +:+ AttachmentKey wireTypes tFileObject (file_env env (i0 + k)) fh0)%string
                ∘ S) files).
      { apply imap_ext. intros k fh' _. simpl.
        now replace (S (i0 + k))%nat with (i0 + S k)%nat by lia. }
      rewrite Himap. reflexivity.
Qed.

(** What a submission does when no file operation fails: the pairs are
    those of the specification and SubmitUpload decides the rest. *)
Lemma Submit_uploads_ok env w body attachments :
  (forall k, (k < length attachments)%nat -> no_file_errors (file_env env k)) ->
  exists b',
    Submit wireTypes tFileObject baseurl env w body attachments
    = match SubmitUpload (insert_now env) (insert_fault env) (db w) body
              (pairStrings wireTypes tFileObject env attachments) with
      | ((_, Some err), d) => Return (respondError 409 err, mkWorld b' d)
      | ((hash, None), d) =>
          match slice_to hash 10 with
          | None => Panics "slice bounds out of range"
          | Some hash => Return (uploaded baseurl hash, mkWorld b' d)
          end
      end.
Proof.
  intros Hok. unfold Submit, submission, handleSubmit. simpl.
  rewrite !lookup_singleton_eq. simpl.
  rewrite uploadFiles_replicate.
  destruct (uploadFiles_ok env 0 attachments (s3 w) Hok) as (b' & ->).
  exists b'. reflexivity.
Qed.

Lemma SubmitUpload_hash now d body pairs :
  let hash := sha1hex (bytes_of_string (body +:+ String.concat "" pairs)) in
  SubmitUpload now None d body pairs
  = ((hash, None),
     mkDB (if hash_taken d hash then Uploads d
           else Uploads d ++ [mkRow (Uploads_id_seq d + 1) hash body pairs now])
          (Uploads_id_seq d + 1)).
Proof.
  intros hash. unfold SubmitUpload, execInsert.
  rewrite <- bytes_of_string_app, Join_concat. fold hash.
  destruct (hash_taken d hash); reflexivity.
Qed.

Lemma hash_taken_app d hash r :
  hash_taken (mkDB (Uploads d ++ [r]) (Uploads_id_seq d + 1)) hash
  = hash_taken d hash || String.eqb (row_hash r) hash.
Proof.
  unfold hash_taken. simpl. rewrite existsb_app. simpl. now rewrite orb_false_r.
Qed.

(** C4: for a submission that goes through, the hash stored with the
    record is the lowercase hex SHA-1 digest of the body followed by the
    pair strings "trimmed filename/AttachmentKey" in submission order
    with nothing between them, and the handler answers with its first
    ten characters. *)
Theorem C4_submission_hash (env : SubmitEnv) (w : World) (body : string)
    (attachments : list multipart.FileHeader) :
  (forall k, (k < length attachments)%nat -> no_file_errors (file_env env k)) ->
  insert_fault env = None ->
  let hash := submissionHash wireTypes tFileObject env body attachments in
  exists w',
    Submit wireTypes tFileObject baseurl env w body attachments
    = Return (uploaded baseurl (shortHash hash), w')
    /\ (exists r, In r (Uploads (db w')) /\ row_hash r = hash)
    /\ (hash_taken (db w) hash = false ->
        Uploads (db w')
        = Uploads (db w)
            ++ [mkRow (Uploads_id_seq (db w) + 1) hash body
                  (pairStrings wireTypes tFileObject env attachments)
                  (insert_now env)])
    /\ String.length hash = 40%nat
    /\ all_chars isLowerHex hash = true
    /\ String.length (shortHash hash) = 10%nat.
Proof.
  intros Hok Hfault hash.
  destruct (Submit_uploads_ok env w body attachments Hok) as (b' & ->).
  rewrite Hfault, SubmitUpload_hash. fold (submissionHash wireTypes tFileObject env body attachments).
  fold hash. unfold hash at 1, submissionHash at 1. rewrite slice_to_sha1hex.
  eexists. split; [reflexivity|]. cbn [db Uploads].
  split; [|split; [|split; [|split]]].
  - destruct (hash_taken (db w) hash) eqn:E.
    + now apply hash_taken_In.
    + eexists. split; [apply in_or_app; right; left; reflexivity | reflexivity].
  - intros ->. reflexivity.
  - apply sha1hex_length.
  - apply sha1hex_lower.
  - apply substring_length. unfold hash, submissionHash. rewrite sha1hex_length. lia.
Qed.

End SubmitSuccess.

(** ** Resubmission *)

Section Resubmission.

Variable wireTypes : list byte.
Variable tFileObject : Z.
Variable baseurl : string.

Lemma pairStrings_same_encoding env1 env2 attachments :
  (forall k, (k < length attachments)%nat ->
     now (file_env env2 k) = now (file_env env1 k)
     /\ order (file_env env2 k) = order (file_env env1 k)) ->
  pairStrings wireTypes tFileObject env2 attachments
  = pairStrings wireTypes tFileObject env1 attachments.
Proof.
  intros Hsame. unfold pairStrings. apply imap_ext. intros k fh Hk.
  apply lookup_lt_Some in Hk. destruct (Hsame k Hk) as [Hnow Hord].
  simpl. unfold AttachmentKey, EncodedAttachmentBlob, attachment.
  now rewrite Hnow, Hord.
Qed.

(** C1, as the code has it: two submissions of the same body and
    attachments get the same short hash, and the second adds no record,
    when the attachments are stamped with the same modification times
    and their header maps are ranged over in the same order both times
    (as is always so without attachments).  The first adds exactly one
    record when the hash was not stored before. *)
Theorem C1_resubmission_same_encoding (env1 env2 : SubmitEnv) (w : World)
    (body : string) (attachments : list multipart.FileHeader) :
  (forall k, (k < length attachments)%nat ->
     no_file_errors (file_env env1 k) /\ no_file_errors (file_env env2 k)
     /\ now (file_env env2 k) = now (file_env env1 k)
     /\ order (file_env env2 k) = order (file_env env1 k)) ->
  insert_fault env1 = None ->
  insert_fault env2 = None ->
  let hash := submissionHash wireTypes tFileObject env1 body attachments in
  exists w1 w2,
    Submit wireTypes tFileObject baseurl env1 w body attachments
    = Return (uploaded baseurl (shortHash hash), w1)
    /\ Submit wireTypes tFileObject baseurl env2 w1 body attachments
       = Return (uploaded baseurl (shortHash hash), w2)
    /\ Uploads (db w2) = Uploads (db w1)
    /\ (hash_taken (db w) hash = false ->
        exists r, row_hash r = hash /\ Uploads (db w2) = Uploads (db w) ++ [r]).
Proof.
  intros Hall Hf1 Hf2 hash.
  destruct (Submit_uploads_ok wireTypes tFileObject baseurl env1 w body attachments)
    as (b1 & H1); [intros k Hk; apply (Hall k Hk)|].
  rewrite Hf1, SubmitUpload_hash in H1.
  fold (submissionHash wireTypes tFileObject env1 body attachments) in H1.
  fold hash in H1. unfold hash at 1, submissionHash at 1 in H1.
  rewrite slice_to_sha1hex in H1.
  fold (submissionHash wireTypes tFileObject env1 body attachments) in H1.
  fold hash in H1.
  match type of H1 with _ = Return (_, ?x) => set (w1 := x) in * end.
  destruct (Submit_uploads_ok wireTypes tFileObject baseurl env2 w1 body attachments)
    as (b2 & H2); [intros k Hk; apply (Hall k Hk)|].
  rewrite Hf2, SubmitUpload_hash in H2.
  rewrite (pairStrings_same_encoding env1 env2) in H2
    by (intros k Hk; apply (Hall k Hk)).
  fold (submissionHash wireTypes tFileObject env1 body attachments) in H2.
  fold hash in H2. unfold hash at 1, submissionHash at 1 in H2.
  rewrite slice_to_sha1hex in H2.
  fold (submissionHash wireTypes tFileObject env1 body attachments) in H2.
  fold hash in H2.
  assert (Htaken : hash_taken (db w1) hash = true).
  { unfold w1. cbn [db]. destruct (hash_taken (db w) hash) eqn:E.
    - unfold hash_taken in *. exact E.
    - rewrite hash_taken_app. cbn [row_hash]. rewrite String.eqb_refl.
      apply orb_true_r. }
  rewrite Htaken in H2.
  eexists w1, _. split; [exact H1|]. split; [exact H2|]. cbn [db Uploads].
  split; [reflexivity|].
  intros Hnew. unfold w1. cbn [db Uploads]. rewrite Hnew.
  eexists. split; [|reflexivity]. reflexivity.
Qed.

End Resubmission.

(** C1, refuted as stated: the same body and attachment submitted twice,
    the clock one second further the second time, get two different
    short hashes and two records. *)
Lemma C1_resubmission_new_hash :
  match Submit sampleWireTypes 65 sampleBaseurl (calmEnv sampleTime1 [])
          emptyWorld "hello world" [sampleFile] with
  | Return (resp1, w1) =>
      match Submit sampleWireTypes 65 sampleBaseurl (calmEnv sampleTime2 [])
              w1 "hello world" [sampleFile] with
      | Return (resp2, w2) =>
          resp1 = uploaded sampleBaseurl "60daa98eb0"
          /\ resp2 = uploaded sampleBaseurl "746305d2a2"
          /\ map row_hash (Uploads (db w2))
             = ["60daa98eb08f5c97f7f0da9253dd1347992ae287"%string;
                "746305d2a26852e6bdaeae307c0839f1f552dc6a"%string]
      | Panics _ => False
      end
  | Panics _ => False
  end.
Proof. vm_compute. repeat split; reflexivity. Qed.

(** C2, refuted as stated: the submit handler takes an empty body with
    no attachment, inserts a record for it and answers with the short
    hash of the empty input. *)
Lemma C2_handler_accepts_empty :
  Submit sampleWireTypes 65 sampleBaseurl (calmEnv sampleTime1 [])
    emptyWorld "" []
  = Return (uploaded sampleBaseurl "da39a3ee5e",
            mkWorld ∅
              (mkDB [mkRow 1 "da39a3ee5e6b4b0d3255bfef95601890afd80709" "" []
                       1700000000] 1)).
Proof. vm_compute. reflexivity. Qed.

(** ** The order of the header map *)

Lemma shuffle_short {A} (o : MapOrder) (l : list A) :
  (length l <= 1)%nat -> shuffle o l = l.
Proof.
  destruct l as [|x [|y l]]; simpl; intros H; [reflexivity | | lia].
  destruct (hd O o); reflexivity.
Qed.

(** C3, as the code has it: the bytes of an encoding are fixed by the
    value and by the order in which the header map is ranged over.  Two
    encodings of a value whose header holds at most one key are
    byte-identical, whatever the orders. *)
Theorem C3_encoding_fixed_up_to_map_order (wireTypes : list byte)
    (tFileObject : Z) (o1 o2 : MapOrder) (v : FileObject) :
  (size (Header v) <= 1)%nat ->
  Gob.Encode wireTypes tFileObject o1 v = Gob.Encode wireTypes tFileObject o2 v.
Proof.
  intros Hsize. unfold Gob.Encode, Gob.encodeStruct, Gob.encHeader, Gob.encodeMap, MapRange.
  rewrite !shuffle_short by (rewrite length_map_to_list; exact Hsize).
  reflexivity.
Qed.

(** C3, refuted as stated: one Attachment with two header keys, encoded
    under two orders of the range over its header map, gives different
    bytes and different keys. *)
Lemma C3_two_orders_two_encodings :
  let v := attachment (mkFileEnv sampleTime1 [] None None None None) sampleFile in
  (Gob.Encode sampleWireTypes 65 [] v).1 <> (Gob.Encode sampleWireTypes 65 [1%nat] v).1
  /\ sha1hex (Gob.Encode sampleWireTypes 65 [] v).1
     = "927ecac9510a253c1eafde5186f26b2628ea05ee"%string
  /\ sha1hex (Gob.Encode sampleWireTypes 65 [1%nat] v).1
     = "4a674447515f07848187aaf5e34798ddd6f6c4a6"%string.
Proof.
  cbv zeta. split; [|split; vm_compute; reflexivity].
  intros H. apply (f_equal sha1hex) in H. vm_compute in H. discriminate H.
Qed.

(** ** The gob codec: integers *)

Lemma Z_of_byte_of_Z z : Z_of_byte (byte_of_Z z) = z mod 256.
Proof.
  unfold Z_of_byte, byte_of_Z.
  assert (Hr : 0 <= z mod 256 < 256) by (apply Z.mod_pos_bound; lia).
  destruct (Byte.of_N (Z.to_N (z mod 256))) as [b|] eqn:E.
  - apply Byte.to_of_N in E. rewrite E. rewrite Z2N.id; lia.
  - pose proof (Byte.to_of_N_option_map (Z.to_N (z mod 256))) as H.
    rewrite E in H. simpl in H.
    destruct (Z.to_N (z mod 256) <=? 255)%N eqn:L; [discriminate|].
    apply N.leb_gt in L. lia.
Qed.

Lemma lor_shiftl_byte x b :
  0 <= b < 256 -> Z.lor (Z.shiftl x 8) b = x * 256 + b.
Proof.
  intros Hb. rewrite Z.shiftl_mul_pow2 by lia. change (2 ^ 8) with 256.
  rewrite <- Z.lxor_lor, <- Z.add_nocarry_lxor; try reflexivity.
  - apply Z.bits_inj'. intros n Hn. rewrite Z.land_spec, Z.bits_0.
    destruct (Z.lt_ge_cases n 8) as [Hlt|Hge].
    + replace (x * 256) with (x * 2 ^ 8) by reflexivity.
      rewrite Z.mul_pow2_bits_low by lia. reflexivity.
    + rewrite (Z.bits_above_log2 b n), andb_false_r; [reflexivity | lia |].
      destruct (Z.eq_dec b 0) as [->|Hnz]; [simpl; lia|].
      apply Z.log2_lt_pow2; [lia|]. apply Z.lt_le_trans with (2 ^ 8); [simpl; lia|].
      apply Z.pow_le_mono_r; lia.
  - apply Z.bits_inj'. intros n Hn. rewrite Z.land_spec, Z.bits_0.
    destruct (Z.lt_ge_cases n 8) as [Hlt|Hge].
    + replace (x * 256) with (x * 2 ^ 8) by reflexivity.
      rewrite Z.mul_pow2_bits_low by lia. reflexivity.
    + rewrite (Z.bits_above_log2 b n), andb_false_r; [reflexivity | lia |].
      destruct (Z.eq_dec b 0) as [->|Hnz]; [simpl; lia|].
      apply Z.log2_lt_pow2; [lia|]. apply Z.lt_le_trans with (2 ^ 8); [simpl; lia|].
      apply Z.pow_le_mono_r; lia.
Qed.

Lemma be_value_from acc n z :
  fold_left (fun x b => Z.lor (Z.shiftl x 8) (Z_of_byte b)) (be_bytes n z) acc
  = acc * 2 ^ (8 * Z.of_nat n) + z mod 2 ^ (8 * Z.of_nat n).
Proof.
  revert acc. induction n as [|n IH]; intros acc.
  - simpl. rewrite Z.mod_1_r. lia.
  - cbn [be_bytes fold_left]. rewrite IH, Z_of_byte_of_Z.
    rewrite lor_shiftl_byte by (apply Z.mod_pos_bound; lia).
    rewrite Z.shiftr_div_pow2 by lia.
    replace (8 * Z.of_nat (S n)) with (8 * Z.of_nat n + 8) by lia.
    rewrite Z.pow_add_r by lia. change (2 ^ 8) with 256.
    rewrite (Z.rem_mul_r z (2 ^ (8 * Z.of_nat n)) 256); [|apply Z.pow_nonzero; lia | lia].
    ring.
Qed.

Lemma be_value_be_bytes n z :
  be_value (be_bytes n z) = z mod 2 ^ (8 * Z.of_nat n).
Proof. unfold be_value. rewrite be_value_from. lia. Qed.

Lemma signed_unsigned w z :
  0 < w -> - 2 ^ (w - 1) <= z < 2 ^ (w - 1) -> signed w (z mod 2 ^ w) = z.
Proof.
  intros Hw Hz. unfold signed.
  assert (Hp : 2 ^ w = 2 * 2 ^ (w - 1)).
  { replace w with (w - 1 + 1) at 1 by lia. rewrite Z.pow_add_r by lia. lia. }
  destruct (Z.lt_ge_cases z 0) as [Hneg|Hpos].
  - replace (z mod 2 ^ w) with (z + 2 ^ w).
    + destruct (z + 2 ^ w <? 2 ^ (w - 1)) eqn:E; [apply Z.ltb_lt in E; lia | lia].
    + apply Z.mod_unique with (-1); lia.
  - rewrite Z.mod_small by lia.
    destruct (z <? 2 ^ (w - 1)) eqn:E; [reflexivity | apply Z.ltb_ge in E; lia].
Qed.

Lemma take_be_bytes n z (rest : list byte) :
  take n (be_bytes n z ++ rest) = be_bytes n z.
Proof. apply take_app_length'. symmetry. apply be_bytes_length. Qed.

Lemma drop_be_bytes n z (rest : list byte) :
  drop n (be_bytes n z ++ rest) = rest.
Proof. apply drop_app_length'. symmetry. apply be_bytes_length. Qed.

Lemma decodeUint_encodeUint x rest :
  0 <= x < 2 ^ 64 ->
  Gob.decodeUint (Gob.encodeUint x ++ rest) = Some (x, rest).
Proof.
  intros Hx. unfold Gob.encodeUint, Gob.uint64. rewrite (Z.mod_small x) by lia.
  destruct (x <=? 127) eqn:Hsmall.
  - apply Z.leb_le in Hsmall. simpl. rewrite Z_of_byte_of_Z, Z.mod_small by lia.
    apply Z.leb_le in Hsmall. now rewrite Hsmall.
  - apply Z.leb_gt in Hsmall.
    assert (Hlog : 7 <= Z.log2 x < 64).
    { split.
      - apply Z.log2_le_pow2; [lia | simpl; lia].
      - apply Z.log2_lt_pow2; lia. }
    set (bc := Z.shiftr (64 - (Z.log2 x + 1)) 3).
    assert (Hbc : bc = (63 - Z.log2 x) / 8).
    { unfold bc. rewrite Z.shiftr_div_pow2 by lia. f_equal. lia. }
    assert (Hbcr : 0 <= bc <= 7).
    { rewrite Hbc. split; [apply Z.div_pos; lia|].
      apply Z.div_le_upper_bound; lia. }
    assert (Hfit : Z.log2 x < 8 * (8 - bc)).
    { pose proof (Z.mul_div_le (63 - Z.log2 x) 8). rewrite <- Hbc in *. lia. }
    cbn [app Gob.decodeUint]. rewrite Z_of_byte_of_Z.
    replace ((bc - 8) mod 256) with (248 + bc)
      by (apply Z.mod_unique with (-1); lia).
    destruct (248 + bc <=? 127) eqn:E1; [apply Z.leb_le in E1; lia|].
    replace (256 - (248 + bc)) with (8 - bc) by lia.
    destruct (8 <? 8 - bc) eqn:E2; [apply Z.ltb_lt in E2; lia|].
    rewrite length_app, be_bytes_length.
    destruct (Z.of_nat (Z.to_nat (8 - bc) + length rest) <? 8 - bc) eqn:E3;
      [apply Z.ltb_lt in E3; lia|].
    rewrite take_be_bytes, drop_be_bytes, be_value_be_bytes.
    rewrite Z2Nat.id by lia. rewrite Z.mod_small; [reflexivity|].
    split; [lia|]. apply Z.log2_lt_pow2; lia.
Qed.

Lemma decodeInt_encodeInt i rest :
  int64 i -> Gob.decodeInt (Gob.encodeInt i ++ rest) = Some (i, rest).
Proof.
  unfold int64. intros Hi. unfold Gob.encodeInt, Gob.decodeInt, Gob.uint64.
  destruct (i <? 0) eqn:Hneg.
  - apply Z.ltb_lt in Hneg.
    assert (Hn : Z.lnot i = - i - 1) by (unfold Z.lnot; lia).
    rewrite Hn, Z.shiftl_mul_pow2 by lia. change (2 ^ 1) with 2.
    rewrite Z.mod_small by lia.
    assert (Hor : Z.lor ((- i - 1) * 2) 1 = (- i - 1) * 2 + 1).
    { assert (Hland : Z.land ((- i - 1) * 2) 1 = 0).
      { change 1 with (Z.ones 1). rewrite Z.land_ones by lia.
        change (2 ^ 1) with 2. apply Z.mod_mul. lia. }
      rewrite <- Z.lxor_lor by exact Hland.
      now rewrite <- Z.add_nocarry_lxor by exact Hland. }
    rewrite Hor, decodeUint_encodeUint by lia. simpl.
    replace ((- i - 1) * 2 + 1) with (1 + 2 * (- i - 1)) by lia.
    rewrite Z.odd_add_mul_2. simpl.
    rewrite Z.shiftr_div_pow2 by lia. change (2 ^ 1) with 2.
    replace (1 + 2 * (- i - 1)) with ((- i - 1) * 2 + 1) by lia.
    rewrite Z.div_add_l by lia. change (1 / 2) with 0.
    unfold Z.lnot. do 2 f_equal. lia.
  - apply Z.ltb_ge in Hneg.
    rewrite Z.shiftl_mul_pow2 by lia. change (2 ^ 1) with 2.
    rewrite Z.mod_small by lia.
    rewrite decodeUint_encodeUint by lia. simpl.
    replace (i * 2) with (0 + 2 * i) by lia. rewrite Z.odd_add_mul_2. simpl.
    rewrite Z.shiftr_div_pow2 by lia. change (2 ^ 1) with 2.
    replace (0 + 2 * i) with (i * 2) by lia. now rewrite Z.div_mul by lia.
Qed.

(** ** The gob codec: values *)

Lemma encodeUint_nonempty x : (0 < length (Gob.encodeUint x))%nat.
Proof.
  unfold Gob.encodeUint. destruct (Gob.uint64 x <=? 127); simpl; lia.
Qed.

Lemma getLength_encodeUint n rest :
  Z.of_nat n < Gob.tooBig -> (n <= length rest)%nat ->
  Gob.getLength (Gob.encodeUint (Z.of_nat n) ++ rest) = Some (n, rest).
Proof.
  unfold Gob.tooBig. intros Hn Hrest. unfold Gob.getLength.
  rewrite decodeUint_encodeUint by lia. simpl.
  assert (Hs : signed 64 (Z.of_nat n) = Z.of_nat n).
  { unfold signed. destruct (Z.of_nat n <? 2 ^ (64 - 1)) eqn:E; [reflexivity|].
    apply Z.ltb_ge in E. simpl in E. lia. }
  rewrite Hs.
  destruct (Z.of_nat n <? 0) eqn:E1; [apply Z.ltb_lt in E1; lia|].
  destruct (Z.of_nat (length rest) <? Z.of_nat n) eqn:E2; [apply Z.ltb_lt in E2; lia|].
  unfold Gob.tooBig.
  destruct (2 ^ 33 <=? Z.of_nat n) eqn:E3; [apply Z.leb_le in E3; lia|].
  simpl. now rewrite Nat2Z.id.
Qed.

Lemma encBytes_length b :
  (length b < length (Gob.encBytes b))%nat.
Proof.
  unfold Gob.encBytes. rewrite length_app.
  pose proof (encodeUint_nonempty (Z.of_nat (length b))). lia.
Qed.

Lemma decBytes_encBytes b rest :
  Z.of_nat (length (Gob.encBytes b)) < Gob.tooBig ->
  Gob.decBytes (Gob.encBytes b ++ rest) = Some (b, rest).
Proof.
  intros Hb. pose proof (encBytes_length b) as Hl.
  unfold Gob.decBytes, Gob.encBytes. rewrite <- app_assoc.
  rewrite getLength_encodeUint; [|lia | rewrite length_app; lia].
  simpl. now rewrite take_app_length, drop_app_length.
Qed.

Lemma string_of_bytes_of_string s : string_of_bytes (bytes_of_string s) = s.
Proof. apply string_of_list_byte_of_string. Qed.

Lemma decString_encString s rest :
  Z.of_nat (length (Gob.encString s)) < Gob.tooBig ->
  Gob.decString (Gob.encString s ++ rest) = Some (s, rest).
Proof.
  intros Hs. unfold Gob.decString, Gob.encString in *.
  rewrite decBytes_encBytes by exact Hs. simpl.
  now rewrite string_of_bytes_of_string.
Qed.

Lemma encString_nonempty s : (0 < length (Gob.encString s))%nat.
Proof. unfold Gob.encString. pose proof (encBytes_length (bytes_of_string s)). lia. Qed.

Lemma decStringSlice_encoded l rest fuel :
  Z.of_nat (length (concat (map Gob.encString l))) < Gob.tooBig ->
  (length l <= fuel)%nat ->
  Gob.decStringSlice fuel (Z.of_nat (length l)) (concat (map Gob.encString l) ++ rest)
  = Some (l, rest).
Proof.
  revert fuel. induction l as [|s l IH]; intros fuel Hlen Hfuel.
  - destruct fuel; reflexivity.
  - destruct fuel as [|fuel]; [simpl in Hfuel; lia|].
    cbn [map concat length] in *. rewrite length_app in Hlen.
    cbn [Gob.decStringSlice].
    destruct (Z.of_nat (S (length l)) <=? 0) eqn:E; [apply Z.leb_le in E; lia|].
    rewrite <- app_assoc, decString_encString by lia. simpl.
    replace (Z.of_nat (S (length l)) - 1) with (Z.of_nat (length l)) by lia.
    rewrite IH by lia. reflexivity.
Qed.

Lemma concat_encString_length l :
  (length l <= length (concat (map Gob.encString l)))%nat.
Proof.
  induction l as [|s l IH]; simpl; [lia|].
  rewrite length_app. pose proof (encString_nonempty s). lia.
Qed.

Lemma decodeSlice_encStrings l rest :
  Z.of_nat (length (Gob.encStrings l)) < Gob.tooBig ->
  Z.of_nat (length l) <= sliceBound ->
  Gob.decodeSlice (Gob.encStrings l ++ rest) = Some (l, rest).
Proof.
  unfold sliceBound. intros Hlen Hn. unfold Gob.decodeSlice, Gob.encStrings in *.
  rewrite length_app in Hlen. pose proof (concat_encString_length l) as Hc.
  unfold Gob.tooBig in *.
  rewrite <- app_assoc, decodeUint_encodeUint by lia. simpl.
  unfold Gob.uint64. rewrite (Z.mod_small (Z.of_nat (length l) * 16)) by lia.
  rewrite Z.div_mul by lia. rewrite Z.eqb_refl. simpl.
  assert (Hs : (signed 64 (Z.of_nat (length l)) <? 0) = false).
  { unfold signed. destruct (Z.of_nat (length l) <? 2 ^ (64 - 1)) eqn:E.
    - apply Z.ltb_ge. lia.
    - apply Z.ltb_ge in E. simpl in E. lia. }
  rewrite Hs. simpl.
  destruct (2 ^ 33 <? Z.of_nat (length l) * 16) eqn:E; [apply Z.ltb_lt in E; lia|].
  apply decStringSlice_encoded; [unfold Gob.tooBig; lia|]. rewrite length_app. lia.
Qed.

Lemma encEntry_nonempty kv : (0 < length (encEntry kv))%nat.
Proof.
  unfold encEntry. rewrite length_app. pose proof (encString_nonempty kv.1). lia.
Qed.

Lemma decodeEntries_encoded kvs rest fuel m :
  Z.of_nat (length (concat (map encEntry kvs))) < Gob.tooBig ->
  Forall (fun kv => Z.of_nat (length kv.2) <= sliceBound) kvs ->
  (length kvs <= fuel)%nat ->
  Gob.decodeEntries fuel (Z.of_nat (length kvs)) (concat (map encEntry kvs) ++ rest) m
  = (store_all m kvs, Some rest).
Proof.
  revert fuel m. induction kvs as [|[k v] kvs IH]; intros fuel m Hlen Hb Hfuel.
  - destruct fuel; reflexivity.
  - destruct fuel as [|fuel]; [simpl in Hfuel; lia|].
    inversion Hb as [|? ? Hv Hb']; subst. simpl in Hv.
    cbn [map concat length] in *. rewrite length_app in Hlen.
    unfold encEntry at 1 in Hlen. rewrite length_app in Hlen. cbn [fst snd] in Hlen.
    cbn [Gob.decodeEntries].
    destruct (Z.of_nat (S (length kvs)) <=? 0) eqn:E; [apply Z.leb_le in E; lia|].
    unfold encEntry at 1. cbn [fst snd]. rewrite <- !app_assoc.
    rewrite decString_encString by lia.
    rewrite decodeSlice_encStrings by (try exact Hv; lia).
    replace (Z.of_nat (S (length kvs)) - 1) with (Z.of_nat (length kvs)) by lia.
    rewrite IH by (try exact Hb'; lia). reflexivity.
Qed.

Lemma concat_encEntry_length kvs :
  (length kvs <= length (concat (map encEntry kvs)))%nat.
Proof.
  induction kvs as [|kv kvs IH]; simpl; [lia|].
  rewrite length_app. pose proof (encEntry_nonempty kv). lia.
Qed.

Lemma insert_at_perm {A} i (x : A) l : insert_at i x l ≡ₚ x :: l.
Proof.
  revert i. induction l as [|y l IH]; intros [|i]; simpl; try reflexivity.
  rewrite IH. apply Permutation_swap.
Qed.

Lemma shuffle_perm {A} o (l : list A) : shuffle o l ≡ₚ l.
Proof.
  revert o. induction l as [|x l IH]; intros o; simpl; [reflexivity|].
  now rewrite insert_at_perm, IH.
Qed.

Lemma insert_at_app {A} (a b : list A) (x : A) :
  insert_at (length a) x (a ++ b) = a ++ x :: b.
Proof. induction a as [|y a IH]; simpl; [now destruct b | now rewrite IH]. Qed.

(** Every order of the entries is the pick of some [MapOrder]. *)
Lemma shuffle_complete {A} (l l' : list A) :
  l ≡ₚ l' -> exists o, shuffle o l = l'.
Proof.
  revert l'. induction l as [|x l IH]; intros l' Hperm.
  - apply Permutation_nil_l in Hperm. subst l'. now exists [].
  - assert (Hin : In x l').
    { eapply Permutation_in; [exact Hperm | now left]. }
    apply in_split in Hin as (a & b & ->).
    apply Permutation_cons_app_inv in Hperm.
    destruct (IH _ Hperm) as (o & Ho).
    exists (length a :: o). simpl. rewrite Ho. apply insert_at_app.
Qed.

Lemma store_all_union (kvs : list (string * list string)) (m : MIMEHeader) :
  NoDup kvs.*1 -> store_all m kvs = list_to_map kvs ∪ m.
Proof.
  revert m. induction kvs as [|[k v] kvs IH]; intros m Hnd.
  - simpl. now rewrite (left_id_L ∅ (∪)).
  - apply NoDup_cons in Hnd as [Hk Hnd].
    change (store_all m ((k, v) :: kvs)) with (store_all (<[k := v]> m) kvs).
    rewrite IH by exact Hnd.
    change (list_to_map ((k, v) :: kvs) : MIMEHeader)
      with (<[k := v]> (list_to_map kvs : MIMEHeader)).
    rewrite <- insert_union_l. symmetry. apply insert_union_r.
    now apply not_elem_of_list_to_map_1.
Qed.

Lemma store_all_list_to_map (kvs : list (string * list string)) :
  NoDup kvs.*1 -> store_all ∅ kvs = list_to_map kvs.
Proof.
  intros Hnd. rewrite store_all_union by exact Hnd.
  now rewrite (right_id_L ∅ (∪)).
Qed.

Lemma decodeMap_encodeMap o (m : MIMEHeader) rest :
  Z.of_nat (length (Gob.encodeMap o m)) < Gob.tooBig ->
  map_Forall (fun _ v => Z.of_nat (length v) <= sliceBound) m ->
  Gob.decodeMap (Gob.encodeMap o m ++ rest) ∅ = (m, Some rest).
Proof.
  intros Hlen Hb. unfold Gob.decodeMap, Gob.encodeMap in *.
  set (kvs := MapRange o m) in *.
  assert (Hperm : kvs ≡ₚ map_to_list m) by apply shuffle_perm.
  assert (Hsize : size m = length kvs).
  { rewrite <- length_map_to_list. now rewrite Hperm. }
  rewrite Hsize in *. rewrite length_app in Hlen.
  pose proof (concat_encEntry_length kvs) as Hc.
  change (map (fun kv => Gob.encString kv.1 ++ Gob.encStrings kv.2) kvs)
    with (map encEntry kvs) in *.
  unfold Gob.tooBig in *.
  rewrite <- app_assoc, decodeUint_encodeUint by lia.
  assert (Hs : (signed 64 (Z.of_nat (length kvs)) <? 0) = false).
  { unfold signed. destruct (Z.of_nat (length kvs) <? 2 ^ (64 - 1)) eqn:E.
    - apply Z.ltb_ge. lia.
    - apply Z.ltb_ge in E. simpl in E. lia. }
  rewrite Hs.
  rewrite decodeEntries_encoded.
  - f_equal. rewrite store_all_list_to_map.
    + rewrite (list_to_map_proper kvs (map_to_list m)); [apply list_to_map_to_list | | exact Hperm].
      rewrite Hperm. apply NoDup_fst_map_to_list.
    + rewrite Hperm. apply NoDup_fst_map_to_list.
  - unfold Gob.tooBig. lia.
  - rewrite Hperm. apply map_Forall_to_list in Hb.
    eapply Forall_impl; [exact Hb|]. intros [k v]. simpl. auto.
  - rewrite length_app. lia.
Qed.

(** ** The gob codec: times *)

#[local] Opaque be_bytes.

Lemma UnmarshalBinary_MarshalBinary t data :
  int64 (sec t) -> int32 (nsec t) ->
  MarshalBinary t = inl data -> UnmarshalBinary data = inl t.
Proof.
  unfold int64, int32. intros Hsec Hnsec. unfold MarshalBinary.
  set (off := match zone t with
              | None => Some (-1)
              | Some offset =>
                  if (offset <? -32768) || (offset =? -1) || (32767 <? offset)
                  then None else Some offset
              end).
  destruct off as [o|] eqn:Hoff; [|discriminate].
  intros H. injection H as Hd. subst data.
  assert (Ho : - 2 ^ 15 <= o < 2 ^ 15
               /\ zone t = (if o =? -1 then None else Some o)).
  { unfold off in Hoff. destruct (zone t) as [m|].
    - destruct (m <? -32768) eqn:E1; [discriminate|].
      destruct (m =? -1) eqn:E2; [discriminate|].
      destruct (32767 <? m) eqn:E3; [discriminate|].
      simpl in Hoff. inversion Hoff; subst o.
      apply Z.ltb_ge in E1. apply Z.ltb_ge in E3. rewrite E2. split; [lia | reflexivity].
    - inversion Hoff; subst o. split; [lia | reflexivity]. }
  destruct Ho as [Hrange Hzone].
  unfold UnmarshalBinary.
  change (Z_of_byte x01 =? 1) with true. cbn [negb].
  assert (Hlen : length (x01 :: be_bytes 8 (sec t) ++ be_bytes 4 (nsec t) ++ be_bytes 2 o)
                 = 15%nat).
  { cbn [length]. now rewrite !length_app, !be_bytes_length. }
  rewrite Hlen. cbn [Nat.eqb negb].
  rewrite take_be_bytes, drop_be_bytes, take_be_bytes.
  replace (drop 12 (be_bytes 8 (sec t) ++ be_bytes 4 (nsec t) ++ be_bytes 2 o))
    with (be_bytes 2 o).
  2:{ rewrite app_assoc. symmetry. apply drop_app_length'.
      now rewrite length_app, !be_bytes_length. }
  rewrite <- (app_nil_r (be_bytes 2 o)), take_be_bytes.
  rewrite !be_value_be_bytes.
  change (8 * Z.of_nat 8) with 64. change (8 * Z.of_nat 4) with 32.
  change (8 * Z.of_nat 2) with 16.
  rewrite !signed_unsigned by (simpl; lia).
  rewrite <- Hzone. destruct t; reflexivity.
Qed.

#[local] Transparent be_bytes.

(** ** The gob codec: the struct *)

Lemma decodeStruct_unfold fuel fieldnum buf v :
  buf <> [] ->
  Gob.decodeStruct (S fuel) fieldnum buf v
  = match Gob.decodeUint buf with
    | None => (v, Some (ErrGob "unexpected EOF"))
    | Some (u, rest) =>
        let delta := signed 64 u in
        if delta <? 0 then (v, Some (ErrGob "decode: corrupted data: negative delta"))
        else if delta =? 0 then (v, None)
        else if 5 - delta <=? fieldnum then (v, Some (ErrGob "field numbers out of bounds"))
        else
          match Gob.decField (fieldnum + delta) rest v with
          | (v', Some rest') => Gob.decodeStruct fuel (fieldnum + delta) rest' v'
          | (v', None) => (v', Some (ErrGob "decode: corrupted data"))
          end
    end.
Proof. destruct buf; [congruence | reflexivity]. Qed.

Lemma app_nonempty {A} (a b : list A) : (0 < length a)%nat -> a ++ b <> [].
Proof. destruct a; simpl; [lia | discriminate]. Qed.

Lemma decodeStruct_encFields fs :
  forall i prev v v' rest fuel,
    fields_ok i fs v v' ->
    -1 <= prev < i ->
    i + Z.of_nat (length fs) = 5 ->
    (length (Gob.encFields prev i fs ++ rest) <= fuel)%nat ->
    Gob.decodeStruct fuel prev (Gob.encFields prev i fs ++ rest) v = (v', None).
Proof.
  induction fs as [|[b|] fs IH]; intros i prev v v' rest fuel Hok Hprev Hi Hfuel.
  - simpl in Hok. subst v'. cbn [Gob.encFields] in *.
    destruct fuel as [|fuel].
    { rewrite length_app in Hfuel. pose proof (encodeUint_nonempty 0). lia. }
    rewrite decodeStruct_unfold by (apply app_nonempty, encodeUint_nonempty).
    rewrite decodeUint_encodeUint by lia. reflexivity.
  - destruct Hok as (v1 & Hdec & Hok). cbn [Gob.encFields length] in *.
    destruct fuel as [|fuel].
    { rewrite !length_app in Hfuel. pose proof (encodeUint_nonempty (i - prev)). lia. }
    rewrite <- !app_assoc in *.
    rewrite decodeStruct_unfold by (apply app_nonempty, encodeUint_nonempty).
    rewrite decodeUint_encodeUint by lia. cbv zeta.
    assert (Hs : signed 64 (i - prev) = i - prev).
    { unfold signed. destruct (i - prev <? 2 ^ (64 - 1)) eqn:E; [reflexivity|].
      apply Z.ltb_ge in E. simpl in E. lia. }
    rewrite Hs.
    destruct (i - prev <? 0) eqn:E1; [apply Z.ltb_lt in E1; lia|].
    destruct (i - prev =? 0) eqn:E2; [apply Z.eqb_eq in E2; lia|].
    destruct (5 - (i - prev) <=? prev) eqn:E3; [apply Z.leb_le in E3; lia|].
    replace (prev + (i - prev)) with i by lia.
    rewrite Hdec. apply IH; [exact Hok | lia | lia |].
    rewrite !length_app in Hfuel. rewrite length_app.
    pose proof (encodeUint_nonempty (i - prev)). lia.
  - cbn [Gob.encFields fields_ok length] in *. apply IH; [exact Hok | lia | lia | exact Hfuel].
Qed.

Lemma encFields_field_length fs b :
  forall prev i, In (Some b) fs -> (length b < length (Gob.encFields prev i fs))%nat.
Proof.
  induction fs as [|[c|] fs IH]; intros prev i Hin; simpl in Hin.
  - contradiction.
  - cbn [Gob.encFields]. rewrite !length_app. destruct Hin as [H|H].
    + inversion H; subst c. pose proof (encodeUint_nonempty (i - prev)). lia.
    + specialize (IH i (i + 1) H). lia.
  - cbn [Gob.encFields]. destruct Hin as [H|H]; [discriminate | now apply IH].
Qed.

(** ** The gob codec: a FileObject *)

Lemma decField_0 buf v :
  Gob.decField 0 buf v
  = match Gob.decString buf with
    | Some (s, rest) => (Gob.setFilename v s, Some rest)
    | None => (v, None)
    end.
Proof. reflexivity. Qed.

Lemma decField_1 buf v :
  Gob.decField 1 buf v
  = let '(m, r) := Gob.decodeMap buf (Header v) in (Gob.setHeader v m, r).
Proof. reflexivity. Qed.

Lemma decField_2 buf v :
  Gob.decField 2 buf v
  = match Gob.decodeInt buf with
    | Some (i, rest) => (Gob.setSize v i, Some rest)
    | None => (v, None)
    end.
Proof. reflexivity. Qed.

Lemma decField_3 buf v :
  Gob.decField 3 buf v
  = match Gob.decBytes buf with
    | Some (data, rest) =>
        match UnmarshalBinary data with
        | inl t => (Gob.setModtime v t, Some rest)
        | inr _ => (v, None)
        end
    | None => (v, None)
    end.
Proof. reflexivity. Qed.

Lemma decField_4 buf v :
  Gob.decField 4 buf v
  = match Gob.decBytes buf with
    | Some (b, rest) => (Gob.setContents v b, Some rest)
    | None => (v, None)
    end.
Proof. reflexivity. Qed.

Lemma string_length_0 s : (0 <? String.length s)%nat = false -> s = EmptyString.
Proof. destruct s; [reflexivity | discriminate]. Qed.

Lemma list_length_0 {A} (l : list A) : (0 <? length l)%nat = false -> l = [].
Proof. destruct l; [reflexivity | discriminate]. Qed.

Lemma Time_IsZero_eq t : Time_IsZero t = true -> t = zeroTime.
Proof.
  unfold Time_IsZero. destruct t as [s n [z|]]; simpl; intros H.
  - rewrite andb_false_r in H. discriminate.
  - rewrite andb_true_r in H. apply andb_true_iff in H as [Hs Hn].
    apply Z.eqb_eq in Hs. apply Z.eqb_eq in Hn. now subst.
Qed.

(** The fields of a valid value, as [encodeStruct] lays them out, decode
    into that value from the zero value. *)
Lemma fields_ok_encoded o v modtime :
  FileObject_valid v ->
  Gob.encModtime v = inl modtime ->
  Z.of_nat (length (Gob.encFields (-1) 0
                      [Gob.encFilename v; Gob.encHeader o v; Gob.encSize v;
                       modtime; Gob.encContents v])) < Gob.tooBig ->
  fields_ok 0 [Gob.encFilename v; Gob.encHeader o v; Gob.encSize v;
               modtime; Gob.encContents v] zeroFileObject v.
Proof.
  intros (Hsize & Hsec & Hnsec & Hvals) Hmod Hlen.
  assert (Hb : forall b,
             In (Some b) [Gob.encFilename v; Gob.encHeader o v; Gob.encSize v;
                          modtime; Gob.encContents v] ->
             Z.of_nat (length b) < Gob.tooBig).
  { intros b Hin. apply (encFields_field_length _ _ (-1) 0) in Hin. lia. }
  clear Hlen. destruct v as [fname hdr size mtime contents].
  unfold Gob.encFilename, Gob.encHeader, Gob.encSize, Gob.encContents in *.
  unfold Gob.encModtime in Hmod.
  cbn [Filename Header Size Modtime Contents] in *.
  (* Contents *)
  assert (H4 : fields_ok 4
                 [if (0 <? length contents)%nat then Some (Gob.encBytes contents) else None]
                 (mkFileObject fname hdr size mtime []) 
                 (mkFileObject fname hdr size mtime contents)).
  { destruct (0 <? length contents)%nat eqn:E.
    - eexists. split; [|reflexivity]. intros rest.
      rewrite decField_4, decBytes_encBytes; [reflexivity|].
      apply Hb. simpl. tauto.
    - apply list_length_0 in E. subst contents. reflexivity. }
  (* Modtime *)
  assert (H3 : fields_ok 3
                 [modtime;
                  if (0 <? length contents)%nat then Some (Gob.encBytes contents) else None]
                 (mkFileObject fname hdr size zeroTime []) 
                 (mkFileObject fname hdr size mtime contents)).
  { destruct (Time_IsZero mtime) eqn:E.
    - apply Time_IsZero_eq in E. subst mtime. inversion Hmod; subst modtime. exact H4.
    - destruct (MarshalBinary mtime) as [data|e] eqn:Hm; [|discriminate].
      inversion Hmod; subst modtime.
      eexists. split; [|exact H4]. intros rest.
      rewrite decField_3, decBytes_encBytes by (apply Hb; simpl; tauto).
      now rewrite (UnmarshalBinary_MarshalBinary mtime data Hsec Hnsec Hm). }
  (* Size *)
  assert (H2 : fields_ok 2
                 [if size =? 0 then None else Some (Gob.encodeInt size); modtime;
                  if (0 <? length contents)%nat then Some (Gob.encBytes contents) else None]
                 (mkFileObject fname hdr 0 zeroTime []) 
                 (mkFileObject fname hdr size mtime contents)).
  { destruct (size =? 0) eqn:E.
    - apply Z.eqb_eq in E. subst size. exact H3.
    - eexists. split; [|exact H3]. intros rest.
      now rewrite decField_2, decodeInt_encodeInt by exact Hsize. }
  (* Header *)
  assert (H1 : fields_ok 1
                 [Some (Gob.encodeMap o hdr);
                  if size =? 0 then None else Some (Gob.encodeInt size); modtime;
                  if (0 <? length contents)%nat then Some (Gob.encBytes contents) else None]
                 (mkFileObject fname ∅ 0 zeroTime []) 
                 (mkFileObject fname hdr size mtime contents)).
  { eexists. split; [|exact H2]. intros rest.
    rewrite decField_1. cbn [Header].
    rewrite decodeMap_encodeMap; [reflexivity | | exact Hvals].
    apply Hb. simpl. tauto. }
  (* Filename *)
  destruct (0 <? String.length fname)%nat eqn:E.
  - eexists. split; [|exact H1]. intros rest.
    rewrite decField_0, decString_encString; [reflexivity|].
    unfold Gob.encString. apply Hb. simpl. tauto.
  - apply string_length_0 in E. subst fname. exact H1.
Qed.

Lemma trimPrefix_app p l : Gob.trimPrefix p (p ++ l) = Some l.
Proof.
  induction p as [|a p IH]; simpl; [reflexivity|].
  now rewrite (Byte.byte_dec_lb eq_refl).
Qed.

Lemma encodeStruct_inl o v body :
  Gob.encodeStruct o v = inl body ->
  exists modtime,
    Gob.encModtime v = inl modtime
    /\ body = Gob.encFields (-1) 0
                [Gob.encFilename v; Gob.encHeader o v; Gob.encSize v;
                 modtime; Gob.encContents v].
Proof.
  unfold Gob.encodeStruct. destruct (Gob.encModtime v) as [modtime|e]; [|discriminate].
  intros H. exists modtime. split; [reflexivity | congruence].
Qed.

(** The struct of a valid value decodes into that value from the zero
    value. *)
Lemma decodeStruct_encodeStruct o v body :
  FileObject_valid v ->
  Gob.encodeStruct o v = inl body ->
  Z.of_nat (length body) < Gob.tooBig ->
  Gob.decodeStruct (length body) (-1) body zeroFileObject = (v, None).
Proof.
  intros Hvalid Hstruct Hlen.
  destruct (encodeStruct_inl o v body Hstruct) as (modtime & Hmod & Hbody).
  rewrite <- (app_nil_r body) at 2. rewrite Hbody at 2.
  apply decodeStruct_encFields with (i := 0).
  - apply fields_ok_encoded; [exact Hvalid | exact Hmod |]. now rewrite <- Hbody.
  - lia.
  - reflexivity.
  - rewrite <- Hbody, app_nil_r. lia.
Qed.

(** C7: decoding the bytes of an encoding gives the value back.  For
    every valid Attachment (integers within their Go types, header value
    lists within the bound of the decoder) that the encoder accepts, and
    for every order of the range over its header map, Decode on the
    encoded bytes, into a new FileObject, returns the value and no
    error. *)
Theorem C7_decode_encode (wireTypes : list byte) (tFileObject : Z)
    (o : MapOrder) (v : FileObject) :
  0 <= tFileObject < 2 ^ 31 ->
  FileObject_valid v ->
  (Gob.Encode wireTypes tFileObject o v).2 = None ->
  Gob.Decode wireTypes tFileObject (Gob.Encode wireTypes tFileObject o v).1
    zeroFileObject
  = (v, None).
Proof.
  intros Hid Hvalid. unfold Gob.Encode.
  destruct (Gob.encodeStruct o v) as [body|e] eqn:Hstruct; [|discriminate].
  cbv zeta.
  destruct (Gob.tooBig <=? Z.of_nat (length (Gob.encodeInt tFileObject ++ body)))
    eqn:Hbig; [discriminate|].
  intros _. cbn [fst]. apply Z.leb_gt in Hbig.
  rewrite length_app in Hbig.
  unfold Gob.Decode. rewrite trimPrefix_app.
  unfold Gob.tooBig in Hbig.
  rewrite decodeUint_encodeUint by (rewrite length_app; lia).
  unfold Gob.tooBig at 1.
  destruct (2 ^ 33 <=? Z.of_nat (length (Gob.encodeInt tFileObject ++ body))) eqn:E1;
    [apply Z.leb_le in E1; rewrite length_app in E1; lia|].
  rewrite Z.ltb_irrefl, Nat2Z.id, firstn_all.
  rewrite decodeInt_encodeInt by (unfold int64; lia).
  rewrite Z.mod_small by lia.
  assert (Hs : signed 32 tFileObject = tFileObject).
  { unfold signed. destruct (tFileObject <? 2 ^ (32 - 1)) eqn:E; [reflexivity|].
    apply Z.ltb_ge in E. simpl in E. lia. }
  rewrite Hs, Z.eqb_refl.
  apply (decodeStruct_encodeStruct o v body Hvalid Hstruct).
  unfold Gob.tooBig. lia.
Qed.

(** Two valid values with the same encoding are the same value: the
    encoded blob, whose digest is the AttachmentKey, covers every field. *)
Lemma Encode_injective (wireTypes : list byte) (tFileObject : Z)
    (o1 o2 : MapOrder) (v1 v2 : FileObject) :
  FileObject_valid v1 -> FileObject_valid v2 ->
  (Gob.Encode wireTypes tFileObject o1 v1).2 = None ->
  (Gob.Encode wireTypes tFileObject o2 v2).2 = None ->
  (Gob.Encode wireTypes tFileObject o1 v1).1
  = (Gob.Encode wireTypes tFileObject o2 v2).1 ->
  v1 = v2.
Proof.
  intros Hv1 Hv2. unfold Gob.Encode.
  destruct (Gob.encodeStruct o1 v1) as [body1|e] eqn:Hs1; [|discriminate].
  destruct (Gob.encodeStruct o2 v2) as [body2|e] eqn:Hs2; [|discriminate].
  cbv zeta.
  destruct (Gob.tooBig <=? Z.of_nat (length (Gob.encodeInt tFileObject ++ body1)))
    eqn:Hb1; [discriminate|].
  destruct (Gob.tooBig <=? Z.of_nat (length (Gob.encodeInt tFileObject ++ body2)))
    eqn:Hb2; [discriminate|].
  intros _ _. cbn [fst]. intros Heq.
  apply Z.leb_gt in Hb1. apply Z.leb_gt in Hb2. unfold Gob.tooBig in Hb1, Hb2.
  apply app_inv_head in Heq.
  apply (f_equal Gob.decodeUint) in Heq.
  rewrite !decodeUint_encodeUint in Heq by lia.
  injection Heq as _ Hmsg. apply app_inv_head in Hmsg. subst body2.
  rewrite length_app in Hb1.
  assert (Hlen : Z.of_nat (length body1) < Gob.tooBig) by (unfold Gob.tooBig; lia).
  pose proof (decodeStruct_encodeStruct o1 v1 body1 Hv1 Hs1 Hlen) as H1.
  pose proof (decodeStruct_encodeStruct o2 v2 body1 Hv2 Hs2 Hlen) as H2.
  congruence.
Qed.

(** In particular the blob changes with the time stamped into it. *)
Lemma Encode_time_sensitive (wireTypes : list byte) (tFileObject : Z)
    (e1 e2 : FileEnv) (fh : multipart.FileHeader) :
  FileObject_valid (attachment e1 fh) -> FileObject_valid (attachment e2 fh) ->
  (Gob.Encode wireTypes tFileObject (order e1) (attachment e1 fh)).2 = None ->
  (Gob.Encode wireTypes tFileObject (order e2) (attachment e2 fh)).2 = None ->
  now e1 <> now e2 ->
  EncodedAttachmentBlob wireTypes tFileObject e1 fh
  <> EncodedAttachmentBlob wireTypes tFileObject e2 fh.
Proof.
  intros Hv1 Hv2 Hok1 Hok2 Hnow Heq. apply Hnow.
  unfold EncodedAttachmentBlob in Heq.
  apply (Encode_injective _ _ _ _ _ _ Hv1 Hv2 Hok1 Hok2) in Heq.
  unfold attachment in Heq. congruence.
Qed.

(** ** The stored pairs always hold a slash *)

Lemma uploadFiles_pairs_wf wireTypes tFileObject env i files b pairs b' :
  uploadFiles_list wireTypes tFileObject env i files b = (inl pairs, b') ->
  Forall (fun f => has_char "/" f = true) pairs.
Proof.
  revert i b pairs b'. induction files as [|fh files IH]; intros i b pairs b' H.
  - simpl in H. inversion H. constructor.
  - simpl in H. destruct (NewFileObject _ fh _) as [fo|err]; [|discriminate].
    destruct (UploadObject _ _ _ _ _)
      as [[k [e|]] b1]; [discriminate|].
    destruct (uploadFiles_list wireTypes tFileObject env (S i) files b1) as [[ps|r] b2] eqn:Hrest;
      [|discriminate].
    inversion H; subst. constructor; [apply Sprintf_pair_has_slash|].
    eapply IH. exact Hrest.
Qed.

Lemma SubmitUpload_files_wf now fault d body pairs :
  files_wf d -> Forall (fun f => has_char "/" f = true) pairs ->
  files_wf (SubmitUpload now fault d body pairs).2.
Proof.
  intros Hwf Hp. unfold SubmitUpload, execInsert, files_wf in *.
  destruct fault as [[c|m]|].
  - destruct (String.eqb c "23505"); exact Hwf.
  - exact Hwf.
  - destruct (hash_taken d _); cbn [snd Uploads]; [exact Hwf|].
    apply Forall_app. split; [exact Hwf|]. constructor; [exact Hp | constructor].
Qed.

(** Every table the submit handler leaves behind keeps the invariant
    that [GetUpload] relies on. *)
Lemma handleSubmit_files_wf wireTypes tFileObject baseurl env w form resp w' :
  files_wf (db w) ->
  handleSubmit wireTypes tFileObject baseurl env w form = Return (resp, w') ->
  files_wf (db w').
Proof.
  intros Hwf. unfold handleSubmit. destruct form as [form|]; [|discriminate].
  destruct (default [] (multipart.Value form !! "body"%string) !! 0%nat) as [body|];
    [|discriminate].
  cbv zeta. rewrite uploadFiles_replicate.
  destruct (uploadFiles_list _ _ _ _ _ _) as [[pairs|r] b] eqn:Hup.
  - pose proof (SubmitUpload_files_wf (insert_now env) (insert_fault env) (db w) body pairs
                  Hwf (uploadFiles_pairs_wf _ _ _ _ _ _ _ _ Hup)) as Hwf'.
    destruct (SubmitUpload _ _ _ _ _) as [[hash [err|]] d].
    + intros H. inversion H; subst. exact Hwf'.
    + destruct (slice_to hash 10); [|discriminate].
      intros H. inversion H; subst. exact Hwf'.
  - intros H. inversion H; subst. exact Hwf.
Qed.

(** ** The theorems at concrete inputs *)

Lemma calmEnv_no_errors t o (k n : nat) :
  (k < n)%nat -> no_file_errors (file_env (calmEnv t o) k).
Proof. intros _. repeat split. Defined.

(** C1 at a concrete input: "hello world" with one attachment, submitted
    twice with the clock and the map order unchanged. *)
Lemma C1_resubmission_witness :
  let hash := submissionHash sampleWireTypes 65 (calmEnv sampleTime1 [])
                "hello world" [sampleFile] in
  exists w1 w2,
    Submit sampleWireTypes 65 sampleBaseurl (calmEnv sampleTime1 []) emptyWorld
      "hello world" [sampleFile]
    = Return (uploaded sampleBaseurl (shortHash hash), w1)
    /\ Submit sampleWireTypes 65 sampleBaseurl (calmEnv sampleTime1 []) w1
         "hello world" [sampleFile]
       = Return (uploaded sampleBaseurl (shortHash hash), w2)
    /\ Uploads (db w2) = Uploads (db w1).
Proof.
  destruct (C1_resubmission_same_encoding sampleWireTypes 65 sampleBaseurl
              (calmEnv sampleTime1 []) (calmEnv sampleTime1 []) emptyWorld
              "hello world" [sampleFile])
    as (w1 & w2 & H1 & H2 & H3 & _).
  - intros k Hk. repeat split.
  - reflexivity.
  - reflexivity.
  - exists w1, w2. repeat split; assumption.
Defined.

(** C3 at a concrete input: an attachment with one header key, encoded
    under two orders. *)
Lemma C3_encoding_witness :
  let v := attachment (mkFileEnv sampleTime1 [] None None None None)
             sampleFileOneHeader in
  Gob.Encode sampleWireTypes 65 [] v = Gob.Encode sampleWireTypes 65 [1%nat] v.
Proof.
  apply C3_encoding_fixed_up_to_map_order. vm_compute. lia.
Defined.

(** C4 at a concrete input. *)
Lemma C4_submission_hash_witness :
  let hash := submissionHash sampleWireTypes 65 (calmEnv sampleTime1 [])
                "hello world" [sampleFile] in
  exists w',
    Submit sampleWireTypes 65 sampleBaseurl (calmEnv sampleTime1 []) emptyWorld
      "hello world" [sampleFile]
    = Return (uploaded sampleBaseurl (shortHash hash), w')
    /\ (exists r, In r (Uploads (db w')) /\ row_hash r = hash).
Proof.
  destruct (C4_submission_hash sampleWireTypes 65 sampleBaseurl
              (calmEnv sampleTime1 []) emptyWorld "hello world" [sampleFile])
    as (w' & H1 & H2 & _).
  - intros k Hk. repeat split.
  - reflexivity.
  - exists w'. split; assumption.
Defined.

(** C5 at a concrete input: "hello world" is stored already; and a
    connection error. *)
Lemma C5_unique_violation_witness :
  (SubmitUpload 1700000000 None sampleDB "hello world" []).1
  = (sha1hex (bytes_of_string "hello world" ++ bytes_of_string (Join [])), None)
  /\ Uploads (SubmitUpload 1700000000 None sampleDB "hello world" []).2
     = Uploads sampleDB
  /\ SubmitUpload 1700000000 (Some (ConnError "connection refused")) sampleDB
       "hello world" []
     = ((EmptyString, Some (ErrDB (ConnError "connection refused"))), sampleDB).
Proof.
  destruct (C5_unique_violation_absorbed 1700000000 sampleDB "hello world" [])
    as [Htaken Hother].
  destruct Htaken as (H1 & H2 & _); [vm_compute; reflexivity|].
  split; [exact H1|]. split; [exact H2|].
  apply Hother. discriminate.
Defined.

Lemma validPrefix_2aae6c35c9 : validPrefix "2aae6c35c9".
Proof. split; [simpl; lia | reflexivity]. Defined.

Lemma validPrefix_0123456789 : validPrefix "0123456789".
Proof. split; [simpl; lia | reflexivity]. Defined.

Lemma sampleDB_files_wf : files_wf sampleDB.
Proof. repeat constructor. Defined.

(** C6 at concrete inputs: a short argument, an argument that matches no
    row and one that matches the stored row. *)
Lemma C6_prefix_lookup_witness :
  GetUpload None [] sampleDB "9chars!!!" = Return (None, Some ErrHashInvalid)
  /\ GetUpload None [] sampleDB "0123456789" = Return (None, Some ErrNoRows)
  /\ exists upload row,
       GetUpload None [] sampleDB "2aae6c35c9" = Return (Some upload, None)
       /\ has_prefix "2aae6c35c9" (Hash upload) = true
       /\ In row (Uploads sampleDB)
       /\ (exists before after,
             shuffle [] (Uploads sampleDB) = before ++ row :: after
             /\ Forall (fun r => has_prefix "2aae6c35c9" (row_hash r) = false) before)
       /\ Id upload = row_id row /\ Hash upload = row_hash row
       /\ Body upload = row_body row /\ Timestamp upload = row_timestamp row
       /\ separate_list (row_files row) = Some (FileNames upload, FileHashes upload).
Proof.
  split; [|split].
  - apply (proj1 (C6_GetUpload_prefix_lookup None [] sampleDB "9chars!!!")).
    left. simpl. lia.
  - apply (proj1 (proj2 (C6_GetUpload_prefix_lookup None [] sampleDB "0123456789"))).
    + exact validPrefix_0123456789.
    + repeat constructor.
  - apply (proj2 (proj2 (C6_GetUpload_prefix_lookup None [] sampleDB "2aae6c35c9"))).
    + exact validPrefix_2aae6c35c9.
    + exact sampleDB_files_wf.
    + constructor. reflexivity.
Defined.

Lemma sample_valid :
  FileObject_valid
    (attachment (mkFileEnv sampleTime1 [] None None None None) sampleFile).
Proof.
  unfold FileObject_valid, int64, int32, sliceBound. simpl.
  split; [lia|]. split; [lia|]. split; [lia|].
  apply map_Forall_insert_2; [simpl; lia|].
  apply map_Forall_insert_2; [simpl; lia|].
  apply map_Forall_empty.
Defined.

(** C7 at a concrete input: the sample attachment, its two header keys
    ranged over in the other order. *)
Lemma C7_decode_encode_witness :
  let v := attachment (mkFileEnv sampleTime1 [] None None None None) sampleFile in
  Gob.Decode sampleWireTypes 65 (Gob.Encode sampleWireTypes 65 [1%nat] v).1
    zeroFileObject
  = (v, None).
Proof.
  apply C7_decode_encode.
  - lia.
  - exact sample_valid.
  - vm_compute. reflexivity.
Defined.

(** C8 at a concrete input: the upload of the second of three
    attachments fails. *)
Lemma C8_failed_upload_witness :
  exists err w',
    Submit sampleWireTypes 65 sampleBaseurl secondUploadFails emptyWorld
      "hello world" [sampleFileOneHeader; sampleFileB; sampleFileC]
    = Return ([JSON_message 500 err], w')
    /\ db w' = db emptyWorld.
Proof.
  apply (C8_failed_upload_no_record sampleWireTypes 65 sampleBaseurl
           secondUploadFails emptyWorld "hello world"
           [sampleFileOneHeader; sampleFileB; sampleFileC] 1
           (ErrAWS false "RequestTimeout")).
  - simpl. lia.
  - reflexivity.
Defined.

(** The same submission, evaluated: the answer is the error of the
    second upload, no record exists, and the blob of the first
    attachment is in the bucket. *)
Example partial_failure_leaves_first_blob :
  match Submit sampleWireTypes 65 sampleBaseurl secondUploadFails emptyWorld
          "hello world" [sampleFileOneHeader; sampleFileB; sampleFileC] with
  | Return (resp, w') =>
      resp = [JSON_message 500
                (Errorf "S3 object upload failed: %v" [] (ErrAWS false "RequestTimeout"))]
      /\ Uploads (db w') = []
      /\ map fst (map_to_list (s3 w'))
         = [AttachmentKey sampleWireTypes 65 (file_env secondUploadFails 0)
              sampleFileOneHeader]
  | Panics _ => False
  end.
Proof. vm_compute. split; [reflexivity|]. split; reflexivity. Qed.

Lemma validPrefix_60daa98eb0 : validPrefix "60daa98eb0".
Proof. split; [simpl; lia | reflexivity]. Defined.

(** C10 at a concrete input: of the two stored pairs, the one for
    "a.txt" comes back as it was built, the one for "dir/c.txt" does
    not. *)
Lemma C10_splits_pairs_witness :
  exists upload,
    GetUpload None [] sampleDB2 "60daa98eb0" = Return (Some upload, None)
    /\ FileNames upload !! 0%nat = Some "a.txt"%string
    /\ FileHashes upload !! 0%nat = Some (sha1hex (bytes_of_string "abc"))
    /\ ~ (FileNames upload !! 1%nat = Some "dir/c.txt"%string
          /\ FileHashes upload !! 1%nat = Some (sha1hex (bytes_of_string "f"))).
Proof.
  destruct (C10_GetUpload_splits_pairs [] sampleDB2 "60daa98eb0"
              (mkRow 1 "60daa98eb08f5c97f7f0da9253dd1347992ae287" "hello world"
                 (storedPairs sampleFiles) 1600000000) sampleFiles)
    as (upload & Hget & Hiff).
  - exact validPrefix_60daa98eb0.
  - reflexivity.
  - reflexivity.
  - exists upload. split; [exact Hget|].
    destruct (proj2 (Hiff 0%nat "  a.txt "%string (bytes_of_string "abc") eq_refl))
      as [Hn Hk]; [reflexivity|].
    split; [exact Hn|]. split; [exact Hk|].
    intros H.
    apply (proj1 (Hiff 1%nat "dir/c.txt"%string (bytes_of_string "f") eq_refl)) in H.
    discriminate H.
Defined.

(** ** The scenarios of the specification, evaluated *)

Example validation_boundaries :
  GetUpload None [] sampleDB "" = Return (None, Some ErrHashInvalid)
  /\ GetUpload None [] sampleDB "9chars!!!" = Return (None, Some ErrHashInvalid)
  /\ GetUpload None [] sampleDB "g0000000000" = Return (None, Some ErrHashInvalid)
  /\ GetUpload None [] sampleDB "0123456789" = Return (None, Some ErrNoRows).
Proof. repeat split. Qed.

(** Two rows whose hashes share a prefix: which of them a lookup by the
    prefix returns follows the order in which the query returns the
    rows. *)
Example tie_break_follows_row_order :
  (exists upload, GetUpload None [] sampleDBtie "2aae6c35c9"
                  = Return (Some upload, None) /\ Id upload = 1)
  /\ (exists upload, GetUpload None [1%nat] sampleDBtie "2aae6c35c9"
                     = Return (Some upload, None) /\ Id upload = 2).
Proof. split; eexists; split; reflexivity. Qed.

Example sha1_empty :
  sha1hex [] = "da39a3ee5e6b4b0d3255bfef95601890afd80709"%string.
Proof. vm_compute. reflexivity. Qed.

Example sha1_abc :
  sha1hex (bytes_of_string "abc")
  = "a9993e364706816aba3e25717850c26c9cd0d89d"%string.
Proof. vm_compute. reflexivity. Qed.

Example sha1_two_blocks :
  sha1hex (bytes_of_string
    "abcdbcdecdefdefgefghfghighijhijkijkljklmklmnlmnomnopnopq")
  = "84983e441c3bd26ebaae4aa1f95129e5e54670f1"%string.
Proof. vm_compute. reflexivity. Qed.

Example gob_integers :
  Gob.encodeUint 7 = [x07]
  /\ Gob.encodeUint 256 = [xfe; x01; x00]
  /\ Gob.encodeInt (-129) = [xfe; x01; x01]
  /\ Gob.encodeInt 65 = [xff; x82].
Proof. repeat split. Qed.

Example TrimSpace_examples :
  TrimSpace "  a b 	" = "a b"%string
  /\ TrimSpace "report.pdf" = "report.pdf"%string.
Proof. repeat split. Qed.

(** The end-to-end scenario: a submission, the lookup of its short hash
    and the download of its attachment. *)
Example end_to_end_scenario :
  match Submit sampleWireTypes 65 sampleBaseurl (calmEnv sampleTime1 [1%nat])
          emptyWorld "hello world" [sampleFile] with
  | Return ([JSON_uploaded 200 id _ _], w) =>
      String.length id = 10%nat
      /\ match GetUpload None [] (db w) id with
         | Return (Some upload, None) =>
             Body upload = "hello world"%string
             /\ FileNames upload = ["a.txt"%string]
             /\ match FileHashes upload with
                | [key] =>
                    handleDownload sampleWireTypes 65 None w key
                    = [SetHeader "Content-Disposition" "attachment; filename=a.txt";
                       ServeContent "a.txt" sampleTime1 (bytes_of_string "abc")]
                | _ => False
                end
         | _ => False
         end
  | _ => False
  end.
Proof. vm_compute. split; [reflexivity|]. split; [reflexivity|]. split; reflexivity. Qed.

(** * Further properties of the store *)

Lemma has_prefix_refl s : has_prefix s s = true.
Proof.
  induction s as [|c s IH]; simpl; [reflexivity|].
  now rewrite Ascii.eqb_refl.
Qed.

Lemma has_prefix_same_length p s :
  String.length p = String.length s -> has_prefix p s = true -> p = s.
Proof.
  revert s. induction p as [|a p IH]; intros [|b s]; simpl; try easy.
  intros [= Hlen] H. apply andb_true_iff in H as [Hab H].
  apply Ascii.eqb_eq in Hab. subst. f_equal. auto.
Qed.

Lemma has_prefix_all_chars P p s :
  has_prefix p s = true -> all_chars P s = true -> all_chars P p = true.
Proof.
  revert s. induction p as [|a p IH]; intros [|b s]; simpl; try easy.
  intros H Hs. apply andb_true_iff in H as [Hab H].
  apply andb_true_iff in Hs as [Hb Hs].
  apply Ascii.eqb_eq in Hab. subst. rewrite Hb. simpl. eauto.
Qed.

Lemma has_prefix_substring n s :
  has_prefix (String.substring 0 n s) s = true.
Proof.
  revert s. induction n as [|n IH]; intros [|c s]; simpl; try reflexivity.
  now rewrite Ascii.eqb_refl, IH.
Qed.

Lemma all_chars_substring P n s :
  all_chars P s = true -> all_chars P (String.substring 0 n s) = true.
Proof. apply has_prefix_all_chars, has_prefix_substring. Qed.

(** A test that one element only passes finds that element, in
    whatever order the list is searched. *)
Lemma find_unique {A} (p : A -> bool) l x :
  In x l -> p x = true ->
  (forall y, In y l -> p y = true -> y = x) ->
  find p l = Some x.
Proof.
  induction l as [|a l IH]; simpl; [easy|]. intros Hin Hp Hu.
  destruct (p a) eqn:Ha.
  - f_equal. apply Hu; [now left|exact Ha].
  - destruct Hin as [->|Hin]; [congruence|]. apply IH; auto.
Qed.

Lemma find_shuffle_unique {A} (p : A -> bool) o l x :
  In x l -> p x = true ->
  (forall y, In y l -> p y = true -> y = x) ->
  find p (shuffle o l) = Some x.
Proof.
  intros Hin Hp Hu. apply find_unique; [now apply shuffle_In|exact Hp|].
  intros y Hy. apply Hu. now apply shuffle_In in Hy.
Qed.

Lemma find_shuffle_some {A} (p : A -> bool) o l :
  Exists (fun x => p x = true) l ->
  exists x, find p (shuffle o l) = Some x /\ In x l /\ p x = true.
Proof.
  intros Hex.
  destruct (find_some_Exists p _ (shuffle_Exists _ o _ Hex)) as (x & Hf & Hin & Hp).
  exists x. split; [exact Hf|]. split; [now apply shuffle_In in Hin|exact Hp].
Qed.

Lemma find_shuffle_In {A} (p : A -> bool) o l x :
  find p (shuffle o l) = Some x -> In x l /\ p x = true.
Proof.
  intros H. apply find_some in H as [Hin Hp]. split; [|exact Hp].
  now apply shuffle_In in Hin.
Qed.

Lemma NoDup_map_eq {A B} (f : A -> B) l x y :
  NoDup (map f l) -> In x l -> In y l -> f x = f y -> x = y.
Proof.
  induction l as [|a l IH]; simpl; [easy|]. intros Hnd Hx Hy Heq.
  apply NoDup_cons in Hnd as [Ha Hnd].
  destruct Hx as [->|Hx], Hy as [->|Hy]; auto.
  - exfalso. apply Ha. rewrite Heq. apply list_elem_of_In. now apply in_map.
  - exfalso. apply Ha. rewrite <- Heq. apply list_elem_of_In. now apply in_map.
Qed.

(** The second part of a split exists exactly when the separator
    occurs. *)
Lemma Split_second s :
  (exists k, Split s "/" !! 1%nat = Some k) <-> has_char "/" s = true.
Proof.
  split.
  - intros [k Hk]. destruct (has_char "/" s) eqn:H; [reflexivity|].
    rewrite (Split_absent _ _ H) in Hk. discriminate.
  - intros H. destruct (Split_present _ _ H) as (a & b & rest & ->). eauto.
Qed.

Lemma separate_list_Some files :
  (exists names keys, separate_list files = Some (names, keys))
  <-> Forall (fun f => has_char "/" f = true) files.
Proof.
  split; [|apply separate_wf].
  induction files as [|f files IH]; [constructor|].
  intros (names & keys & H). cbn [separate_list] in H.
  destruct (Split f "/" !! 0%nat) as [n|]; [|discriminate].
  destruct (Split f "/" !! 1%nat) as [k|] eqn:Hk; [|discriminate].
  cbn in H. destruct (separate_list files) as [[ns ks]|]; [|discriminate].
  constructor; [apply Split_second; eauto|]. apply IH. eauto.
Qed.

Lemma separate_list_None files :
  separate_list files = None
  <-> Exists (fun f => has_char "/" f = false) files.
Proof.
  destruct (separate_list files) as [[ns ks]|] eqn:H.
  - split; [discriminate|]. intros Hex.
    assert (Hall : Forall (fun f => has_char "/" f = true) files)
      by (apply separate_list_Some; eauto).
    apply List.Exists_exists in Hex as (f & Hin & Hf).
    rewrite List.Forall_forall in Hall. apply Hall in Hin. congruence.
  - split; [intros _|reflexivity].
    destruct (List.Forall_Exists_dec (fun f => has_char "/" f = true)
                (fun f => bool_dec (has_char "/" f) true) files) as [Hall|Hex].
    + apply separate_list_Some in Hall as (? & ? & ?). congruence.
    + eapply List.Exists_impl; [|exact Hex]. intros f Hf.
      now apply not_true_is_false.
Qed.

Lemma separate_list_length files names keys :
  separate_list files = Some (names, keys) ->
  length names = length files /\ length keys = length files.
Proof.
  revert names keys. induction files as [|f files IH]; intros names keys H.
  - now inversion H.
  - cbn [separate_list] in H.
    destruct (Split f "/" !! 0%nat) as [n|]; [|discriminate].
    destruct (Split f "/" !! 1%nat) as [k|]; [|discriminate].
    cbn in H. destruct (separate_list files) as [[ns ks]|]; [|discriminate].
    inversion H; subst. destruct (IH ns ks eq_refl). simpl. lia.
Qed.

(** The hashes of a table that keeps the digest invariant. *)
Lemma digest_length body files : String.length (digest body files) = 40%nat.
Proof. apply sha1hex_length. Qed.

Lemma digest_lower body files : all_chars isLowerHex (digest body files) = true.
Proof. apply sha1hex_lower. Qed.

Lemma digest_valid body files : validPrefix (digest body files).
Proof.
  split; [rewrite digest_length; lia|apply sha1hex_valid].
Qed.

Lemma hashes_digest_length d r :
  hashes_digest d -> In r (Uploads d) -> String.length (row_hash r) = 40%nat.
Proof.
  intros H Hin. unfold hashes_digest in H. rewrite List.Forall_forall in H.
  rewrite (H r Hin). apply digest_length.
Qed.

(** A stored hash that begins with a string of 40 characters is that
    string. *)
Lemma full_hash_eq d hash r :
  hashes_digest d -> String.length hash = 40%nat -> In r (Uploads d) ->
  has_prefix hash (row_hash r) = true -> row_hash r = hash.
Proof.
  intros Hd Hlen Hin Hp. symmetry. apply has_prefix_same_length; [|exact Hp].
  rewrite Hlen. symmetry. now apply hashes_digest_length with d.
Qed.

Lemma hash_taken_false d hash :
  hash_taken d hash = false
  <-> Forall (fun r => String.eqb (row_hash r) hash = false) (Uploads d).
Proof.
  unfold hash_taken. induction (Uploads d) as [|a l IH]; simpl.
  - split; [constructor|reflexivity].
  - rewrite orb_false_iff, IH. split.
    + intros [? ?]. now constructor.
    + intros H. inversion H; subst. tauto.
Qed.

Lemma files_wf_In d r :
  files_wf d -> In r (Uploads d) ->
  exists names keys, separate_list (row_files r) = Some (names, keys).
Proof.
  intros H Hin. unfold files_wf in H. rewrite List.Forall_forall in H.
  apply separate_wf. now apply H.
Qed.

(** X1 (GetUpload, when it panics).  [GetUpload] panics exactly when
    its argument passes the validation, the query yields a row, and an
    entry of the row's files holds no slash; the panic is that of
    indexing [parts[1]].  On a table whose files entries all hold a
    slash it returns for every argument. *)
Theorem GetUpload_panics_iff fault scan d hash msg :
  GetUpload fault scan d hash = Panics msg
  <-> validPrefix hash /\ msg = "index out of range"%string
      /\ exists row, queryRow fault scan d hash = inl row
           /\ Exists (fun f => has_char "/" f = false) (row_files row).
Proof.
  split.
  - intros H. assert (Hv : validPrefix hash).
    { unfold GetUpload in H. unfold validPrefix.
      destruct (String.length hash <? 10)%nat eqn:E1; [discriminate|].
      destruct (40 <? String.length hash)%nat eqn:E2; [discriminate|].
      destruct (isValidHex hash); [|discriminate].
      apply Nat.ltb_ge in E1, E2. lia. }
    split; [exact Hv|]. rewrite (GetUpload_valid _ _ _ _ Hv) in H.
    destruct (queryRow fault scan d hash) as [row|err]; [|discriminate].
    destruct (separate_list (row_files row)) as [[ns ks]|] eqn:Hs; [discriminate|].
    inversion H. split; [reflexivity|]. exists row. split; [reflexivity|].
    now apply separate_list_None.
  - intros (Hv & -> & row & Hq & Hex). rewrite (GetUpload_valid _ _ _ _ Hv), Hq.
    apply separate_list_None in Hex. now rewrite Hex.
Qed.

(** X2 (GetUpload, an unambiguous prefix).  A record that a lookup
    has returned is returned again by a lookup of any valid prefix of
    its hash that at most one stored row matches, in whatever order
    either query returns the rows; in particular by an extension of
    the prefix it was found by. *)
Theorem GetUpload_unambiguous_prefix scan1 scan2 d p q u :
  validPrefix q ->
  GetUpload None scan1 d p = Return (Some u, None) ->
  has_prefix q (Hash u) = true ->
  (forall r r', In r (Uploads d) -> In r' (Uploads d) ->
     has_prefix q (row_hash r) = true -> has_prefix q (row_hash r') = true ->
     r = r') ->
  GetUpload None scan2 d q = Return (Some u, None).
Proof.
  intros Hq H Hqu Huniq.
  assert (Hp : validPrefix p).
  { unfold GetUpload in H. unfold validPrefix.
    destruct (String.length p <? 10)%nat eqn:E1; [discriminate|].
    destruct (40 <? String.length p)%nat eqn:E2; [discriminate|].
    destruct (isValidHex p); [|discriminate].
    apply Nat.ltb_ge in E1, E2. lia. }
  rewrite (GetUpload_valid _ _ _ _ Hp) in H. rewrite (GetUpload_valid _ _ _ _ Hq).
  unfold queryRow in *.
  destruct (find _ (shuffle scan1 (Uploads d))) as [row|] eqn:Hf; [|discriminate].
  destruct (separate_list (row_files row)) as [[ns ks]|] eqn:Hs; [|discriminate].
  inversion H; subst u. cbn [Hash] in Hqu.
  apply find_shuffle_In in Hf as [Hin _].
  rewrite (find_shuffle_unique (fun r => has_prefix q (row_hash r)) scan2 _ row Hin Hqu).
  - now rewrite Hs.
  - intros y Hy Hyq. now apply Huniq.
Qed.

(** X3 (GetUpload, by the full hash).  In a table that keeps its
    invariant every stored record is retrieved by its full hash, in
    whatever order the query returns the rows: the
    model returned carries the record's id, hash, body and timestamp,
    and its files split at the first and second slash-separated
    parts. *)
Theorem GetUpload_full_hash scan d r :
  table_ok d -> In r (Uploads d) ->
  exists names keys,
    separate_list (row_files r) = Some (names, keys)
    /\ GetUpload None scan d (row_hash r)
       = Return (Some (modelOf r names keys), None).
Proof.
  intros (Hu & Hd & _ & Hw) Hin.
  destruct (files_wf_In _ _ Hw Hin) as (names & keys & Hs).
  exists names, keys. split; [exact Hs|].
  assert (Hlen : String.length (row_hash r) = 40%nat)
    by now apply hashes_digest_length with d.
  rewrite GetUpload_valid.
  - unfold queryRow.
    rewrite (find_shuffle_unique (fun x => has_prefix (row_hash r) (row_hash x))
               scan _ r Hin (has_prefix_refl _)).
    + now rewrite Hs.
    + intros y Hy Hp. apply (NoDup_map_eq row_hash _ _ _ Hu Hy Hin).
      now apply full_hash_eq with d.
  - unfold hashes_digest in Hd. rewrite List.Forall_forall in Hd.
    rewrite (Hd r Hin). apply digest_valid.
Qed.

Lemma sampleDB_table_ok : table_ok sampleDB.
Proof.
  split; [apply NoDup_singleton|].
  split; [constructor; [vm_compute; reflexivity|constructor]|].
  split; [|repeat constructor].
  split; [apply NoDup_singleton|]. constructor; [cbn; lia|constructor].
Qed.

Lemma GetUpload_unambiguous_prefix_witness :
  GetUpload None [] sampleDBtie "2aae6c35c94fcf"
  = Return (Some (mkUploadModel 1 "2aae6c35c94fcfb415dbe95f408b9ce91ee846ed"
                    "hello world" [] [] 1600000000), None).
Proof.
  apply (GetUpload_unambiguous_prefix [] [] sampleDBtie "2aae6c35c9" "2aae6c35c94fcf").
  - split; [simpl; lia|reflexivity].
  - reflexivity.
  - reflexivity.
  - intros r r' [<-|[<-|[]]] [<-|[<-|[]]] H1 H2;
      try reflexivity; discriminate.
Defined.

Lemma GetUpload_full_hash_witness :
  exists names keys,
    separate_list [] = Some (names, keys)
    /\ GetUpload None [] sampleDB "2aae6c35c94fcfb415dbe95f408b9ce91ee846ed"
       = Return (Some (mkUploadModel 1 "2aae6c35c94fcfb415dbe95f408b9ce91ee846ed"
                         "hello world" names keys 1600000000), None).
Proof.
  apply (GetUpload_full_hash [] sampleDB
           (mkRow 1 "2aae6c35c94fcfb415dbe95f408b9ce91ee846ed" "hello world" []
              1600000000)).
  - exact sampleDB_table_ok.
  - now left.
Defined.

(** * The table under [SubmitUpload] *)

Lemma digest_concat body pairs :
  digest body pairs = sha1hex (bytes_of_string (body +:+ Join pairs)).
Proof. unfold digest. now rewrite bytes_of_string_app. Qed.

Lemma SubmitUpload_db now fault d body pairs :
  (SubmitUpload now fault d body pairs).2
  = match fault with
    | Some _ => d
    | None =>
        mkDB (if hash_taken d (digest body pairs) then Uploads d
              else Uploads d
                     ++ [mkRow (Uploads_id_seq d + 1) (digest body pairs) body pairs now])
             (Uploads_id_seq d + 1)
    end.
Proof.
  unfold SubmitUpload, execInsert, digest. destruct fault as [[c|m]|].
  - destruct (String.eqb c "23505"); reflexivity.
  - reflexivity.
  - destruct (hash_taken d _); reflexivity.
Qed.

Lemma SubmitUpload_returned now fault d body pairs hash d' :
  SubmitUpload now fault d body pairs = ((hash, None), d') ->
  hash = digest body pairs.
Proof.
  unfold SubmitUpload, execInsert, digest.
  generalize (sha1hex (bytes_of_string body ++ bytes_of_string (Join pairs))).
  intros h. destruct fault as [[c|m]|].
  - destruct (String.eqb c "23505"); intros H; inversion H; reflexivity.
  - intros H; inversion H.
  - destruct (hash_taken d h); intros H; inversion H; reflexivity.
Qed.

Lemma SubmitUpload_no_fault now d body pairs :
  (SubmitUpload now None d body pairs).1 = (digest body pairs, None).
Proof.
  unfold SubmitUpload, execInsert, digest. destruct (hash_taken d _); reflexivity.
Qed.

Lemma SubmitUpload_table_ok now fault d body pairs :
  table_ok d -> Forall (fun f => has_char "/" f = true) pairs ->
  table_ok (SubmitUpload now fault d body pairs).2.
Proof.
  intros Hok Hp. rewrite SubmitUpload_db. destruct fault as [e|]; [exact Hok|].
  destruct Hok as (Hu & Hd & (Hi1 & Hi2) & Hw).
  assert (Hi2' : Forall (fun r => row_id r <= Uploads_id_seq d + 1) (Uploads d)).
  { eapply List.Forall_impl; [|exact Hi2]. cbn beta. intros r Hr. lia. }
  destruct (hash_taken d (digest body pairs)) eqn:Ht.
  - repeat split; assumption.
  - unfold table_ok, hashes_unique, hashes_digest, ids_fresh, files_wf.
    cbn [Uploads Uploads_id_seq]. rewrite !map_app. cbn [map row_hash row_id].
    repeat split.
    + apply NoDup_app. split; [exact Hu|]. split; [|apply NoDup_singleton].
      intros x Hx Hx'. apply list_elem_of_In in Hx, Hx'.
      destruct Hx' as [<-|[]]. apply in_map_iff in Hx as (r & Hr & Hin).
      assert (hash_taken d (digest body pairs) = true); [|congruence].
      apply hash_taken_In. eauto.
    + apply Forall_app. split; [exact Hd|]. constructor; [reflexivity|constructor].
    + apply NoDup_app. split; [exact Hi1|]. split; [|apply NoDup_singleton].
      intros x Hx Hx'. apply list_elem_of_In in Hx, Hx'.
      destruct Hx' as [<-|[]]. apply in_map_iff in Hx as (r & Hr & Hin).
      rewrite List.Forall_forall in Hi2. apply Hi2 in Hin. lia.
    + apply Forall_app. split; [exact Hi2'|].
      constructor; [cbn [row_id]; lia|constructor].
    + apply Forall_app. split; [exact Hw|]. constructor; [exact Hp|constructor].
Qed.

Lemma table_ok_empty seq : table_ok (mkDB [] seq).
Proof.
  repeat split; try apply NoDup_nil_2; constructor.
Qed.

(** With a body in the form the handler returns: the hash it slices
    is a digest of 40 characters. *)
Lemma handleSubmit_returns wireTypes tFileObject baseurl env w form body rest :
  default [] (multipart.Value form !! "body"%string) = body :: rest ->
  exists r, handleSubmit wireTypes tFileObject baseurl env w (Some form) = Return r.
Proof.
  intros Hb. unfold handleSubmit. rewrite Hb. cbn [lookup list_lookup].
  cbv zeta. destruct (uploadFiles _ _ _ _ _ _ _) as [[pairs|r] b]; [|eauto].
  destruct (SubmitUpload _ _ _ _ _) as [[hash [err|]] d] eqn:Hs; [eauto|].
  apply SubmitUpload_returned in Hs. subst hash. unfold digest.
  rewrite slice_to_sha1hex. eauto.
Qed.

Lemma Submit_returns wireTypes tFileObject baseurl env w body attachments :
  exists r, Submit wireTypes tFileObject baseurl env w body attachments = Return r.
Proof.
  unfold Submit, submission. eapply handleSubmit_returns.
  cbn [multipart.Value]. rewrite lookup_singleton. reflexivity.
Qed.

(** X4 (POST /submit, the invariant of the table).  Whatever a
    [POST /submit] that returns does, it keeps the invariant of the
    table: no hash is stored twice, every stored hash is the digest of
    the body and files stored with it, the ids are distinct and none
    is above the last value of the sequence, and every files entry
    holds a slash. *)
Theorem handleSubmit_keeps_table_ok wireTypes tFileObject baseurl env w form resp w' :
  table_ok (db w) ->
  handleSubmit wireTypes tFileObject baseurl env w form = Return (resp, w') ->
  table_ok (db w').
Proof.
  intros Hok. unfold handleSubmit. destruct form as [form|]; [|discriminate].
  destruct (default [] (multipart.Value form !! "body"%string) !! 0%nat) as [body|];
    [|discriminate].
  cbv zeta. rewrite uploadFiles_replicate.
  destruct (uploadFiles_list _ _ _ _ _ _) as [[pairs|r] b] eqn:Hup.
  - pose proof (SubmitUpload_table_ok (insert_now env) (insert_fault env) (db w) body pairs
                  Hok (uploadFiles_pairs_wf _ _ _ _ _ _ _ _ Hup)) as Hok'.
    destruct (SubmitUpload _ _ _ _ _) as [[hash [err|]] d].
    + intros H. inversion H; subst. exact Hok'.
    + destruct (slice_to hash 10); [|discriminate].
      intros H. inversion H; subst. exact Hok'.
  - intros H. inversion H; subst. exact Hok.
Qed.

Lemma handleSubmit_keeps_table_ok_witness :
  exists resp w',
    Submit sampleWireTypes 65 sampleBaseurl (calmEnv sampleTime1 []) emptyWorld
      "hello world" [sampleFileOneHeader; sampleFileC]
    = Return (resp, w')
    /\ table_ok (db w').
Proof.
  destruct (Submit_returns sampleWireTypes 65 sampleBaseurl (calmEnv sampleTime1 [])
              emptyWorld "hello world" [sampleFileOneHeader; sampleFileC])
    as [[resp w'] E].
  exists resp, w'. split; [exact E|].
  apply (handleSubmit_keeps_table_ok sampleWireTypes 65 sampleBaseurl
           (calmEnv sampleTime1 []) emptyWorld
           (submission "hello world" [sampleFileOneHeader; sampleFileC]) resp w').
  - apply table_ok_empty.
  - exact E.
Defined.

(** X5 (SubmitUpload then GetUpload).  After [SubmitUpload] has
    returned the hash of a body and its pair strings, [GetUpload] on
    that hash returns a record with that hash, in whatever order the
    query returns the rows; when the hash was not stored before, it is
    the record just inserted: the next id, the body, the time of the
    insert, and the pair strings split into names and keys. *)
Theorem SubmitUpload_then_GetUpload scan now d body pairs :
  hashes_digest d -> files_wf d ->
  Forall (fun f => has_char "/" f = true) pairs ->
  let hash := digest body pairs in
  let d' := (SubmitUpload now None d body pairs).2 in
  (SubmitUpload now None d body pairs).1 = (hash, None)
  /\ exists u,
       GetUpload None scan d' hash = Return (Some u, None)
       /\ Hash u = hash
       /\ (hash_taken d hash = false ->
           Id u = Uploads_id_seq d + 1 /\ Body u = body /\ Timestamp u = now
           /\ separate_list pairs = Some (FileNames u, FileHashes u)).
Proof.
  intros Hd Hw Hp hash d'. split; [apply SubmitUpload_no_fault|].
  rewrite (GetUpload_valid _ _ _ _ (digest_valid body pairs)). unfold queryRow.
  subst d'. rewrite SubmitUpload_db. cbn [Uploads]. fold hash.
  assert (Hlen : String.length hash = 40%nat) by apply digest_length.
  destruct (hash_taken d hash) eqn:Ht.
  - apply hash_taken_In in Ht as (r & Hin & Hr).
    destruct (find_shuffle_some (fun r => has_prefix hash (row_hash r)) scan (Uploads d))
      as (x & Hf & Hx & Hxh).
    { apply List.Exists_exists. exists r. split; [exact Hin|].
      rewrite Hr. apply has_prefix_refl. }
    rewrite Hf. destruct (files_wf_In _ _ Hw Hx) as (names & keys & Hs).
    rewrite Hs. eexists. split; [reflexivity|]. cbn [Hash].
    split; [now apply full_hash_eq with d|discriminate].
  - destruct (separate_wf _ Hp) as (names & keys & Hs).
    rewrite (find_shuffle_unique (fun r => has_prefix hash (row_hash r)) scan _
               (mkRow (Uploads_id_seq d + 1) hash body pairs now)).
    + cbn [row_files]. rewrite Hs. eexists. split; [reflexivity|]. cbn. auto.
    + apply in_or_app. right. now left.
    + cbn [row_hash]. apply has_prefix_refl.
    + intros y Hy Hpy. apply in_app_or in Hy as [Hy|[<-|[]]]; [|reflexivity].
      exfalso. apply (full_hash_eq d hash y Hd Hlen Hy) in Hpy.
      apply hash_taken_false in Ht. rewrite List.Forall_forall in Ht.
      specialize (Ht y Hy). cbn beta in Ht. rewrite Hpy, String.eqb_refl in Ht.
      discriminate.
Qed.

Lemma SubmitUpload_then_GetUpload_witness :
  let pairs := storedPairs sampleFiles in
  let hash := digest "second" pairs in
  let d' := (SubmitUpload 1700000000 None sampleDB "second" pairs).2 in
  (SubmitUpload 1700000000 None sampleDB "second" pairs).1 = (hash, None)
  /\ exists u,
       GetUpload None [1%nat] d' hash = Return (Some u, None)
       /\ Hash u = hash
       /\ (hash_taken sampleDB hash = false ->
           Id u = Uploads_id_seq sampleDB + 1 /\ Body u = "second"%string
           /\ Timestamp u = 1700000000
           /\ separate_list pairs = Some (FileNames u, FileHashes u)).
Proof.
  apply (SubmitUpload_then_GetUpload [1%nat] 1700000000 sampleDB "second"
           (storedPairs sampleFiles)).
  - constructor; [vm_compute; reflexivity|constructor].
  - repeat constructor.
  - repeat constructor.
Defined.

(** X6 (SubmitUpload, what the hash covers).  The hash covers the body
    followed by the pair strings with nothing between them, so two
    submissions whose concatenations agree get the same hash: the
    second is taken for a duplicate of the first and adds no row,
    whatever its body and files are. *)
Theorem SubmitUpload_same_concatenation now1 now2 d body1 pairs1 body2 pairs2 :
  (body1 +:+ Join pairs1)%string = (body2 +:+ Join pairs2)%string ->
  let r1 := SubmitUpload now1 None d body1 pairs1 in
  let r2 := SubmitUpload now2 None r1.2 body2 pairs2 in
  r2.1 = r1.1 /\ Uploads r2.2 = Uploads r1.2.
Proof.
  intros Heq r1 r2.
  assert (Hdig : digest body2 pairs2 = digest body1 pairs1)
    by (rewrite !digest_concat; now rewrite Heq).
  assert (Ht : hash_taken r1.2 (digest body1 pairs1) = true).
  { subst r1. rewrite SubmitUpload_db.
    destruct (hash_taken d (digest body1 pairs1)) eqn:Ht.
    - unfold hash_taken in *. exact Ht.
    - rewrite hash_taken_app. cbn [row_hash]. rewrite String.eqb_refl.
      apply orb_true_r. }
  subst r2. rewrite (SubmitUpload_db now2 None r1.2 body2 pairs2).
  rewrite (SubmitUpload_no_fault now2 r1.2 body2 pairs2), Hdig, Ht.
  subst r1. rewrite (SubmitUpload_no_fault now1 d body1 pairs1).
  split; reflexivity.
Qed.

Lemma SubmitUpload_same_concatenation_witness :
  let r1 := SubmitUpload 1700000000 None (mkDB [] 0) "see "
              ["a.txt/5ba93c9db0cff93f52b521d7420e43f6eda2784f"%string] in
  let r2 := SubmitUpload 1700000001 None r1.2
              "see a.txt/5ba93c9db0cff93f52b521d7420e43f6eda2784f" [] in
  r2.1 = r1.1 /\ Uploads r2.2 = Uploads r1.2.
Proof.
  apply (SubmitUpload_same_concatenation 1700000000 1700000001 (mkDB [] 0)
           "see " ["a.txt/5ba93c9db0cff93f52b521d7420e43f6eda2784f"%string]
           "see a.txt/5ba93c9db0cff93f52b521d7420e43f6eda2784f" []).
  reflexivity.
Defined.

(** X7 (POST /submit, when it panics).  The handler panics exactly
    when the request has no multipart form or the form has no value
    under "body"; with a body it returns, whatever fails on the way:
    the hash it slices to ten characters always has forty. *)
Theorem handleSubmit_panics_iff wireTypes tFileObject baseurl env w form :
  (exists msg, handleSubmit wireTypes tFileObject baseurl env w form = Panics msg)
  <-> match form with
      | None => True
      | Some f => default [] (multipart.Value f !! "body"%string) = []
      end.
Proof.
  destruct form as [f|]; [|split; [trivial|intros _; cbn; eauto]].
  destruct (default [] (multipart.Value f !! "body"%string)) as [|body rest] eqn:Hb.
  - split; [trivial|intros _]. unfold handleSubmit. rewrite Hb. cbn. eauto.
  - split; [|discriminate]. intros [msg Hp].
    destruct (handleSubmit_returns wireTypes tFileObject baseurl env w f body rest Hb)
      as [r Hr].
    congruence.
Qed.

Lemma uploadFiles_list_ignores_wait wireTypes tFileObject env1 env2 files :
  (forall i, same_but_wait (file_env env1 i) (file_env env2 i)) ->
  forall i b,
    uploadFiles_list wireTypes tFileObject env1 i files b
    = uploadFiles_list wireTypes tFileObject env2 i files b.
Proof.
  intros Hsame. induction files as [|fh files IH]; intros i b; [reflexivity|].
  cbn [uploadFiles_list]. cbv zeta.
  destruct (Hsame i) as (Hnow & Hord & Hopen & Hread & Hput).
  unfold NewFileObject. rewrite Hnow, Hord, Hopen, Hread.
  destruct (open_err (file_env env2 i)); [reflexivity|].
  destruct (read_err (file_env env2 i)); [reflexivity|].
  unfold UploadObject. rewrite Hput.
  destruct (put_err (file_env env2 i)); [reflexivity|].
  now rewrite IH.
Qed.

(** X8 (POST /submit, the wait after an upload).  The error of the
    wait for an uploaded object to exist has no effect on the answer
    or on what is stored: [UploadObject] logs it and returns no
    error, and the handler drops the key it returns. *)
Theorem handleSubmit_ignores_wait_errors wireTypes tFileObject baseurl env1 env2 w form :
  (forall i, same_but_wait (file_env env1 i) (file_env env2 i)) ->
  insert_now env1 = insert_now env2 ->
  insert_fault env1 = insert_fault env2 ->
  handleSubmit wireTypes tFileObject baseurl env1 w form
  = handleSubmit wireTypes tFileObject baseurl env2 w form.
Proof.
  intros Hsame Hnow Hfault. unfold handleSubmit.
  destruct form as [f|]; [|reflexivity].
  destruct (default [] (multipart.Value f !! "body"%string) !! 0%nat) as [body|];
    [|reflexivity].
  cbv zeta. rewrite !uploadFiles_replicate.
  rewrite (uploadFiles_list_ignores_wait _ _ env1 env2 _ Hsame).
  now rewrite Hnow, Hfault.
Qed.

Lemma handleSubmit_ignores_wait_errors_witness :
  handleSubmit sampleWireTypes 65 sampleBaseurl (calmEnv sampleTime1 []) emptyWorld
    (submission "hello world" [sampleFileOneHeader; sampleFileB])
  = handleSubmit sampleWireTypes 65 sampleBaseurl waitsFail emptyWorld
      (submission "hello world" [sampleFileOneHeader; sampleFileB]).
Proof.
  apply (handleSubmit_ignores_wait_errors sampleWireTypes 65 sampleBaseurl
           (calmEnv sampleTime1 []) waitsFail emptyWorld).
  - intros i. repeat split.
  - reflexivity.
  - reflexivity.
Defined.

Lemma uploadFiles_list_dom wireTypes tFileObject env files :
  forall i b r b',
    uploadFiles_list wireTypes tFileObject env i files b = (r, b') ->
    dom b ⊆ dom b'.
Proof.
  induction files as [|fh files IH]; intros i b r b' H.
  - inversion H. reflexivity.
  - cbn [uploadFiles_list] in H. cbv zeta in H.
    destruct (NewFileObject _ _ _) as [fo|err]; [|inversion H; reflexivity].
    unfold UploadObject in H.
    destruct (put_err (file_env env i)); [inversion H; reflexivity|].
    destruct (uploadFiles_list _ _ _ _ _ _) as [[ps|resp] b''] eqn:Hrec;
      apply IH in Hrec; inversion H; subst;
      (etransitivity; [|exact Hrec]); rewrite dom_insert; set_solver.
Qed.

(** X9 (POST /submit, nothing is removed).  A [POST /submit] that
    returns leaves every row of the table as it was and in place,
    adds at most one row at the end, draws at most one id from the
    sequence, and removes no object of the bucket. *)
Theorem handleSubmit_append_only wireTypes tFileObject baseurl env w form resp w' :
  handleSubmit wireTypes tFileObject baseurl env w form = Return (resp, w') ->
  (exists new, Uploads (db w') = Uploads (db w) ++ new /\ (length new <= 1)%nat)
  /\ Uploads_id_seq (db w) <= Uploads_id_seq (db w') <= Uploads_id_seq (db w) + 1
  /\ dom (s3 w) ⊆ dom (s3 w').
Proof.
  unfold handleSubmit. destruct form as [f|]; [|discriminate].
  destruct (default [] (multipart.Value f !! "body"%string) !! 0%nat) as [body|];
    [|discriminate].
  cbv zeta. rewrite uploadFiles_replicate.
  destruct (uploadFiles_list _ _ _ _ _ _) as [[pairs|r] b] eqn:Hup;
    apply uploadFiles_list_dom in Hup.
  - pose proof (SubmitUpload_db (insert_now env) (insert_fault env) (db w) body pairs)
      as Hdb.
    assert (Hres : forall d, d = (SubmitUpload (insert_now env) (insert_fault env)
                                    (db w) body pairs).2 ->
              (exists new, Uploads d = Uploads (db w) ++ new /\ (length new <= 1)%nat)
              /\ Uploads_id_seq (db w) <= Uploads_id_seq d
                 <= Uploads_id_seq (db w) + 1).
    { intros d ->. rewrite Hdb. destruct (insert_fault env).
      - split; [exists []; rewrite app_nil_r; split; [reflexivity|simpl; lia]|lia].
      - cbn [Uploads Uploads_id_seq]. split; [|lia].
        destruct (hash_taken _ _).
        + exists []. rewrite app_nil_r. split; [reflexivity|simpl; lia].
        + eexists. split; [reflexivity|simpl; lia]. }
    destruct (SubmitUpload _ _ _ _ _) as [[hash [err|]] d].
    + intros H. inversion H; subst. cbn [db s3].
      destruct (Hres d eq_refl) as [H1 H2]. auto.
    + destruct (slice_to hash 10); [|discriminate].
      intros H. inversion H; subst. cbn [db s3].
      destruct (Hres d eq_refl) as [H1 H2]. auto.
  - intros H. inversion H; subst. cbn [db s3].
    split; [exists []; rewrite app_nil_r; split; [reflexivity|simpl; lia]|].
    split; [lia|exact Hup].
Qed.

Lemma handleSubmit_append_only_witness :
  exists resp w',
    handleSubmit sampleWireTypes 65 sampleBaseurl secondUploadFails
      (mkWorld ∅ sampleDB) (submission "hello world" [sampleFileOneHeader; sampleFileB])
    = Return (resp, w')
    /\ (exists new, Uploads (db w') = Uploads sampleDB ++ new /\ (length new <= 1)%nat)
    /\ Uploads_id_seq sampleDB <= Uploads_id_seq (db w') <= Uploads_id_seq sampleDB + 1
    /\ dom (∅ : Bucket) ⊆ dom (s3 w').
Proof.
  destruct (Submit_returns sampleWireTypes 65 sampleBaseurl secondUploadFails
              (mkWorld ∅ sampleDB) "hello world" [sampleFileOneHeader; sampleFileB])
    as [[resp w'] E].
  exists resp, w'. split; [exact E|].
  exact (handleSubmit_append_only sampleWireTypes 65 sampleBaseurl secondUploadFails
           (mkWorld ∅ sampleDB)
           (submission "hello world" [sampleFileOneHeader; sampleFileB]) resp w' E).
Defined.

(** * The page of a submission *)

Lemma lowerASCII_no_upper s : hasUpper s = false -> lowerASCII s = s.
Proof.
  induction s as [|c s IH]; simpl; [reflexivity|].
  intros H. apply orb_false_iff in H as [Hc Hs]. now rewrite Hc, IH.
Qed.

Lemma ToLower_ASCII lower s : isASCII s = true -> ToLower lower s = lowerASCII s.
Proof.
  intros H. unfold ToLower. rewrite H.
  destruct (hasUpper s) eqn:Hu; [reflexivity|]. cbn [negb].
  symmetry. now apply lowerASCII_no_upper.
Qed.

Lemma isLowerHex_ascii c : isLowerHex c = true -> (0x80 <=? code c) = false.
Proof.
  unfold isLowerHex. intros H. apply Z.leb_gt.
  apply orb_true_iff in H as [H|H]; apply andb_true_iff in H as [_ H];
    apply Z.leb_le in H; lia.
Qed.

Lemma isLowerHex_not_upper c : isLowerHex c = true -> isUpper c = false.
Proof.
  unfold isLowerHex, isUpper. intros H. apply andb_false_iff.
  apply orb_true_iff in H as [H|H]; apply andb_true_iff in H as [H1 H2];
    apply Z.leb_le in H1, H2.
  - left. apply Z.leb_gt. lia.
  - right. apply Z.leb_gt. lia.
Qed.

Lemma lower_hex_ASCII s :
  all_chars isLowerHex s = true -> isASCII s = true /\ hasUpper s = false.
Proof.
  induction s as [|c s IH]; [auto|]. cbn [all_chars isASCII hasUpper].
  intros H. apply andb_true_iff in H as [Hc Hs].
  rewrite (isLowerHex_ascii _ Hc), (isLowerHex_not_upper _ Hc). now apply IH.
Qed.

Lemma ToLower_lower_hex lower s :
  all_chars isLowerHex s = true -> ToLower lower s = s.
Proof.
  intros H. destruct (lower_hex_ASCII _ H) as [Ha Hu].
  unfold ToLower. now rewrite Ha, Hu.
Qed.

Lemma lower_hex_valid s : all_chars isLowerHex s = true -> isValidHex s = true.
Proof.
  intros H. rewrite isValidHex_all. revert H. apply all_chars_impl.
  intros c Hc. unfold isLowerHex in Hc. unfold isHexRune. now rewrite Hc.
Qed.

Lemma hasUpper_not_lower_hex s :
  hasUpper s = true -> all_chars isLowerHex s = false.
Proof.
  intros H. destruct (all_chars isLowerHex s) eqn:E; [|reflexivity].
  apply lower_hex_ASCII in E as [_ E]. congruence.
Qed.

(** X10 (GET /:hash, the answers without a page).  The handler
    answers 400 exactly when the lower-cased parameter consists of hex
    digits and has fewer than 10 or more than 40 characters; a
    parameter that is no hex string, whatever its length, gets the
    404 page, so the check for hex digits inside [GetUpload] never
    decides the answer here. *)
Theorem handleHash_bad_request lower fault scan w param :
  (handleHash lower fault scan w param
   = Return (respondError 400 ErrHashInvalid, None)
   <-> isValidHex (ToLower lower param) = true
       /\ ((String.length (ToLower lower param) < 10)%nat
           \/ (40 < String.length (ToLower lower param))%nat))
  /\ (isValidHex (ToLower lower param) = false
      -> handleHash lower fault scan w param = Return (route404, None)).
Proof.
  unfold handleHash. cbv zeta. generalize (ToLower lower param). intros hash.
  destruct (isValidHex hash) eqn:Hv; cbn [negb].
  2:{ split; [|reflexivity]. split; [discriminate|]. intros [? _]. discriminate. }
  split; [|discriminate].
  destruct (Nat.ltb_spec (String.length hash) 10) as [H10|H10].
  { unfold GetUpload. destruct (Nat.ltb_spec (String.length hash) 10); [|lia].
    cbn [orb]. split; auto. }
  destruct (Nat.ltb_spec 40 (String.length hash)) as [H40|H40].
  { unfold GetUpload. destruct (Nat.ltb_spec 40 (String.length hash)); [|lia].
    rewrite orb_true_r. cbn [orb]. split; auto. }
  rewrite GetUpload_valid by (split; [lia|exact Hv]).
  split; [|lia]. intros H. exfalso. unfold queryRow in H.
  destruct fault as [e|].
  - discriminate.
  - destruct (find _ _) as [row|]; [|discriminate].
    destruct (separate_list (row_files row)) as [[ns ks]|]; discriminate.
Qed.

(** X11 (GET /:hash, letter case).  Two ASCII parameters that differ
    only in the case of their letters get the same answer, the
    database answering both queries alike: the handler looks up the
    lower-cased parameter. *)
Theorem handleHash_case_insensitive lower fault scan w p1 p2 :
  isASCII p1 = true -> isASCII p2 = true ->
  lowerASCII p1 = lowerASCII p2 ->
  handleHash lower fault scan w p1 = handleHash lower fault scan w p2.
Proof.
  intros H1 H2 Heq. unfold handleHash.
  now rewrite (ToLower_ASCII lower p1 H1), (ToLower_ASCII lower p2 H2), Heq.
Qed.

Lemma handleHash_case_insensitive_witness :
  handleHash (fun s => s) None [] (mkWorld ∅ sampleDB) "2AAE6C35C94F"
  = handleHash (fun s => s) None [] (mkWorld ∅ sampleDB) "2aae6c35c94f".
Proof.
  apply (handleHash_case_insensitive (fun s => s) None [] (mkWorld ∅ sampleDB)
           "2AAE6C35C94F" "2aae6c35c94f"); reflexivity.
Defined.

(** X12 (GetUpload, an upper-case argument).  On a table whose hashes
    are digests, an argument with an upper-case letter matches no
    row, although it passes the validation: [GetUpload] itself does
    not fold the case. *)
Theorem GetUpload_upper_case_no_rows scan d hash :
  hashes_digest d -> validPrefix hash -> hasUpper hash = true ->
  GetUpload None scan d hash = Return (None, Some ErrNoRows).
Proof.
  intros Hd Hv Hu. rewrite (GetUpload_valid _ _ _ _ Hv). unfold queryRow.
  rewrite find_none_Forall; [reflexivity|]. apply shuffle_Forall.
  unfold hashes_digest in Hd. eapply List.Forall_impl; [|exact Hd].
  cbn beta. intros r Hr.
  destruct (has_prefix hash (row_hash r)) eqn:Hp; [|reflexivity].
  apply has_prefix_all_chars with (P := isLowerHex) in Hp.
  - apply hasUpper_not_lower_hex in Hu. congruence.
  - rewrite Hr. apply digest_lower.
Qed.

Lemma GetUpload_upper_case_no_rows_witness :
  GetUpload None [] sampleDB "2AAE6C35C94F" = Return (None, Some ErrNoRows).
Proof.
  apply (GetUpload_upper_case_no_rows [] sampleDB "2AAE6C35C94F").
  - constructor; [vm_compute; reflexivity|constructor].
  - split; [simpl; lia|reflexivity].
  - reflexivity.
Defined.

(** The handler on a parameter of lower-case hex digits of a valid
    length: the first row of the query whose hash begins with it
    decides. *)
Lemma handleHash_lower_hex lower scan w p :
  all_chars isLowerHex p = true -> (10 <= String.length p <= 40)%nat ->
  handleHash lower None scan w p
  = match find (fun r => has_prefix p (row_hash r))
            (shuffle scan (Uploads (db w))) with
    | None => Return (route404, None)
    | Some row =>
        match separate_list (row_files row) with
        | None => Panics "index out of range"
        | Some (ns, ks) =>
            Return ([HTML 200 "submission.html"], Some (p, Some (modelOf row ns ks)))
        end
    end.
Proof.
  intros Hlow Hlen. pose proof (lower_hex_valid _ Hlow) as Hv.
  unfold handleHash. rewrite (ToLower_lower_hex lower _ Hlow).
  cbv zeta. rewrite Hv. cbn [negb].
  rewrite (GetUpload_valid _ _ _ _ (conj Hlen Hv)). unfold queryRow.
  destruct (find _ _) as [row|]; [|reflexivity].
  destruct (separate_list (row_files row)) as [[ns ks]|]; reflexivity.
Qed.

(** * From a submission to its page and its downloads *)

Lemma uploadFiles_list_bucket wireTypes tFileObject env files :
  forall i0 b,
    (forall k, (k < length files)%nat -> no_file_errors (file_env env (i0 + k))) ->
    (uploadFiles_list wireTypes tFileObject env i0 files b).2
    = bucketAfter wireTypes tFileObject env i0 files b.
Proof.
  induction files as [|fh files IH]; intros i0 b Hok; [reflexivity|].
  destruct (Hok O) as (Ho & Hr & Hp); [simpl; lia|].
  rewrite Nat.add_0_r in Ho, Hr, Hp.
  cbn [uploadFiles_list bucketAfter]. cbv zeta.
  unfold NewFileObject, UploadObject. rewrite Ho, Hr, Hp.
  rewrite <- IH.
  - unfold AttachmentKey, EncodedAttachmentBlob, attachment.
    destruct (uploadFiles_list _ _ _ _ _ _) as [[ps|resp] b'']; reflexivity.
  - intros k Hk. replace (S i0 + k)%nat with (i0 + S k)%nat by lia.
    apply Hok. simpl. lia.
Qed.

(** What a submission does when no file operation fails, with the
    bucket it leaves. *)
Lemma Submit_uploads_bucket wireTypes tFileObject baseurl env w body attachments :
  (forall k, (k < length attachments)%nat -> no_file_errors (file_env env k)) ->
  Submit wireTypes tFileObject baseurl env w body attachments
  = match SubmitUpload (insert_now env) (insert_fault env) (db w) body
            (pairStrings wireTypes tFileObject env attachments) with
    | ((_, Some err), d) =>
        Return (respondError 409 err,
                mkWorld (bucketAfter wireTypes tFileObject env 0 attachments (s3 w)) d)
    | ((hash, None), d) =>
        match slice_to hash 10 with
        | None => Panics "slice bounds out of range"
        | Some hash =>
            Return (uploaded baseurl hash,
                    mkWorld (bucketAfter wireTypes tFileObject env 0 attachments (s3 w)) d)
        end
    end.
Proof.
  intros Hok. unfold Submit, submission, handleSubmit. simpl.
  rewrite !lookup_singleton_eq. simpl.
  rewrite uploadFiles_replicate.
  pose proof (uploadFiles_list_bucket wireTypes tFileObject env attachments 0 (s3 w) Hok)
    as Hb.
  destruct (uploadFiles_ok wireTypes tFileObject env 0 attachments (s3 w) Hok)
    as (b' & Hb').
  rewrite Hb' in Hb |- *. cbn [snd] in Hb. subst b'. reflexivity.
Qed.

Lemma pairStrings_wf wireTypes tFileObject env attachments :
  (forall k, (k < length attachments)%nat -> no_file_errors (file_env env k)) ->
  Forall (fun f => has_char "/" f = true)
    (pairStrings wireTypes tFileObject env attachments).
Proof.
  intros Hok.
  destruct (uploadFiles_ok wireTypes tFileObject env 0 attachments ∅ Hok) as (b' & Hb').
  exact (uploadFiles_pairs_wf _ _ _ _ _ _ _ _ Hb').
Qed.

Lemma bucketAfter_keeps wireTypes tFileObject env key blob files :
  forall i0 b,
    b !! key = Some blob ->
    (forall j fh, files !! j = Some fh ->
       AttachmentKey wireTypes tFileObject (file_env env (i0 + j)) fh = key ->
       EncodedAttachmentBlob wireTypes tFileObject (file_env env (i0 + j)) fh = blob) ->
    bucketAfter wireTypes tFileObject env i0 files b !! key = Some blob.
Proof.
  induction files as [|fh files IH]; intros i0 b Hb Hsame; [exact Hb|].
  cbn [bucketAfter]. apply IH.
  - destruct (decide (AttachmentKey wireTypes tFileObject (file_env env i0) fh = key))
      as [Heq|Hne].
    + rewrite <- Heq, lookup_insert_eq. f_equal.
      specialize (Hsame 0%nat fh eq_refl). rewrite Nat.add_0_r in Hsame. auto.
    + rewrite lookup_insert_ne by exact Hne. exact Hb.
  - intros j fh' Hj. replace (S i0 + j)%nat with (i0 + S j)%nat by lia.
    now apply Hsame.
Qed.

Lemma bucketAfter_lookup wireTypes tFileObject env files :
  forall i0 b k fh,
    files !! k = Some fh ->
    (forall j fh', files !! j = Some fh' ->
       AttachmentKey wireTypes tFileObject (file_env env (i0 + j)) fh'
       = AttachmentKey wireTypes tFileObject (file_env env (i0 + k)) fh ->
       EncodedAttachmentBlob wireTypes tFileObject (file_env env (i0 + j)) fh'
       = EncodedAttachmentBlob wireTypes tFileObject (file_env env (i0 + k)) fh) ->
    bucketAfter wireTypes tFileObject env i0 files b
      !! AttachmentKey wireTypes tFileObject (file_env env (i0 + k)) fh
    = Some (EncodedAttachmentBlob wireTypes tFileObject (file_env env (i0 + k)) fh).
Proof.
  induction files as [|fh0 files IH]; intros i0 b k fh Hk Hsame; [discriminate|].
  destruct k as [|k].
  - injection Hk as ->. rewrite Nat.add_0_r in *. cbn [bucketAfter].
    apply bucketAfter_keeps; [apply lookup_insert_eq|].
    intros j fh' Hj. replace (S i0 + j)%nat with (i0 + S j)%nat by lia.
    now apply (Hsame (S j)).
  - cbn [bucketAfter]. replace (i0 + S k)%nat with (S i0 + k)%nat in * by lia.
    apply IH; [exact Hk|].
    intros j fh' Hj. replace (S i0 + j)%nat with (i0 + S j)%nat by lia.
    now apply (Hsame (S j)).
Qed.

(** [Decode] reads back what [Encode] wrote. *)
Lemma Decode_Encode wireTypes tFileObject o v :
  0 <= tFileObject < 2 ^ 31 ->
  FileObject_valid v ->
  (Gob.Encode wireTypes tFileObject o v).2 = None ->
  Gob.Decode wireTypes tFileObject (Gob.Encode wireTypes tFileObject o v).1
    zeroFileObject
  = (v, None).
Proof.
  intros Hid Hvalid. unfold Gob.Encode.
  destruct (Gob.encodeStruct o v) as [body|e] eqn:Hstruct; [|discriminate].
  cbv zeta.
  destruct (Gob.tooBig <=? Z.of_nat (length (Gob.encodeInt tFileObject ++ body)))
    eqn:Hbig; [discriminate|].
  intros _. cbn [fst]. apply Z.leb_gt in Hbig.
  rewrite length_app in Hbig.
  unfold Gob.Decode. rewrite trimPrefix_app.
  unfold Gob.tooBig in Hbig.
  rewrite decodeUint_encodeUint by (rewrite length_app; lia).
  unfold Gob.tooBig at 1.
  destruct (2 ^ 33 <=? Z.of_nat (length (Gob.encodeInt tFileObject ++ body))) eqn:E1;
    [apply Z.leb_le in E1; rewrite length_app in E1; lia|].
  rewrite Z.ltb_irrefl, Nat2Z.id, firstn_all.
  rewrite decodeInt_encodeInt by (unfold int64; lia).
  rewrite Z.mod_small by lia.
  assert (Hs : signed 32 tFileObject = tFileObject).
  { unfold signed. destruct (tFileObject <? 2 ^ (32 - 1)) eqn:E; [reflexivity|].
    apply Z.ltb_ge in E. simpl in E. lia. }
  rewrite Hs, Z.eqb_refl.
  apply (decodeStruct_encodeStruct o v body Hvalid Hstruct).
  unfold Gob.tooBig. lia.
Qed.

Lemma Encode_ok_nonempty wireTypes tFileObject o v :
  (Gob.Encode wireTypes tFileObject o v).2 = None ->
  (Gob.Encode wireTypes tFileObject o v).1 <> [].
Proof.
  unfold Gob.Encode. destruct (Gob.encodeStruct o v) as [body|e]; [|discriminate].
  cbv zeta. destruct (Gob.tooBig <=? _); [discriminate|]. intros _. cbn [fst].
  intros H. apply (f_equal (@length byte)) in H. rewrite !length_app in H.
  pose proof (encodeUint_nonempty
                (Z.of_nat (length (Gob.encodeInt tFileObject ++ body)))) as Hn.
  rewrite length_app in Hn. simpl in H. lia.
Qed.

Lemma sha1hex_not_empty data : sha1hex data <> EmptyString.
Proof.
  intros H. apply (f_equal String.length) in H. rewrite sha1hex_length in H.
  discriminate.
Qed.

(** X13 (POST /submit then GET /download).  After a submission in
    which no file operation fails, whatever the insert does, a
    download by the key of one of its valid attachments serves that
    attachment: the file name as uploaded, the time stamped at the
    upload, and the content.  (Two attachments of the submission with
    the same key are taken to have the same encoding.) *)
Theorem Submit_then_download wireTypes tFileObject baseurl env w body attachments k fh :
  0 <= tFileObject < 2 ^ 31 ->
  (forall j, (j < length attachments)%nat -> no_file_errors (file_env env j)) ->
  attachments !! k = Some fh ->
  FileObject_valid (attachment (file_env env k) fh) ->
  (Gob.Encode wireTypes tFileObject (order (file_env env k))
     (attachment (file_env env k) fh)).2 = None ->
  (forall j fh', attachments !! j = Some fh' ->
     AttachmentKey wireTypes tFileObject (file_env env j) fh'
     = AttachmentKey wireTypes tFileObject (file_env env k) fh ->
     EncodedAttachmentBlob wireTypes tFileObject (file_env env j) fh'
     = EncodedAttachmentBlob wireTypes tFileObject (file_env env k) fh) ->
  exists resp w',
    Submit wireTypes tFileObject baseurl env w body attachments = Return (resp, w')
    /\ handleDownload wireTypes tFileObject None w'
         (AttachmentKey wireTypes tFileObject (file_env env k) fh)
       = [SetHeader "Content-Disposition"
            ("attachment; filename=" +:+ multipart.Filename fh);
          ServeContent (multipart.Filename fh) (now (file_env env k))
            (multipart.content fh)].
Proof.
  intros Hid Hok Hk Hvalid Henc Hsame.
  destruct (Submit_returns wireTypes tFileObject baseurl env w body attachments)
    as [[resp w'] Hret].
  exists resp, w'. split; [exact Hret|].
  assert (Hb : s3 w' = bucketAfter wireTypes tFileObject env 0 attachments (s3 w)).
  { rewrite (Submit_uploads_bucket _ _ _ _ _ _ _ Hok) in Hret.
    destruct (SubmitUpload _ _ _ _ _) as [[hash [err|]] d].
    - inversion Hret. reflexivity.
    - destruct (slice_to hash 10); inversion Hret. reflexivity. }
  assert (Hget : s3 w' !! AttachmentKey wireTypes tFileObject (file_env env k) fh
                 = Some (EncodedAttachmentBlob wireTypes tFileObject (file_env env k) fh)).
  { rewrite Hb. apply (bucketAfter_lookup wireTypes tFileObject env attachments 0);
      assumption. }
  rewrite (handleDownload_fetched wireTypes tFileObject w'
             (AttachmentKey wireTypes tFileObject (file_env env k) fh)
             (EncodedAttachmentBlob wireTypes tFileObject (file_env env k) fh)
             (sha1hex_not_empty _) Hget (Encode_ok_nonempty _ _ _ _ Henc)).
  unfold EncodedAttachmentBlob.
  rewrite (Decode_Encode _ _ _ _ Hid Hvalid Henc). reflexivity.
Qed.

(** A submission in which nothing fails is answered with its short
    hash. *)
Lemma Submit_ok_uploaded wireTypes tFileObject baseurl env w body attachments :
  (forall k, (k < length attachments)%nat -> no_file_errors (file_env env k)) ->
  insert_fault env = None ->
  exists w',
    Submit wireTypes tFileObject baseurl env w body attachments
    = Return (uploaded baseurl
                (shortHash (submissionHash wireTypes tFileObject env body attachments)),
              w').
Proof.
  intros Hok Hf.
  destruct (Submit_uploads_ok wireTypes tFileObject baseurl env w body attachments Hok)
    as (b' & ->).
  rewrite Hf, SubmitUpload_hash. cbv zeta.
  fold (submissionHash wireTypes tFileObject env body attachments).
  unfold submissionHash. rewrite slice_to_sha1hex. eauto.
Qed.

Lemma Submit_then_download_witness :
  exists resp w',
    Submit sampleWireTypes 65 sampleBaseurl (calmEnv sampleTime1 []) emptyWorld
      "hello world" [sampleFileOneHeader; sampleFileB]
    = Return (resp, w')
    /\ handleDownload sampleWireTypes 65 None w'
         (AttachmentKey sampleWireTypes 65 (file_env (calmEnv sampleTime1 []) 1)
            sampleFileB)
       = [SetHeader "Content-Disposition" "attachment; filename=b.txt";
          ServeContent "b.txt" sampleTime1 (bytes_of_string "de")].
Proof.
  apply (Submit_then_download sampleWireTypes 65 sampleBaseurl (calmEnv sampleTime1 [])
           emptyWorld "hello world" [sampleFileOneHeader; sampleFileB] 1 sampleFileB).
  - lia.
  - intros j _. repeat split.
  - reflexivity.
  - unfold FileObject_valid, int64, int32, sliceBound. simpl.
    split; [lia|]. split; [lia|]. split; [lia|].
    apply map_Forall_insert_2; [simpl; lia|]. apply map_Forall_empty.
  - vm_compute. reflexivity.
  - intros j fh' Hj Hkey. destruct j as [|[|j]]; [| |discriminate Hj].
    + injection Hj as <-. vm_compute in Hkey. discriminate Hkey.
    + injection Hj as <-. reflexivity.
Defined.

(** X14 (POST /submit then GET /:hash).  After a submission that goes
    through, the page under the returned short hash, titled with it,
    shows a record with the submission hash, provided no other stored
    hash begins with that short hash, in whatever order the query
    returns the rows; when the submission hash was new, the
    record is the one just stored: the body, the time of the insert,
    and the pair strings split into names and keys. *)
Theorem Submit_then_page lower scan wireTypes tFileObject baseurl env w body
    attachments :
  files_wf (db w) ->
  (forall k, (k < length attachments)%nat -> no_file_errors (file_env env k)) ->
  insert_fault env = None ->
  let h := submissionHash wireTypes tFileObject env body attachments in
  Forall (fun r => has_prefix (shortHash h) (row_hash r) = true -> row_hash r = h)
    (Uploads (db w)) ->
  exists w' u,
    Submit wireTypes tFileObject baseurl env w body attachments
    = Return (uploaded baseurl (shortHash h), w')
    /\ handleHash lower None scan w' (shortHash h)
       = Return ([HTML 200 "submission.html"], Some (shortHash h, Some u))
    /\ Hash u = h
    /\ (hash_taken (db w) h = false ->
        Body u = body /\ Timestamp u = insert_now env
        /\ separate_list (pairStrings wireTypes tFileObject env attachments)
           = Some (FileNames u, FileHashes u)).
Proof.
  intros Hw Hok Hf h Hfresh.
  destruct (Submit_uploads_ok wireTypes tFileObject baseurl env w body attachments Hok)
    as (b' & HS).
  pose proof (SubmitUpload_hash (insert_now env) (db w) body
                (pairStrings wireTypes tFileObject env attachments)) as HSU.
  cbv zeta in HSU. fold (submissionHash wireTypes tFileObject env body attachments) in HSU.
  fold h in HSU.
  assert (Hlen : String.length h = 40%nat) by apply sha1hex_length.
  assert (Hlow : all_chars isLowerHex h = true) by apply sha1hex_lower.
  assert (Hslice : slice_to h 10 = Some (shortHash h)) by apply slice_to_sha1hex.
  destruct (separate_wf _ (pairStrings_wf wireTypes tFileObject env attachments Hok))
    as (names & keys & Hsep).
  clearbody h.
  rewrite Hf, HSU, Hslice in HS. rewrite HS. clear HS HSU.
  assert (Hshort : all_chars isLowerHex (shortHash h) = true)
    by now apply all_chars_substring.
  assert (Hv : validPrefix (shortHash h)).
  { split; [|now apply lower_hex_valid].
    unfold shortHash. rewrite substring_length; lia. }
  assert (Hpre : has_prefix (shortHash h) h = true) by apply has_prefix_substring.
  assert (Hpage : forall d,
            handleHash lower None scan (mkWorld b' d) (shortHash h)
            = match find (fun r => has_prefix (shortHash h) (row_hash r))
                      (shuffle scan (Uploads d)) with
              | None => Return (route404, None)
              | Some row =>
                  match separate_list (row_files row) with
                  | None => Panics "index out of range"
                  | Some (ns, ks) =>
                      Return ([HTML 200 "submission.html"],
                              Some (shortHash h, Some (modelOf row ns ks)))
                  end
              end).
  { intros d. apply handleHash_lower_hex; [exact Hshort|exact (proj1 Hv)]. }
  rewrite List.Forall_forall in Hfresh.
  destruct (hash_taken (db w) h) eqn:Ht.
  - apply hash_taken_In in Ht as (r & Hin & Hr).
    destruct (find_shuffle_some (fun r => has_prefix (shortHash h) (row_hash r)) scan
                (Uploads (db w))) as (x & Hfind & Hx & Hxp).
    { apply List.Exists_exists. exists r. split; [exact Hin|]. now rewrite Hr. }
    destruct (files_wf_In _ _ Hw Hx) as (ns & ks & Hs).
    eexists _, (modelOf x ns ks). split; [reflexivity|].
    rewrite Hpage. cbn [Uploads]. rewrite Hfind, Hs.
    split; [reflexivity|]. split; [|discriminate].
    cbn [modelOf Hash]. now apply Hfresh.
  - eexists _, (modelOf (mkRow (Uploads_id_seq (db w) + 1) h body
                             (pairStrings wireTypes tFileObject env attachments)
                             (insert_now env)) names keys).
    split; [reflexivity|].
    rewrite Hpage. cbn [Uploads].
    rewrite (find_shuffle_unique (fun r => has_prefix (shortHash h) (row_hash r)) scan _
               (mkRow (Uploads_id_seq (db w) + 1) h body
                  (pairStrings wireTypes tFileObject env attachments) (insert_now env))).
    + cbn [row_files]. rewrite Hsep.
      split; [reflexivity|]. cbn. auto.
    + apply in_or_app. right. now left.
    + exact Hpre.
    + intros y Hy Hp. apply in_app_or in Hy as [Hy|[<-|[]]]; [|reflexivity].
      exfalso. apply (Hfresh y Hy) in Hp.
      apply hash_taken_false in Ht. rewrite List.Forall_forall in Ht.
      specialize (Ht y Hy). cbn beta in Ht.
      rewrite Hp, String.eqb_refl in Ht. discriminate.
Qed.

Lemma Submit_then_page_witness :
  let h := submissionHash sampleWireTypes 65 (calmEnv sampleTime1 []) "hello world"
             [sampleFileOneHeader; sampleFileC] in
  exists w' u,
    Submit sampleWireTypes 65 sampleBaseurl (calmEnv sampleTime1 []) emptyWorld
      "hello world" [sampleFileOneHeader; sampleFileC]
    = Return (uploaded sampleBaseurl (shortHash h), w')
    /\ handleHash (fun s => s) None [] w' (shortHash h)
       = Return ([HTML 200 "submission.html"], Some (shortHash h, Some u))
    /\ Hash u = h
    /\ (hash_taken (db emptyWorld) h = false ->
        Body u = "hello world"%string
        /\ Timestamp u = insert_now (calmEnv sampleTime1 [])
        /\ separate_list (pairStrings sampleWireTypes 65 (calmEnv sampleTime1 [])
                            [sampleFileOneHeader; sampleFileC])
           = Some (FileNames u, FileHashes u)).
Proof.
  apply (Submit_then_page (fun s => s) [] sampleWireTypes 65 sampleBaseurl
           (calmEnv sampleTime1 []) emptyWorld "hello world"
           [sampleFileOneHeader; sampleFileC]).
  - constructor.
  - intros k _. repeat split.
  - reflexivity.
  - constructor.
Defined.

(** * The bucket and the download handler *)

(** X15 (UploadObject then DownloadLargeObject).  [UploadObject]
    returns an error exactly when the upload itself fails; a failed
    wait is only logged.  After an upload without error a download of
    the key returns the contents, and every other key is as before;
    the key returned is the key given, or empty when the wait failed.
    With an error the key returned is empty, and the error is
    NoSuchBucket exactly when the cause is or wraps one. *)
Theorem UploadObject_then_Download put wait b key contents outKey err b' :
  UploadObject put wait b key contents = ((outKey, err), b') ->
  match err with
  | None =>
      put = None
      /\ DownloadLargeObject None b' key = (contents, None)
      /\ (forall k, k <> key -> b' !! k = b !! k)
      /\ outKey = match wait with Some _ => EmptyString | None => key end
  | Some e =>
      outKey = EmptyString
      /\ exists cause, put = Some cause
           /\ (e = ErrNoSuchBucket
               <-> cause = ErrNoSuchBucket \/ exists msg, cause = ErrAWS true msg)
  end.
Proof.
  unfold UploadObject. destruct put as [cause|].
  - intros H. inversion H; subst. split; [reflexivity|].
    exists cause. split; [reflexivity|].
    destruct cause as [| | | | | |[] msg| | |]; split;
      try reflexivity; try discriminate; eauto;
      intros [H0|[m H0]]; discriminate.
  - intros H. inversion H; subst. split; [reflexivity|].
    unfold DownloadLargeObject. rewrite lookup_insert_eq.
    split; [reflexivity|]. split.
    + intros k Hk. now rewrite lookup_insert_ne.
    + now destruct wait.
Qed.

Lemma UploadObject_then_Download_witness :
  DownloadLargeObject None (<["k1"%string := [x01; x02]]> (∅ : Bucket)) "k1"
  = ([x01; x02], None).
Proof.
  exact (proj1 (proj2
    (UploadObject_then_Download None (Some (ErrAWS false "ResourceNotReady"))
       ∅ "k1" [x01; x02] EmptyString None _ eq_refl))).
Defined.

(** X16 (GET /download, the 404 page).  For a non-empty hash the
    handler answers with the 404 page exactly when the download
    fails, the bucket has no object under the hash, or the object is
    empty. *)
Theorem handleDownload_404_iff wireTypes tFileObject get w hash :
  hash <> EmptyString ->
  handleDownload wireTypes tFileObject get w hash = route404
  <-> get <> None \/ s3 w !! hash = None \/ s3 w !! hash = Some [].
Proof.
  intros Hhash. split; [|now apply handleDownload_fetch_failed].
  unfold handleDownload, DownloadLargeObject.
  destruct (String.eqb hash "") eqn:E; [apply String.eqb_eq in E; congruence|].
  destruct get as [e|]; [intros _; left; discriminate|].
  destruct (s3 w !! hash) as [[|x data]|]; [auto|discriminate|auto].
Qed.

Lemma handleDownload_404_iff_witness :
  handleDownload sampleWireTypes 65 None emptyWorld "5ba93c9db0cff93f52b521d7420e43f6eda2784f"
  = route404
  <-> None <> (None : option error)
      \/ s3 emptyWorld !! "5ba93c9db0cff93f52b521d7420e43f6eda2784f"%string = None
      \/ s3 emptyWorld !! "5ba93c9db0cff93f52b521d7420e43f6eda2784f"%string = Some [].
Proof.
  apply (handleDownload_404_iff sampleWireTypes 65 None emptyWorld
           "5ba93c9db0cff93f52b521d7420e43f6eda2784f").
  discriminate.
Defined.

(** X17 (GET /download without a hash).  Without a hash the handler
    answers 400 and, not returning there, goes on to fetch the empty
    key: a second response always follows, the 404 page unless the
    bucket holds a non-empty object under the empty key and the
    download succeeds. *)
Theorem handleDownload_missing_hash wireTypes tFileObject get w :
  exists rest,
    handleDownload wireTypes tFileObject get w EmptyString
    = JSON_message 400 hashRequired :: rest
    /\ rest <> []
    /\ (rest = route404
        <-> get <> None \/ s3 w !! EmptyString = None \/ s3 w !! EmptyString = Some []).
Proof.
  unfold handleDownload, DownloadLargeObject. cbn [String.eqb respondError app].
  destruct get as [e|].
  - eexists. split; [reflexivity|]. split; [discriminate|].
    split; [intros _; left; discriminate|reflexivity].
  - destruct (s3 w !! EmptyString) as [[|x data]|].
    + eexists. split; [reflexivity|]. split; [discriminate|]. split; auto.
    + eexists. split; [reflexivity|]. split; [discriminate|].
      split; [discriminate|]. intros [H|[H|H]]; [congruence|discriminate..].
    + eexists. split; [reflexivity|]. split; [discriminate|]. split; auto.
Qed.

(** X18 (the key covers the whole attachment).  Two uploads whose
    valid attachments encode to the same blob, and so get the same
    key, are the same upload stamped with the same time: file name,
    header, size and content all agree. *)
Theorem same_blob_same_attachment wireTypes tFileObject e1 e2 fh1 fh2 :
  FileObject_valid (attachment e1 fh1) -> FileObject_valid (attachment e2 fh2) ->
  (Gob.Encode wireTypes tFileObject (order e1) (attachment e1 fh1)).2 = None ->
  (Gob.Encode wireTypes tFileObject (order e2) (attachment e2 fh2)).2 = None ->
  EncodedAttachmentBlob wireTypes tFileObject e1 fh1
  = EncodedAttachmentBlob wireTypes tFileObject e2 fh2 ->
  fh1 = fh2 /\ now e1 = now e2.
Proof.
  intros Hv1 Hv2 Hok1 Hok2 Heq. unfold EncodedAttachmentBlob in Heq.
  apply (Encode_injective _ _ _ _ _ _ Hv1 Hv2 Hok1 Hok2) in Heq.
  unfold attachment in Heq. destruct fh1, fh2. cbn in Heq.
  split; congruence.
Qed.

Lemma same_blob_same_attachment_witness :
  sampleFile = sampleFile /\ sampleTime1 = sampleTime1.
Proof.
  apply (same_blob_same_attachment sampleWireTypes 65
           (mkFileEnv sampleTime1 [] None None None None)
           (mkFileEnv sampleTime1 [] None None None None) sampleFile sampleFile).
  - exact sample_valid.
  - exact sample_valid.
  - vm_compute. reflexivity.
  - vm_compute. reflexivity.
  - reflexivity.
Defined.

(** * The answers of the submit handler *)

Lemma uploadFiles_list_failed wireTypes tFileObject env files :
  forall i b r b',
    uploadFiles_list wireTypes tFileObject env i files b = (inr r, b') ->
    exists err, r = [JSON_message 500 err].
Proof.
  induction files as [|fh files IH]; intros i b r b' H; [discriminate|].
  cbn [uploadFiles_list] in H. cbv zeta in H.
  destruct (NewFileObject _ _ _) as [fo|err]; [|inversion H; eauto].
  unfold UploadObject in H.
  destruct (put_err (file_env env i)); [inversion H; eauto|].
  destruct (uploadFiles_list _ _ _ _ _ _) as [[ps|resp] b''] eqn:Hrec; [discriminate|].
  inversion H; subst. eauto.
Qed.

(** X19 (POST /submit, the answers).  A [POST /submit] that returns
    writes exactly one JSON answer: 200 with an id of ten lower-case
    hex digits and the redirect made of the base URL and that id; or
    500 with a message, written before [SubmitUpload] is called, so
    that the handler has not touched the database; or 409 with the
    message of the error of the insert, which is then no unique
    violation. *)
Theorem handleSubmit_answers wireTypes tFileObject baseurl env w form resp w' :
  handleSubmit wireTypes tFileObject baseurl env w form = Return (resp, w') ->
  (exists id, resp = uploaded baseurl id
              /\ String.length id = 10%nat /\ all_chars isLowerHex id = true)
  \/ (exists err, resp = [JSON_message 500 err] /\ db w' = db w)
  \/ (exists e, resp = [JSON_message 409 (ErrDB e)]
                /\ insert_fault env = Some e /\ e <> PqError "23505").
Proof.
  unfold handleSubmit. destruct form as [f|]; [|discriminate].
  destruct (default [] (multipart.Value f !! "body"%string) !! 0%nat) as [body|];
    [|discriminate].
  cbv zeta. rewrite uploadFiles_replicate.
  destruct (uploadFiles_list _ _ _ _ _ _) as [[pairs|r] b] eqn:Hup.
  - unfold SubmitUpload, execInsert.
    pose proof (sha1hex_length (bytes_of_string body ++ bytes_of_string (Join pairs)))
      as Hlen.
    pose proof (sha1hex_lower (bytes_of_string body ++ bytes_of_string (Join pairs)))
      as Hlow.
    pose proof (slice_to_sha1hex (bytes_of_string body ++ bytes_of_string (Join pairs)))
      as Hslice.
    revert Hlen Hlow Hslice.
    generalize (sha1hex (bytes_of_string body ++ bytes_of_string (Join pairs))).
    intros h Hlen Hlow Hslice.
    assert (Hid : String.length (shortHash h) = 10%nat
                  /\ all_chars isLowerHex (shortHash h) = true).
    { split; [unfold shortHash; rewrite substring_length; lia|].
      now apply all_chars_substring. }
    destruct (insert_fault env) as [[c|m]|].
    + destruct (String.eqb c "23505") eqn:Hc.
      * rewrite Hslice. intros H. inversion H; subst. left. eauto.
      * intros H. inversion H; subst. right. right. eexists.
        split; [reflexivity|]. split; [reflexivity|].
        apply String.eqb_neq in Hc. congruence.
    + intros H. inversion H; subst. right. right. eexists.
      split; [reflexivity|]. split; [reflexivity|discriminate].
    + destruct (hash_taken (db w) h); cbv beta iota; rewrite ?String.eqb_refl, Hslice;
        intros H; inversion H; subst; left; eauto.
  - destruct (uploadFiles_list_failed _ _ _ _ _ _ _ _ Hup) as (err & ->).
    intros H. inversion H; subst. right. left. eauto.
Qed.

Lemma handleSubmit_answers_witness :
  exists resp w',
    Submit sampleWireTypes 65 sampleBaseurl secondUploadFails emptyWorld
      "hello world" [sampleFileOneHeader; sampleFileB]
    = Return (resp, w')
    /\ ((exists id, resp = uploaded sampleBaseurl id
                    /\ String.length id = 10%nat /\ all_chars isLowerHex id = true)
        \/ (exists err, resp = [JSON_message 500 err] /\ db w' = db emptyWorld)
        \/ (exists e, resp = [JSON_message 409 (ErrDB e)]
                      /\ insert_fault secondUploadFails = Some e
                      /\ e <> PqError "23505")).
Proof.
  destruct (Submit_returns sampleWireTypes 65 sampleBaseurl secondUploadFails
              emptyWorld "hello world" [sampleFileOneHeader; sampleFileB])
    as [[resp w'] E].
  exists resp, w'. split; [exact E|].
  exact (handleSubmit_answers sampleWireTypes 65 sampleBaseurl secondUploadFails
           emptyWorld (submission "hello world" [sampleFileOneHeader; sampleFileB])
           resp w' E).
Defined.

(** X20 (POST /submit then GET /:hash, in general).  When the insert
    meets no database fault, the id of a 200 answer always leads to a
    page: [GET /:hash] on it renders submission.html, titled with the
    id, with a record whose hash begins with the id, never the 404
    page or a 400, in whatever order the query returns the rows. *)
Theorem handleSubmit_id_has_page lower scan wireTypes tFileObject baseurl env w form
    id w' :
  files_wf (db w) -> insert_fault env = None ->
  handleSubmit wireTypes tFileObject baseurl env w form
  = Return (uploaded baseurl id, w') ->
  exists u,
    handleHash lower None scan w' id
    = Return ([HTML 200 "submission.html"], Some (id, Some u))
    /\ has_prefix id (Hash u) = true.
Proof.
  intros Hw Hf H.
  pose proof (handleSubmit_files_wf _ _ _ _ _ _ _ _ Hw H) as Hw'.
  assert (Hrow : all_chars isLowerHex id = true /\ String.length id = 10%nat
                 /\ Exists (fun r => has_prefix id (row_hash r) = true)
                      (Uploads (db w'))).
  { revert H. unfold handleSubmit. destruct form as [f|]; [|discriminate].
    destruct (default [] (multipart.Value f !! "body"%string) !! 0%nat) as [body|];
      [|discriminate].
    cbv zeta. rewrite uploadFiles_replicate.
    destruct (uploadFiles_list _ _ _ _ _ _) as [[pairs|r] b] eqn:Hup.
    2:{ destruct (uploadFiles_list_failed _ _ _ _ _ _ _ _ Hup) as (err & ->).
        discriminate. }
    rewrite Hf. unfold SubmitUpload, execInsert.
    pose proof (sha1hex_length (bytes_of_string body ++ bytes_of_string (Join pairs)))
      as Hlen.
    pose proof (sha1hex_lower (bytes_of_string body ++ bytes_of_string (Join pairs)))
      as Hlow.
    pose proof (slice_to_sha1hex (bytes_of_string body ++ bytes_of_string (Join pairs)))
      as Hslice.
    revert Hlen Hlow Hslice.
    generalize (sha1hex (bytes_of_string body ++ bytes_of_string (Join pairs))).
    intros h Hlen Hlow Hslice.
    assert (Hid : all_chars isLowerHex (shortHash h) = true
                  /\ String.length (shortHash h) = 10%nat).
    { split; [now apply all_chars_substring|].
      unfold shortHash. rewrite substring_length; lia. }
    destruct (hash_taken (db w) h) eqn:Ht; cbv beta iota;
      rewrite ?String.eqb_refl, Hslice; intros H; inversion H; subst;
      (split; [exact (proj1 Hid)|]); (split; [exact (proj2 Hid)|]);
      cbn [db Uploads].
    - apply hash_taken_In in Ht as (r & Hin & Hr).
      apply List.Exists_exists. exists r. split; [exact Hin|].
      rewrite Hr. apply has_prefix_substring.
    - apply List.Exists_exists. eexists. split; [apply in_or_app; right; now left|].
      cbn [row_hash]. apply has_prefix_substring. }
  destruct Hrow as (Hlow & Hlen & Hex).
  rewrite (handleHash_lower_hex lower scan w' id Hlow) by lia.
  destruct (find_shuffle_some _ scan _ Hex) as (x & Hfind & Hx & Hxp).
  rewrite Hfind. destruct (files_wf_In _ _ Hw' Hx) as (ns & ks & Hs). rewrite Hs.
  eexists. split; [reflexivity|]. exact Hxp.
Qed.

(** * The upload page *)

Lemma trimStart_split s :
  exists pre, s = pre ++ Client.trimStart s
              /\ forallb Client.isWhiteSpace pre = true.
Proof.
  induction s as [|u s (pre & Hs & Hpre)]; [exists []; auto|].
  cbn [Client.trimStart]. destruct (Client.isWhiteSpace u) eqn:Hu.
  - exists (u :: pre). cbn. rewrite Hu, Hpre. split; [congruence|reflexivity].
  - exists []. auto.
Qed.

Lemma collect_omap File (pickers : list (list File)) :
  Client.collect File pickers = omap head pickers.
Proof.
  induction pickers as [|[|f fs] pickers IH]; cbn; congruence.
Qed.

Lemma toUSVString_cons c d s :
  Client.toUSVString (c :: d :: s)
  = if Client.isLeadSurrogate c then
      if Client.isTrailSurrogate d then c :: d :: Client.toUSVString s
      else 0xFFFD :: Client.toUSVString (d :: s)
    else if Client.isTrailSurrogate c then 0xFFFD :: Client.toUSVString (d :: s)
    else c :: Client.toUSVString (d :: s).
Proof. reflexivity. Qed.

Lemma wellFormed_cons c d s :
  wellFormed (c :: d :: s)
  = if Client.isLeadSurrogate c then Client.isTrailSurrogate d && wellFormed s
    else negb (Client.isTrailSurrogate c) && wellFormed (d :: s).
Proof. reflexivity. Qed.

Lemma toUSVString_spec s :
  (length (Client.toUSVString s) = length s
   /\ (wellFormed s = true -> Client.toUSVString s = s))
  /\ forall c,
       length (Client.toUSVString (c :: s)) = length (c :: s)
       /\ (wellFormed (c :: s) = true -> Client.toUSVString (c :: s) = c :: s).
Proof.
  induction s as [|d s [[IHl IHw] IHc]].
  - split; [split; reflexivity|]. intros c. cbn.
    destruct (Client.isLeadSurrogate c); [split; [reflexivity|discriminate]|].
    destruct (Client.isTrailSurrogate c); split; try reflexivity; discriminate.
  - split; [exact (IHc d)|]. intros c. destruct (IHc d) as [IHdl IHdw].
    rewrite toUSVString_cons, wellFormed_cons.
    destruct (Client.isLeadSurrogate c).
    + destruct (Client.isTrailSurrogate d); cbn [andb].
      * split; [cbn [length]; now rewrite IHl|].
        intros Hw. now rewrite (IHw Hw).
      * split; [|discriminate]. cbn [length]. now rewrite IHdl.
    + destruct (Client.isTrailSurrogate c); cbn [negb andb].
      * split; [|discriminate]. cbn [length]. now rewrite IHdl.
      * split; [cbn [length]; now rewrite IHdl|].
        intros Hw. now rewrite (IHdw Hw).
Qed.

(** X21 (the upload page, what is sent).  When [submit] makes the
    request, the files it sends are the first file of every picker
    that holds one, in the order of the pickers, and the body entry is
    the USVString of the trimmed text.  The trimmed text is the text
    with white space removed from both ends and nothing else: what is
    cut off at either end is white space, and what is left neither
    begins nor ends with a white-space character.  The conversion
    keeps the length and replaces unpaired surrogates only, so that
    the body is the trimmed text itself when that is well-formed. *)
Theorem submit_request File value (pickers : list (list File)) fd :
  Client.submit File value pickers = Some fd ->
  Client.files File fd = omap head pickers
  /\ Client.body File fd = Client.toUSVString (Client.trim value)
  /\ (exists pre post,
        value = pre ++ Client.trim value ++ post
        /\ forallb Client.isWhiteSpace pre = true
        /\ forallb Client.isWhiteSpace post = true)
  /\ (forall u, head (Client.trim value) = Some u -> Client.isWhiteSpace u = false)
  /\ (forall u, last (Client.trim value) = Some u -> Client.isWhiteSpace u = false)
  /\ length (Client.body File fd) = length (Client.trim value)
  /\ (wellFormed (Client.trim value) = true -> Client.body File fd = Client.trim value).
Proof.
  unfold Client.submit. cbv zeta.
  destruct ((length (Client.trim value) =? 0)%nat
            && (length (Client.collect File pickers) =? 0)%nat); [discriminate|].
  intros [= <-]. cbn [Client.files Client.body].
  split; [apply collect_omap|]. split; [reflexivity|].
  destruct (toUSVString_spec (Client.trim value)) as [[Hlen Hwf] _].
  assert (Htrim : (exists pre post,
             value = pre ++ Client.trim value ++ post
             /\ forallb Client.isWhiteSpace pre = true
             /\ forallb Client.isWhiteSpace post = true)
          /\ (forall u, head (Client.trim value) = Some u ->
                Client.isWhiteSpace u = false)
          /\ (forall u, last (Client.trim value) = Some u ->
                Client.isWhiteSpace u = false));
    [|destruct Htrim as (H1 & H2 & H3); auto 6].
  unfold Client.trim.
  destruct (trimStart_split value) as (pre & Hv & Hpre).
  destruct (trimStart_split (rev (Client.trimStart value))) as (pre2 & Ht & Hpre2).
  assert (Ht' : Client.trimStart value
                = rev (Client.trimStart (rev (Client.trimStart value))) ++ rev pre2).
  { rewrite <- rev_app_distr, <- Ht. now rewrite rev_involutive. }
  split; [|split].
  - exists pre, (rev pre2). split; [|split].
    + now rewrite <- Ht'.
    + exact Hpre.
    + now rewrite forallb_rev.
  - intros u Hu.
    destruct (rev (Client.trimStart (rev (Client.trimStart value)))) as [|u' body];
      [discriminate|].
    injection Hu as ->. cbn [app] in Ht'. now apply trimStart_head in Ht'.
  - intros u Hu.
    destruct (Client.trimStart (rev (Client.trimStart value))) as [|u' X] eqn:HX;
      [discriminate|].
    cbn [rev] in Hu. rewrite last_snoc in Hu. injection Hu as ->.
    now apply trimStart_head in HX.
Qed.

Lemma submit_request_witness :
  Client.files nat (Client.mkFormData nat [7%nat; 9%nat] [104; 0xFFFD; 105])
  = omap head [[7%nat; 8%nat]; []; [9%nat]]
  /\ Client.body nat (Client.mkFormData nat [7%nat; 9%nat] [104; 0xFFFD; 105])
     = Client.toUSVString (Client.trim [32; 104; 0xD800; 105; 10])
  /\ (exists pre post,
        [32; 104; 0xD800; 105; 10] = pre ++ Client.trim [32; 104; 0xD800; 105; 10] ++ post
        /\ forallb Client.isWhiteSpace pre = true
        /\ forallb Client.isWhiteSpace post = true).
Proof.
  pose proof (submit_request nat [32; 104; 0xD800; 105; 10]
                [[7%nat; 8%nat]; []; [9%nat]]
                (Client.mkFormData nat [7%nat; 9%nat] [104; 0xFFFD; 105]) eq_refl) as H.
  exact (conj (proj1 H) (conj (proj1 (proj2 H)) (proj1 (proj2 (proj2 H))))).
Defined.

Lemma handleSubmit_id_has_page_witness :
  exists id w' u,
    Submit sampleWireTypes 65 sampleBaseurl (calmEnv sampleTime1 []) emptyWorld
      "hello world" [sampleFileOneHeader]
    = Return (uploaded sampleBaseurl id, w')
    /\ handleHash (fun s => s) None [] w' id
       = Return ([HTML 200 "submission.html"], Some (id, Some u))
    /\ has_prefix id (Hash u) = true.
Proof.
  destruct (Submit_ok_uploaded sampleWireTypes 65 sampleBaseurl (calmEnv sampleTime1 [])
              emptyWorld "hello world" [sampleFileOneHeader])
    as [w' E]; [intros k _; repeat split|reflexivity|].
  destruct (handleSubmit_id_has_page (fun s => s) [] sampleWireTypes 65 sampleBaseurl
              (calmEnv sampleTime1 []) emptyWorld
              (submission "hello world" [sampleFileOneHeader])
              (shortHash (submissionHash sampleWireTypes 65 (calmEnv sampleTime1 [])
                            "hello world" [sampleFileOneHeader])) w')
    as (u & Hu); [constructor|reflexivity|exact E|].
  eexists _, w', u. split; [exact E|exact Hu].
Defined.

(** * What a lookup returns, and what a failed submission leaves *)

Lemma Split_parts_absent s sep :
  Forall (fun p => has_char sep p = false) (Split s sep).
Proof.
  induction s as [|c s IH]; cbn [Split]; [repeat constructor|].
  destruct (Ascii.eqb c sep) eqn:Hc; [constructor; [reflexivity|exact IH]|].
  destruct (Split s sep) as [|p ps]; [repeat constructor; cbn; now rewrite Hc|].
  inversion IH; subst. constructor; [|assumption]. cbn. now rewrite Hc.
Qed.

Lemma separate_list_no_slash files names keys :
  separate_list files = Some (names, keys) ->
  Forall (fun n => has_char "/" n = false) names
  /\ Forall (fun k => has_char "/" k = false) keys.
Proof.
  revert names keys. induction files as [|f files IH]; intros names keys H.
  - inversion H. split; constructor.
  - cbn [separate_list] in H.
    destruct (Split f "/" !! 0%nat) as [n|] eqn:Hn; [|discriminate].
    destruct (Split f "/" !! 1%nat) as [k|] eqn:Hk; [|discriminate].
    cbn in H. destruct (separate_list files) as [[ns ks]|]; [|discriminate].
    inversion H; subst. destruct (IH ns ks eq_refl) as [Hns Hks].
    pose proof (Split_parts_absent f "/") as Hparts.
    rewrite Forall_lookup in Hparts.
    split; constructor; eauto.
Qed.

(** X22 (GetUpload, what it returns).  A record returned by
    [GetUpload] is always that of a row of the table whose hash begins
    with the argument, the argument having passed the validation; its
    names and keys are as many as the row has files, and none of them
    holds a slash. *)
Theorem GetUpload_returns_a_row fault scan d hash u :
  GetUpload fault scan d hash = Return (Some u, None) ->
  validPrefix hash /\ fault = None
  /\ (exists row,
        In row (Uploads d) /\ has_prefix hash (row_hash row) = true
        /\ Id u = row_id row /\ Hash u = row_hash row /\ Body u = row_body row
        /\ Timestamp u = row_timestamp row
        /\ separate_list (row_files row) = Some (FileNames u, FileHashes u)
        /\ length (FileNames u) = length (row_files row)
        /\ length (FileHashes u) = length (row_files row))
  /\ Forall (fun n => has_char "/" n = false) (FileNames u)
  /\ Forall (fun k => has_char "/" k = false) (FileHashes u).
Proof.
  intros H. assert (Hv : validPrefix hash).
  { unfold GetUpload in H. unfold validPrefix.
    destruct (String.length hash <? 10)%nat eqn:E1; [discriminate|].
    destruct (40 <? String.length hash)%nat eqn:E2; [discriminate|].
    destruct (isValidHex hash); [|discriminate].
    apply Nat.ltb_ge in E1, E2. lia. }
  split; [exact Hv|]. rewrite (GetUpload_valid _ _ _ _ Hv) in H.
  unfold queryRow in H. destruct fault as [e|]; [discriminate|].
  split; [reflexivity|].
  destruct (find _ _) as [row|] eqn:Hf; [|discriminate].
  destruct (separate_list (row_files row)) as [[ns ks]|] eqn:Hs; [|discriminate].
  inversion H; subst u. cbn.
  apply find_shuffle_In in Hf as [Hin Hp].
  destruct (separate_list_length _ _ _ Hs) as [Hl1 Hl2].
  destruct (separate_list_no_slash _ _ _ Hs) as [Hn Hk].
  split; [|split; assumption].
  exists row. repeat split; assumption.
Qed.

Lemma GetUpload_returns_a_row_witness :
  exists u,
    GetUpload None [] sampleDB2 "60daa98eb0" = Return (Some u, None)
    /\ Forall (fun n => has_char "/" n = false) (FileNames u)
    /\ Forall (fun k => has_char "/" k = false) (FileHashes u).
Proof.
  eexists. split; [vm_compute; reflexivity|].
  refine (proj2 (proj2 (proj2
    (GetUpload_returns_a_row None [] sampleDB2 "60daa98eb0" _ _)))).
  vm_compute. reflexivity.
Defined.

Lemma uploadFiles_list_first_failure wireTypes tFileObject env :
  forall k files i0 b,
    (k < length files)%nat ->
    (forall j, (j < k)%nat -> no_file_errors (file_env env (i0 + j))) ->
    file_fails (file_env env (i0 + k)) ->
    exists err,
      uploadFiles_list wireTypes tFileObject env i0 files b
      = (inr [JSON_message 500 err],
         bucketAfter wireTypes tFileObject env i0 (take k files) b).
Proof.
  induction k as [|k IH]; intros files i0 b Hk Hok Hfail;
    destruct files as [|fh files]; try (simpl in Hk; lia).
  - rewrite Nat.add_0_r in Hfail. unfold file_fails in Hfail.
    cbn [uploadFiles_list take bucketAfter]. cbv zeta.
    unfold NewFileObject, UploadObject.
    destruct (open_err (file_env env i0)) as [e|]; [eauto|].
    destruct (read_err (file_env env i0)) as [e|]; [eauto|].
    destruct (put_err (file_env env i0)) as [e|]; [eauto|].
    destruct Hfail as [H|[H|H]]; congruence.
  - destruct (Hok O) as (Ho & Hr & Hp); [lia|].
    rewrite Nat.add_0_r in Ho, Hr, Hp.
    cbn [uploadFiles_list take bucketAfter]. cbv zeta.
    unfold NewFileObject, UploadObject. rewrite Ho, Hr, Hp.
    edestruct (IH files (S i0)) as (err & ->).
    + simpl in Hk. lia.
    + intros j Hj. replace (S i0 + j)%nat with (i0 + S j)%nat by lia.
      apply Hok. lia.
    + replace (S i0 + k)%nat with (i0 + S k)%nat by lia. exact Hfail.
    + exists err. reflexivity.
Qed.

(** X23 (POST /submit, a file fails).  When the first file operation
    to fail is that of attachment [k], the handler answers 500 and
    leaves the database as it was, but the blobs of the attachments
    before [k] stay in the bucket: nothing is rolled back. *)
Theorem Submit_first_failure wireTypes tFileObject baseurl env w body attachments k :
  (k < length attachments)%nat ->
  (forall j, (j < k)%nat -> no_file_errors (file_env env j)) ->
  file_fails (file_env env k) ->
  exists err,
    Submit wireTypes tFileObject baseurl env w body attachments
    = Return ([JSON_message 500 err],
              mkWorld (bucketAfter wireTypes tFileObject env 0 (take k attachments) (s3 w))
                      (db w)).
Proof.
  intros Hk Hok Hfail. unfold Submit, submission, handleSubmit. simpl.
  rewrite !lookup_singleton_eq. simpl.
  rewrite uploadFiles_replicate.
  destruct (uploadFiles_list_first_failure wireTypes tFileObject env k attachments 0
              (s3 w) Hk Hok Hfail) as (err & ->).
  eauto.
Qed.

Lemma Submit_first_failure_witness :
  exists err,
    Submit sampleWireTypes 65 sampleBaseurl secondUploadFails emptyWorld
      "hello world" [sampleFileOneHeader; sampleFileB]
    = Return ([JSON_message 500 err],
              mkWorld (bucketAfter sampleWireTypes 65 secondUploadFails 0
                         (take 1 [sampleFileOneHeader; sampleFileB]) (s3 emptyWorld))
                      (db emptyWorld)).
Proof.
  apply (Submit_first_failure sampleWireTypes 65 sampleBaseurl secondUploadFails
           emptyWorld "hello world" [sampleFileOneHeader; sampleFileB] 1).
  - simpl. lia.
  - intros j Hj. assert (j = 0%nat) as -> by lia. repeat split.
  - right. right. discriminate.
Defined.
